(** * snkit.simplify: a shallow embedding of the network simplification passes

    The Python module [src/snkit/simplify.py] rewrites a pair of tables
    (nodes, edges) held in pandas data frames.  This development embeds the
    passes that build and contract the topology:
    [calculate_degree], [reset_ids], [add_topology], [drop_hanging_nodes],
    [merge_2], [clean_roundabouts], [add_vertex], [quickFix] and the
    pipeline [simplify_network_from_gdf] that sequences them, and beside
    them [node_connectivity_degree], [add_degree] and [snap_line].

    Conventions of the embedding.
    - A data frame is the list of its rows, in row order, under the default
      [RangeIndex] (label = position), the index [reset_index] restores.
      [iloc] reads by position, [at_label] by label.
    - Integer columns are [Z]; a numpy array is a [list Z] and numpy's
      indexing (negative indices counted from the end, [IndexError] outside)
      is written out in [np_get] and [np_set].
    - Coordinates are pairs of rationals.  The geometry kernel (pygeos,
      shapely, pyproj) and the STRtree are collaborators of the module and
      enter as the operations of the class [GeometryLib]; the order in which
      a Python [set] iterates enters as the class [SetOrder].  The statements
      hold for every kernel and every order; the module [Planar] gives one
      exact kernel on which the passes are run on example networks.
    - A call returns a value together with what it printed ([Ok]), raises
      ([Raise]), or, for [merge_2] whose walks need not end, is cut off when
      its fuel is spent ([OutOfFuel]).
    - The degree array [deg] of [merge_2] is a view of the [degree] column of
      its copy of the node table; the embedding keeps one list for both.

    The file has four parts: the embedding, the vocabulary of the statements
    with the example kernel and networks, the properties, and the runs of the
    passes on the examples. *)

From Stdlib Require Import ZArith List Lia Bool String QArith FinFun Lqa.
Import ListNotations.
Open Scope Z_scope.

(** ** Outcomes of a call *)

Inductive exn : Type :=
| ValueError | KeyError | IndexError | AttributeError | TypeError | CRSError.

(** What the module prints, one constructor per [print] site. *)
Inductive Msg : Type :=
| MsgDegreeUnhappy                         (* calculate_degree *)
| MsgNotConnected (count : Z)              (* add_topology *)
| MsgMergeFailed (edge_id type_id : Z)     (* merge_2, print_err only *)
| MsgOutOfIndex (max_node max_from max_to : Z)   (* logicCheck *)
| MsgDegreeNotCalculated                   (* logicCheck *)
| MsgDegreeMismatch                        (* logicCheck *)
| MsgGeopackage                            (* logicCheck *)
| MsgMultipleGeometries (edge_id : Z).     (* quickFix *)

(** [Unsupported] marks the one pandas behaviour the embedding does not
    follow, a write that enlarges the frame: a label-based write to a label
    the frame does not have, which appends a row of missing values, and a
    column assigned to a frame without rows, which takes its rows from the
    column. *)
Inductive result (A : Type) : Type :=
| Ok (a : A) (out : list Msg)
| Raise (e : exn)
| Unsupported
| OutOfFuel.

Arguments Ok {A} a out.
Arguments Raise {A} e.
Arguments Unsupported {A}.
Arguments OutOfFuel {A}.

Definition ret {A} (a : A) : result A := Ok a [].

Definition say (m : Msg) : result unit := Ok tt [m].

Definition bind {A B} (m : result A) (f : A -> result B) : result B :=
  match m with
  | Ok a o =>
      match f a with
      | Ok b o' => Ok b (o ++ o')
      | Raise e => Raise e
      | Unsupported => Unsupported
      | OutOfFuel => OutOfFuel
      end
  | Raise e => Raise e
  | Unsupported => Unsupported
  | OutOfFuel => OutOfFuel
  end.

Notation "x <- m ;; k" := (bind m (fun x => k))
  (at level 61, m at next level, right associativity).
Notation "m ;;; k" := (bind m (fun _ => k))
  (at level 61, right associativity).

Definition of_option {A} (e : exn) (o : option A) : result A :=
  match o with Some a => ret a | None => Raise e end.

(** ** Python and numpy primitives *)

(** [range(n)] as a column of integers. *)
Definition range (n : nat) : list Z := map Z.of_nat (seq 0 n).

(** The builtin [max] over a sequence: [ValueError] on an empty one. *)
Fixpoint py_max (l : list Z) : option Z :=
  match l with
  | [] => None
  | x :: r => match py_max r with None => Some x | Some m => Some (Z.max x m) end
  end.

(** [x in l] for integers. *)
Definition mem (x : Z) (l : list Z) : bool := existsb (Z.eqb x) l.

(** numpy resolves an index [i] into an array of length [n]:
    [0 <= i < n] as is, [-n <= i < 0] from the end, anything else is an
    [IndexError]. *)
Definition np_index (n : nat) (i : Z) : option nat :=
  if (0 <=? i) && (i <? Z.of_nat n) then Some (Z.to_nat i)
  else if (i <? 0) && (- Z.of_nat n <=? i) then Some (Z.to_nat (Z.of_nat n + i))
  else None.

Definition np_get (a : list Z) (i : Z) : option Z :=
  match np_index (List.length a) i with
  | Some k => nth_error a k
  | None => None
  end.

Fixpoint list_set {A} (l : list A) (k : nat) (v : A) : list A :=
  match l, k with
  | [], _ => []
  | _ :: r, O => v :: r
  | x :: r, S k' => x :: list_set r k' v
  end.

Definition np_set (a : list Z) (i v : Z) : option (list Z) :=
  match np_index (List.length a) i with
  | Some k => Some (list_set a k v)
  | None => None
  end.

(** [a[i] -= 1]. *)
Definition np_decr (a : list Z) (i : Z) : option (list Z) :=
  match np_get a i with
  | Some v => np_set a i (v - 1)
  | None => None
  end.

(** [np.bincount(x, None, minlength)]: negative entries are refused; the
    result has [max(minlength, max(x) + 1)] bins, all zero at first, and
    every entry of [x] adds one to its bin. *)
Fixpoint incr (bins : list Z) (k : nat) : list Z :=
  match bins, k with
  | [], _ => []
  | b :: r, O => (b + 1) :: r
  | b :: r, Datatypes.S k' => b :: incr r k'
  end.

Definition bincount (x : list Z) (minlength : Z) : result (list Z) :=
  if forallb (Z.leb 0) x then
    let bins := match py_max x with
                | Some m => Z.max minlength (m + 1)
                | None => Z.max minlength 0
                end in
    ret (fold_left (fun b v => incr b (Z.to_nat v)) x
                   (repeat 0 (Z.to_nat bins)))
  else Raise ValueError.

(** [a + b] on one-dimensional arrays, with numpy's broadcasting of a
    length-one operand. *)
Definition np_add (a b : list Z) : result (list Z) :=
  if Nat.eqb (List.length a) (List.length b)
  then ret (map (fun p => fst p + snd p) (combine a b))
  else match a, b with
       | [x], _ => ret (map (Z.add x) b)
       | _, [y] => ret (map (fun v => v + y) a)
       | _, _ => Raise ValueError
       end.

(** The builtin [min(l, key=...)]: the first element whose key no other
    element undercuts; [None] stands for the [ValueError] on an empty list. *)
Definition Qltb (a b : Q) : bool := negb (Qle_bool b a).

Fixpoint py_min_from {A} (key : A -> Q) (best : A) (l : list A) : A :=
  match l with
  | [] => best
  | x :: r => py_min_from key (if Qltb (key x) (key best) then x else best) r
  end.

Definition py_min {A} (key : A -> Q) (l : list A) : option A :=
  match l with
  | [] => None
  | x :: r => Some (py_min_from key x r)
  end.

(** The Python values that meet in a comparison of a type id with a
    literal, and [a == b] on them: integers compare by value, strings by
    their characters, and an integer is never equal to a string. *)
Inductive PyValue : Type :=
| PyInt (z : Z)
| PyStr (s : string).

Definition py_eq (a b : PyValue) : bool :=
  match a, b with
  | PyInt x, PyInt y => x =? y
  | PyStr s, PyStr t => String.eqb s t
  | PyInt _, PyStr _ => false
  | PyStr _, PyInt _ => false
  end.

(** A [dict] keeps one entry per key, in the order of first insertion. *)
Fixpoint dict_set (d : list (Z * Z)) (k v : Z) : list (Z * Z) :=
  match d with
  | [] => [(k, v)]
  | (k', v') :: r => if k' =? k then (k', v) :: r else (k', v') :: dict_set r k v
  end.

Fixpoint dict_get (d : list (Z * Z)) (k : Z) : option Z :=
  match d with
  | [] => None
  | (k', v') :: r => if k' =? k then Some v' else dict_get r k
  end.

(** [dict(zip(keys, values))]. *)
Definition dict_zip (keys values : list Z) : list (Z * Z) :=
  fold_left (fun d kv => dict_set d (fst kv) (snd kv)) (combine keys values) [].

(** ** Geometry *)

Definition Coord : Type := (Q * Q)%type.

Definition coord_eqb (a b : Coord) : bool :=
  Qeq_bool (fst a) (fst b) && Qeq_bool (snd a) (snd b).

(** [Missing] is Python's [None] in a geometry column, which pygeos reads
    as a missing geometry. *)
Inductive Geometry : Type :=
| Missing
| Point (c : Coord)
| LineString (cs : list Coord)
| MultiLineString (parts : list (list Coord)).

(** [pygeom.get_type_id]. *)
Definition get_type_id (g : Geometry) : Z :=
  match g with
  | Missing => -1
  | Point _ => 0
  | LineString _ => 1
  | MultiLineString _ => 5
  end.

(** [pygeos.coordinates.get_coordinates]. *)
Definition get_coordinates (g : Geometry) : list Coord :=
  match g with
  | Missing => []
  | Point c => [c]
  | LineString cs => cs
  | MultiLineString parts => List.concat parts
  end.

(** [pygeom.get_point(line, 0)] and [pygeom.get_point(line, -1)]: the first
    and the last vertex of a line string, [None] for anything else. *)
Definition get_point_first (g : Geometry) : Geometry :=
  match g with
  | LineString (c :: _) => Point c
  | _ => Missing
  end.

Definition get_point_last (g : Geometry) : Geometry :=
  match g with
  | LineString (c :: cs) => Point (List.last cs c)
  | _ => Missing
  end.

Definition line_endpoints (line : Geometry) : Geometry * Geometry :=
  (get_point_first line, get_point_last line).

(** The operations of the geometry kernel and of the STRtree that the module
    calls and that are not coordinate bookkeeping. *)
Class GeometryLib : Type := {
  (** [pygeos.distance], [shapely] [distance] *)
  distance : Geometry -> Geometry -> Q;
  (** [pygeos.measurement.length] *)
  geom_length : Geometry -> Q;
  (** [pygeos.constructive.centroid] *)
  centroid : Geometry -> Coord;
  (** [pygeos.predicates.is_ring] *)
  is_ring : Geometry -> bool;
  (** [pygeos.line_merge] *)
  line_merge : Geometry -> Geometry;
  (** [pygeos.STRtree(geoms).query(g)]: positions whose extent meets that of [g] *)
  tree_query : list Geometry -> Geometry -> list Z;
  (** [pygeos.STRtree(geoms).query(g, predicate='intersects')] *)
  tree_query_intersects : list Geometry -> Geometry -> list Z;
  (** a tree answers with positions of the geometries it was built on,
      each at most once *)
  tree_query_positions : forall gs g i,
    In i (tree_query gs g) -> 0 <= i < Z.of_nat (List.length gs);
  tree_query_intersects_positions : forall gs g i,
    In i (tree_query_intersects gs g) -> 0 <= i < Z.of_nat (List.length gs);
  tree_query_intersects_nodup : forall gs g,
    NoDup (tree_query_intersects gs g);
  (** [pygeos.buffer(g, tolerance)], with the fallback of [_intersects_pyg]
      to [g] itself when the buffer is empty *)
  buffer_or_self : Geometry -> Geometry;
  (** the coordinates [split_points] that [split_edges_at_nodes_pyg] derives
      for one edge from the other edges (intersection, covers, unique points,
      snap) *)
  split_points_of : list Geometry -> Geometry -> list Coord;
  (** whether pyproj builds the transformer for the zone of the first node
      and pygeos measures the projected edges, in [add_distances] *)
  can_measure : Geometry -> list Geometry -> bool
}.

(** The order in which CPython iterates over (and pops from) the set built
    from a sequence of integers. *)
Class SetOrder : Type := {
  set_of : list Z -> list Z;
  (** the set holds the members of the sequence, each once *)
  set_of_members : forall l x, In x (set_of l) <-> In x l;
  set_of_nodup : forall l, NoDup (set_of l)
}.

(** ** Tables *)

Record Node : Type := mkNode {
  node_id : Z;
  node_geometry : Geometry;
  degree : Z
}.

Record Edge : Type := mkEdge {
  edge_id : Z;
  from_id : Z;
  to_id : Z;
  osm_id : Z;
  highway : string;
  geometry : Geometry
}.

(** A row of the raw edge table, before ids and topology exist. *)
Record Feature : Type := mkFeature {
  feat_osm_id : Z;
  feat_highway : string;
  feat_geometry : Geometry
}.

(** [has_degree] records whether the node table carries the [degree] column;
    without it the [degree] fields are not part of the table. *)
Record Network : Type := mkNetwork {
  nodes : list Node;
  has_degree : bool;
  edges : list Edge
}.

Definition set_node_id (n : Node) (i : Z) : Node :=
  mkNode i (node_geometry n) (degree n).

Definition set_degree (n : Node) (d : Z) : Node :=
  mkNode (node_id n) (node_geometry n) d.

Definition set_edge_id (e : Edge) (i : Z) : Edge :=
  mkEdge i (from_id e) (to_id e) (osm_id e) (highway e) (geometry e).

Definition set_ends (e : Edge) (f t : Z) : Edge :=
  mkEdge (edge_id e) f t (osm_id e) (highway e) (geometry e).

Definition set_geometry (e : Edge) (g : Geometry) : Edge :=
  mkEdge (edge_id e) (from_id e) (to_id e) (osm_id e) (highway e) g.

(** Column assignment [df[col] = values], by position. *)
Definition assign {A B} (f : A -> B -> A) (rows : list A) (col : list B) : list A :=
  map (fun p => f (fst p) (snd p)) (combine rows col).

(** ** calculate_degree *)

Definition calculate_degree (network : Network) : result (list Z) :=
  let ndC := Z.of_nat (List.length (nodes network)) in
  let froms := map from_id (edges network) in
  let tos := map to_id (edges network) in
  max_from <- of_option ValueError (py_max froms) ;;
  unhappy <- (if ndC - 1 >? max_from
              then max_to <- of_option ValueError (py_max tos) ;;
                   ret (ndC - 1 >? max_to)
              else ret false) ;;
  (if (unhappy : bool) then say MsgDegreeUnhappy else ret tt) ;;;
  a <- bincount froms ndC ;;
  b <- bincount tos ndC ;;
  np_add a b.

(** ** reset_ids *)

(** [cur[orig == k] = v]. *)
Definition mask_assign (orig cur : list Z) (k v : Z) : list Z :=
  map (fun p => if fst p =? k then v else snd p) (combine orig cur).

(** The loop [for k, v in id_dict.items()] over one reference column. *)
Definition remap (id_dict : list (Z * Z)) (ids : list Z) : list Z :=
  fold_left (fun cur kv => mask_assign ids cur (fst kv) (snd kv)) id_dict ids.

Definition reset_ids (network : Network) : Network :=
  let to_ids := map to_id (edges network) in
  let from_ids := map from_id (edges network) in
  let new_node_ids := range (List.length (nodes network)) in
  let id_dict := dict_zip (map node_id (nodes network)) new_node_ids in
  let nt := remap id_dict to_ids in
  let nf := remap id_dict from_ids in
  let edges1 := assign (fun e ft => set_ends e (fst ft) (snd ft))
                       (edges network) (combine nf nt) in
  let edges2 := assign set_edge_id edges1 (range (List.length edges1)) in
  mkNetwork (assign set_node_id (nodes network) new_node_ids)
            (has_degree network)
            edges2.

(** ** Row access *)

(** [df.iloc[i]]: a row by position, negative positions counted from the
    end as numpy does. *)
Definition iloc {A} (rows : list A) (i : Z) : option A :=
  match np_index (List.length rows) i with
  | Some k => nth_error rows k
  | None => None
  end.

(** [series[label]] under the default index: a row by label, with no
    counting from the end ([KeyError] for a label the index lacks). *)
Definition at_label {A} (rows : list A) (label : Z) : option A :=
  if (0 <=? label) && (label <? Z.of_nat (List.length rows))
  then nth_error rows (Z.to_nat label)
  else None.

Fixpoint all_some {A} (l : list (option A)) : option (list A) :=
  match l with
  | [] => Some []
  | None :: _ => None
  | Some a :: r => match all_some r with Some r' => Some (a :: r') | None => None end
  end.

(** [[df.iloc[i] for i in positions]]. *)
Definition ilocs {A} (rows : list A) (positions : list Z) : option (list A) :=
  all_some (map (iloc rows) positions).

(** A bare [try: ... except:] keeps the value of a call that returns and
    takes the handler on any exception. *)
Definition attempt {A} (m : result A) : option A :=
  match m with
  | Ok a _ => Some a
  | _ => None
  end.

(** [np.where(cond)] and [np.nonzero(mask)]: the positions that hold. *)
Definition np_where (p : Z -> bool) (a : list Z) : list Z :=
  map fst (filter (fun iv => p (snd iv)) (combine (range (List.length a)) a)).

(** [np.sort]. *)
Fixpoint insert_sorted (x : Z) (l : list Z) : list Z :=
  match l with
  | [] => [x]
  | y :: r => if x <=? y then x :: l else y :: insert_sorted x r
  end.

Definition np_sort (l : list Z) : list Z := fold_right insert_sorted [] l.

Notation "' pat <- m ;; k" :=
  (bind m (fun x => match x with pat => k end))
  (at level 61, pat pattern, m at next level, right associativity).

Section Passes.
Context {G : GeometryLib} {S : SetOrder}.

(** ** nearest, add_topology *)

(** [nearest(geom, gdf, sindex)] over the node table. *)
Definition nearest (geom : Geometry) (gdf : list Node)
    (sindex : Geometry -> list Z) : result Node :=
  let matches_idx := sindex geom in
  rows <- of_option IndexError (ilocs gdf matches_idx) ;;
  of_option ValueError
    (py_min (fun m => distance (node_geometry m) geom) rows).

Definition nearest_node := nearest.

(** The loop of [add_topology] over the edge rows, with its three
    accumulators. *)
Fixpoint topology_loop (nds : list Node) (sindex : Geometry -> list Z)
    (rows : list Edge) (from_ids to_ids bugs : list Z)
    : list Z * list Z * list Z :=
  match rows with
  | [] => (from_ids, to_ids, bugs)
  | edge :: rest =>
      let (start, end_) := line_endpoints (geometry edge) in
      let (from_ids1, bugs1) :=
        match attempt (nearest_node start nds sindex) with
        | Some start_node => (from_ids ++ [node_id start_node], bugs)
        | None => (from_ids ++ [-1], bugs ++ [edge_id edge])
        end in
      let (to_ids1, bugs2) :=
        match attempt (nearest_node end_ nds sindex) with
        | Some end_node => (to_ids ++ [node_id end_node], bugs1)
        | None => (to_ids ++ [-1], bugs1 ++ [edge_id edge])
        end in
      topology_loop nds sindex rest from_ids1 to_ids1 bugs2
  end.

Definition add_topology (network : Network) : result Network :=
  let sindex := tree_query (map node_geometry (nodes network)) in
  let '(from_ids, to_ids, bugs) :=
    topology_loop (nodes network) sindex (edges network) [] [] [] in
  say (MsgNotConnected (Z.of_nat (List.length bugs))) ;;;
  let edges1 := assign (fun e f => set_ends e f (to_id e)) (edges network) from_ids in
  let edges2 := assign (fun e t => set_ends e (from_id e) t) edges1 to_ids in
  let edges3 := filter (fun e => negb (mem (edge_id e) bugs)) edges2 in
  ret (mkNetwork (nodes network) (has_degree network) edges3).

(** ** drop_hanging_nodes *)

(** The body of [for d in degEd.itertuples()], on the live degree array. *)
Definition hanging_step (tolerance : Q) (d : Edge) (deg drop : list Z)
    : result (list Z * list Z) :=
  let dist := geom_length (geometry d) in
  '(deg1, drop1) <-
     (if Qltb dist tolerance then
        a <- of_option IndexError (np_decr deg (from_id d)) ;;
        b <- of_option IndexError (np_decr a (to_id d)) ;;
        ret (b, drop ++ [edge_id d])
      else ret (deg, drop)) ;;
  df <- of_option IndexError (np_get deg1 (from_id d)) ;;
  both <- (if df =? 1
           then dt <- of_option IndexError (np_get deg1 (to_id d)) ;;
                ret (dt =? 1)
           else ret false) ;;
  if (both : bool) then
    a <- of_option IndexError (np_decr deg1 (from_id d)) ;;
    b <- of_option IndexError (np_decr a (to_id d)) ;;
    ret (b, drop1 ++ [edge_id d])
  else ret (deg1, drop1).

Fixpoint hanging_loop (tolerance : Q) (rows : list Edge) (deg drop : list Z)
    : result (list Z * list Z) :=
  match rows with
  | [] => ret (deg, drop)
  | d :: rest =>
      '(deg1, drop1) <- hanging_step tolerance d deg drop ;;
      hanging_loop tolerance rest deg1 drop1
  end.

(** The rows [degEd] the loop visits: the sorted concatenation of the
    positions of the edges whose [to_id] hangs and of those whose [from_id]
    hangs. *)
Definition hanging_candidates (deg : list Z) (ed : list Edge) : list Z :=
  let hangNodes := np_where (Z.eqb 1) deg in
  let to_ids := map to_id ed in
  let from_ids := map from_id ed in
  let hangTo := map (fun t => if mem t hangNodes then 1 else 0) to_ids in
  let hangFrom := map (fun f => if mem f hangNodes then 1 else 0) from_ids in
  let eInd := np_where (Z.eqb 1) hangTo ++ np_where (Z.eqb 1) hangFrom in
  np_sort eInd.

Definition drop_hanging_nodes (network : Network) (tolerance : Q)
    : result Network :=
  deg <- (if has_degree network
          then ret (map degree (nodes network))
          else calculate_degree network) ;;
  let ed := edges network in
  degEd <- of_option IndexError (ilocs ed (hanging_candidates deg ed)) ;;
  '(deg1, edge_id_drop) <- hanging_loop tolerance degEd deg [] ;;
  let edg := filter (fun e => negb (mem (edge_id e) edge_id_drop)) ed in
  let edg1 := assign set_edge_id edg (range (List.length edg)) in
  if Nat.eqb (List.length deg1) (List.length (nodes network))
  then ret (mkNetwork (assign set_degree (nodes network) deg1) true edg1)
  else Raise ValueError.

(** ** merge_2 *)

(** Python [set] operations on the iteration order. *)
Definition set_discard (s : list Z) (x : Z) : list Z :=
  filter (fun y => negb (y =? x)) s.

(** [s.remove(x)]: [KeyError] when [x] is not a member. *)
Definition set_remove (s : list Z) (x : Z) : option (list Z) :=
  if mem x s then Some (set_discard s x) else None.

(** [pygeos.multilinestrings(geoms)]: a collection of the line strings
    given, missing entries skipped, [TypeError] on any other member. *)
Fixpoint multilinestring_parts (geoms : list Geometry) : option (list (list Coord)) :=
  match geoms with
  | [] => Some []
  | Missing :: r => multilinestring_parts r
  | LineString cs :: r =>
      match multilinestring_parts r with
      | Some ps => Some (cs :: ps)
      | None => None
      end
  | _ :: _ => None
  end.

Definition multilinestrings (geoms : list Geometry) : result Geometry :=
  match multilinestring_parts geoms with
  | Some ps => ret (MultiLineString ps)
  | None => Raise TypeError
  end.

(** The node at the other end of [e], seen from [here]. *)
Definition other_end (e : Edge) (here : Z) : Z :=
  if from_id e =? here then to_id e else from_id e.

(** The variables of [merge_2] that live across iterations of [while n2].
    [deg] is the numpy array the function decrements; when the node table has
    a [degree] column, it is a view of that column of [nod], so
    [nod.degree] read at the end is [deg]. *)
Record Merge : Type := mkMerge {
  deg : list Z;
  edg : list Edge;
  n2 : list Z;
  eIDtoRemove : list Z
}.

(** The variables of one attempt (one popped node). *)
Record Attempt : Type := mkAttempt {
  nextNode1 : Z;
  nextNode2 : Z;
  edgePath1 : Edge;
  edgePath2 : Edge;
  pos_0_deg : list Z;
  pending : list Z;                (* n2 *)
  newEdge : list Geometry;
  possibly_delete : list Z
}.

Section Merge2.
(** Read-only during the whole call: the node geometries [nodGeom] and
    the index [edg_sindex] built on the geometries of the input edges. *)
Variable nodGeom : list Geometry.
Variable edg_sindex : Geometry -> list Z.

(** [find_closest_2_edges]. *)
Definition find_closest_2_edges (edgeIDs : list Z) (nodeID : Z)
    (edges_ : list Edge) (nodGeometry : Geometry) : result (Edge * Edge) :=
  rows <- of_option IndexError (ilocs edges_ edgeIDs) ;;
  edgePath1_ <- of_option ValueError
    (py_min (fun m => distance nodGeometry (geometry m)) rows) ;;
  edgeIDs1 <- of_option KeyError (set_remove edgeIDs (edge_id edgePath1_)) ;;
  rows1 <- of_option IndexError (ilocs edges_ edgeIDs1) ;;
  edgePath2_ <- of_option ValueError
    (py_min (fun m => distance nodGeometry (geometry m)) rows1) ;;
  ret (edgePath1_, edgePath2_).

(** The [try] block of a walk: the nearest other edge at the frontier
    node, measured from [nodGeom[nextNode2]]; [None] when anything in it
    raises. *)
Definition next_edge (cur : list Edge) (eID : list Z) (key_node : Z)
    : option Edge :=
  match ilocs cur eID with
  | None => None
  | Some rows =>
      match rows with
      | [] => None
      | _ :: _ =>
          match at_label nodGeom key_node with
          | None => None
          | Some k => py_min (fun m => distance k (geometry m)) rows
          end
      end
  end.

(** One turn of [while deg[nextNode1] == 2]: [None] leaves the loop, a
    state continues it (the unchanged state after [except: continue]). *)
Definition walk1_step (m : Merge) (a : Attempt) : result (option Attempt) :=
  d <- of_option IndexError (np_get (deg m) (nextNode1 a)) ;;
  if negb (d =? 2) then ret None
  else if mem (nextNode1 a) (pos_0_deg a) then ret None
  else
    g <- of_option KeyError (at_label nodGeom (nextNode1 a)) ;;
    let eID := set_discard (set_of (edg_sindex g)) (edge_id (edgePath1 a)) in
    match next_edge (edg m) eID (nextNode2 a) with
    | None => ret (Some a)
    | Some e =>
        ret (Some (mkAttempt
                     (other_end e (nextNode1 a))
                     (nextNode2 a)
                     e
                     (edgePath2 a)
                     (pos_0_deg a ++ [nextNode1 a])
                     (set_discard (pending a) (nextNode1 a))
                     (newEdge a ++ [geometry e])
                     (possibly_delete a ++ [edge_id e])))
    end.

(** One turn of [while deg[nextNode2] == 2]. *)
Definition walk2_step (m : Merge) (a : Attempt) : result (option Attempt) :=
  d <- of_option IndexError (np_get (deg m) (nextNode2 a)) ;;
  if negb (d =? 2) then ret None
  else if mem (nextNode2 a) (pos_0_deg a) then ret None
  else
    g <- of_option KeyError (at_label nodGeom (nextNode2 a)) ;;
    let eID := set_discard (set_of (edg_sindex g)) (edge_id (edgePath2 a)) in
    match next_edge (edg m) eID (nextNode2 a) with
    | None => ret (Some a)
    | Some e =>
        ret (Some (mkAttempt
                     (nextNode1 a)
                     (other_end e (nextNode2 a))
                     (edgePath1 a)
                     e
                     (pos_0_deg a ++ [nextNode2 a])
                     (set_discard (pending a) (nextNode2 a))
                     (newEdge a ++ [geometry e])
                     (possibly_delete a ++ [edge_id e])))
    end.

(** A [while] loop run on fuel. *)
Fixpoint walk (step : Attempt -> result (option Attempt)) (fuel : nat)
    (a : Attempt) : result Attempt :=
  match fuel with
  | O => OutOfFuel
  | Datatypes.S fuel' =>
      r <- step a ;;
      match r with
      | None => ret a
      | Some a' => walk step fuel' a'
      end
  end.

(** [for x in pos_0_deg: deg[x] = 0]. *)
Fixpoint zero_degrees (d : list Z) (xs : list Z) : option (list Z) :=
  match xs with
  | [] => Some d
  | x :: r => match np_set d x 0 with
              | Some d' => zero_degrees d' r
              | None => None
              end
  end.

(** The three writes [edg.at[info_first_edge, ...] = ...]. *)
Definition write_merged (cur : list Edge) (label : Z) (g : Geometry)
    (f t : Z) : result (list Edge) :=
  match at_label cur label with
  | Some row =>
      ret (list_set cur (Z.to_nat label) (set_ends (set_geometry row g) f t))
  | None => Unsupported
  end.

(** The end of an attempt: merge the collected geometries and, when they
    merge to one line string, commit. *)
Definition finish_attempt (print_err : bool) (m : Merge)
    (info_first_edge : Z) (a : Attempt) : result Merge :=
  mls <- multilinestrings (newEdge a) ;;
  let new_merged_geom := line_merge mls in
  if get_type_id new_merged_geom =? 1 then
    edg1 <- write_merged (edg m) info_first_edge new_merged_geom
              (nextNode1 a) (nextNode2 a) ;;
    deg1 <- of_option IndexError (zero_degrees (deg m) (pos_0_deg a)) ;;
    ret (mkMerge deg1 edg1 (pending a) (eIDtoRemove m ++ possibly_delete a))
  else
    (if print_err then
       row <- of_option KeyError (at_label (edg m) info_first_edge) ;;
       say (MsgMergeFailed info_first_edge (get_type_id (geometry row)))
     else ret tt) ;;;
    ret (mkMerge (deg m) (edg m) (pending a) (eIDtoRemove m)).

(** The two edges an attempt starts from: the nearest two when the index
    returns more than two, none when it returns fewer ([continue]), the two
    popped from the set otherwise. *)
Definition choose_paths (m : Merge) (nodeID : Z) : result (option (Edge * Edge)) :=
  node_geometry_ <- of_option KeyError (at_label nodGeom nodeID) ;;
  let eID := set_of (edg_sindex node_geometry_) in
  if (2 <? Z.of_nat (List.length eID)) then
    p <- find_closest_2_edges eID nodeID (edg m) node_geometry_ ;;
    ret (Some p)
  else
    match eID with
    | i1 :: i2 :: _ =>
        e1 <- of_option IndexError (iloc (edg m) i1) ;;
        e2 <- of_option IndexError (iloc (edg m) i2) ;;
        ret (Some (e1, e2))
    | _ => ret None
    end.

(** The attempt as it stands before the two walks. *)
Definition start_attempt (m : Merge) (nodeID : Z) (edgePath1_ edgePath2_ : Edge)
    : Attempt :=
  mkAttempt (other_end edgePath1_ nodeID) (other_end edgePath2_ nodeID)
            edgePath1_ edgePath2_
            [nodeID] (n2 m)
            [geometry edgePath1_; geometry edgePath2_]
            [edge_id edgePath2_].

(** The body of [while n2] for the node [nodeID] just popped; [m] holds
    the pending set after the pop. *)
Definition merge_2_body (print_err : bool) (fuel : nat) (m : Merge)
    (nodeID : Z) : result Merge :=
  paths <- choose_paths m nodeID ;;
  match paths with
  | None => ret m
  | Some (edgePath1_, edgePath2_) =>
      let a0 := start_attempt m nodeID edgePath1_ edgePath2_ in
      if nextNode1 a0 =? nextNode2 a0 then ret m
      else
        let info_first_edge := edge_id edgePath1_ in
        a1 <- walk (walk1_step m) fuel a0 ;;
        a2 <- walk (walk2_step m) fuel a1 ;;
        finish_attempt print_err m info_first_edge a2
  end.

(** [while n2], on fuel. *)
Fixpoint merge_2_loop (print_err : bool) (fuel : nat) (m : Merge)
    : result Merge :=
  match fuel with
  | O => OutOfFuel
  | Datatypes.S fuel' =>
      match n2 m with
      | [] => ret m
      | nodeID :: rest =>
          m1 <- merge_2_body print_err fuel'
                  (mkMerge (deg m) (edg m) rest (eIDtoRemove m)) nodeID ;;
          merge_2_loop print_err fuel' m1
      end
  end.

End Merge2.

Definition merge_2 (fuel : nat) (network : Network) (print_err : bool)
    : result Network :=
  let nod := nodes network in
  let edg0 := edges network in
  let edg_sindex := tree_query_intersects (map geometry edg0) in
  deg0 <- (if has_degree network
           then ret (map degree nod)
           else calculate_degree network) ;;
  let degree2 := np_where (Z.eqb 2) deg0 in
  ids <- of_option IndexError (ilocs (map node_id nod) degree2) ;;
  let nodGeom := map node_geometry nod in
  m <- merge_2_loop nodGeom edg_sindex print_err fuel
         (mkMerge deg0 edg0 (set_of ids) []) ;;
  let edg1 := filter (fun e => negb (mem (edge_id e) (eIDtoRemove m))) (edg m) in
  if has_degree network then
    let nod1 := assign set_degree nod (deg m) in
    ret (mkNetwork (filter (fun n => 0 <? degree n) nod1) true edg1)
  else Raise AttributeError.

(** ** find_roundabouts, clean_roundabouts *)

(** [pygeos.linestrings(coords)]: a line string needs two vertices. *)
Definition linestrings (coords : list Coord) : result Geometry :=
  if (List.length coords <? 2)%nat then Raise ValueError
  else ret (LineString coords).

(** The rows of [find_roundabouts], each with its index label. *)
Definition find_roundabouts (rows : list Feature) : list (Z * Feature) :=
  filter (fun ir => is_ring (feat_geometry (snd ir)))
         (combine (range (List.length rows)) rows).

(** [_intersects_pyg(geom, gdf, sindex)]: the series [gdf[...]] of the
    geometries at the labels the index returns, as (label, geometry)
    pairs in the order of the query. *)
Definition _intersects_pyg (geom : Geometry) (gdf : list Geometry)
    (sindex : Geometry -> list Z) : result (list (Z * Geometry)) :=
  let buf := buffer_or_self geom in
  let labels := sindex buf in
  geoms <- of_option KeyError (all_some (map (at_label gdf) labels)) ;;
  ret (combine labels geoms).

(** [series.drop(label, inplace=True)]: [KeyError] when the label is not
    in the index, otherwise every row with that label goes. *)
Definition series_drop {A} (s : list (Z * A)) (label : Z) : result (list (Z * A)) :=
  if mem label (map fst s)
  then ret (filter (fun p => negb (fst p =? label)) s)
  else Raise KeyError.

(** The centroid spliced onto the end of [coords_of] that is nearer to it,
    the ends being those of [ends_of]. *)
Definition snap_to_centroid (round_centroid : Coord)
    (ends_of coords_of : Geometry) : result Geometry :=
  let start := get_point_first ends_of in
  let end_ := get_point_last ends_of in
  let first_co_is_closer :=
    Qltb (distance start (Point round_centroid))
         (distance end_ (Point round_centroid)) in
  let co_ords := get_coordinates coords_of in
  let centroid_co := [round_centroid] in
  let new_co := if first_co_is_closer then centroid_co ++ co_ords
                else co_ords ++ centroid_co in
  linestrings new_co.

(** [new_edge.pop(a)] for the first entry [a] that carries [osm]; the
    search leaves [a = []] when there is none and [pop] raises. *)
Fixpoint pop_first (osm : Z) (l : list Feature) : option (Feature * list Feature) :=
  match l with
  | [] => None
  | x :: r =>
      if feat_osm_id x =? osm then Some (x, r)
      else match pop_first osm r with
           | Some (y, r') => Some (y, x :: r')
           | None => None
           end
  end.

(** The accumulators of [clean_roundabouts]. *)
Record Snap : Type := mkSnap {
  new_edge : list Feature;
  remove_edge : list Z;
  new_edge_id : list Z
}.

(** The body of [for e in edges_intersect.items()]. *)
Definition snap_step (rows : list Feature) (round_centroid : Coord)
    (e : Z * Geometry) (s : Snap) : result Snap :=
  edge <- of_option IndexError (iloc rows (fst e)) ;;
  snap_line <- snap_to_centroid round_centroid (snd e) (feat_geometry edge) ;;
  new_edge1 <-
    (if mem (feat_osm_id edge) (new_edge_id s) then
       '(double_edge, rest) <-
          of_option TypeError (pop_first (feat_osm_id edge) (new_edge s)) ;;
       snap_line1 <- snap_to_centroid round_centroid
                       (feat_geometry double_edge) (feat_geometry double_edge) ;;
       ret (rest ++ [mkFeature (feat_osm_id edge) (feat_highway edge) snap_line1],
            new_edge_id s)
     else
       ret (new_edge s ++ [mkFeature (feat_osm_id edge) (feat_highway edge) snap_line],
            new_edge_id s ++ [feat_osm_id edge])) ;;
  ret (mkSnap (fst new_edge1) (remove_edge s ++ [fst e]) (snd new_edge1)).

Fixpoint snap_loop (rows : list Feature) (round_centroid : Coord)
    (es : list (Z * Geometry)) (s : Snap) : result Snap :=
  match es with
  | [] => ret s
  | e :: rest =>
      s1 <- snap_step rows round_centroid e s ;;
      snap_loop rows round_centroid rest s1
  end.

(** The body of [for roundabout in roundabouts]. *)
Definition roundabout_step (rows : list Feature) (sindex : Geometry -> list Z)
    (roundabout : Z * Feature) (s : Snap) : result Snap :=
  let round_centroid := centroid (feat_geometry (snd roundabout)) in
  let s1 := mkSnap (new_edge s) (remove_edge s ++ [fst roundabout]) (new_edge_id s) in
  edges_intersect <-
    _intersects_pyg (feat_geometry (snd roundabout))
                    (map feat_geometry rows) sindex ;;
  edges_intersect1 <- series_drop edges_intersect (fst roundabout) ;;
  snap_loop rows round_centroid edges_intersect1 s1.

Fixpoint roundabout_loop (rows : list Feature) (sindex : Geometry -> list Z)
    (rs : list (Z * Feature)) (s : Snap) : result Snap :=
  match rs with
  | [] => ret s
  | r :: rest =>
      s1 <- roundabout_step rows sindex r s ;;
      roundabout_loop rows sindex rest s1
  end.

(** [clean_roundabouts] on the edge table; the node table passes through
    untouched. *)
Definition clean_roundabouts (rows : list Feature) : result (list Feature) :=
  let sindex := tree_query_intersects (map feat_geometry rows) in
  let roundabouts := find_roundabouts rows in
  s <- roundabout_loop rows sindex roundabouts (mkSnap [] [] []) ;;
  let dg := map snd (filter (fun ir => negb (mem (fst ir) (remove_edge s)))
                            (combine (range (List.length rows)) rows)) in
  ret (dg ++ new_edge s).

(** ** nearest_vertex_idx_on_line, add_vertex *)

(** A shapely line string is given by its coordinate sequence, a point by
    its coordinate. *)
Definition nearest_vertex_idx_on_line (point : Coord) (line : list Coord)
    : result nat :=
  r <- of_option ValueError
         (py_min snd (map (fun ic => (fst ic, distance (Point point) (Point (snd ic))))
                          (combine (seq 0 (List.length line)) line))) ;;
  ret (fst r).

(** [list.insert(i, x)]. *)
Definition list_insert {A} (l : list A) (i : nat) (x : A) : list A :=
  firstn i l ++ x :: skipn i l.

Definition add_vertex (line : list Coord) (point : Coord) : result (list Coord) :=
  v_idx <- nearest_vertex_idx_on_line point line ;;
  at_v <- of_option IndexError (nth_error line v_idx) ;;
  if coord_eqb point at_v then ret line
  else
    insert_before_idx <-
      (if (v_idx =? 0)%nat then ret 1%nat
       else if (v_idx =? List.length line - 1)%nat then ret v_idx
       else
         before <- of_option IndexError (nth_error line (v_idx - 1)) ;;
         after <- of_option IndexError (nth_error line (v_idx + 1)) ;;
         let segment_before := LineString [at_v; before] in
         let segment_after := LineString [at_v; after] in
         if Qltb (distance (Point point) segment_before)
                 (distance (Point point) segment_after)
         then ret v_idx
         else ret (v_idx + 1)%nat) ;;
    ret (list_insert line insert_before_idx point).

(** ** The passes around the topology: splitting, endpoints, ids *)

(** The table pair before [add_ids]: node rows hold a geometry only. *)
Record RawNetwork : Type := mkRaw {
  raw_nodes : list Geometry;
  raw_edges : list Feature
}.

(** [np.isin(coor_geom, split_points).all(axis=1)]: both scalars of the
    vertex occur among the scalars of the split points. *)
Definition scalar_in (q : Q) (pts : list Coord) : bool :=
  existsb (fun c => Qeq_bool q (fst c) || Qeq_bool q (snd c)) pts.

Definition split_locs (coor_geom split_points : list Coord) : list nat :=
  map fst (filter (fun ic => scalar_in (fst (snd ic)) split_points
                             && scalar_in (snd (snd ic)) split_points)
                  (combine (seq 0 (List.length coor_geom)) coor_geom)).

(** [zip(l, l[1:])]. *)
Fixpoint consecutive {A} (l : list A) : list (A * A) :=
  match l with
  | a :: ((b :: _) as r) => (a, b) :: consecutive r
  | _ => []
  end.

(** [coor_geom[a:b+1]]. *)
Definition slice {A} (l : list A) (a b : nat) : list A :=
  firstn (b + 1 - a) (skipn a l).

Fixpoint split_pieces (edge : Feature) (pieces : list (list Coord))
    : result (list Feature) :=
  match pieces with
  | [] => ret []
  | cs :: rest =>
      g <- linestrings cs ;;
      r <- split_pieces edge rest ;;
      ret (mkFeature (feat_osm_id edge) (feat_highway edge) g :: r)
  end.

Fixpoint split_loop (all_geoms : list Geometry) (rows : list Feature)
    : result (list Feature) :=
  match rows with
  | [] => ret []
  | edge :: rest =>
      let split_points := split_points_of all_geoms (feat_geometry edge) in
      let coor_geom := get_coordinates (feat_geometry edge) in
      let locs := consecutive (split_locs coor_geom split_points) in
      let new_edges := map (fun ab => slice coor_geom (fst ab) (snd ab)) locs in
      here <- split_pieces edge new_edges ;;
      r <- split_loop all_geoms rest ;;
      ret (here ++ r)
  end.

Definition split_edges_at_nodes_pyg (network : RawNetwork) : result RawNetwork :=
  es <- split_loop (map feat_geometry (raw_edges network)) (raw_edges network) ;;
  ret (mkRaw (raw_nodes network) es).

(** [get_endpoints]: the test [get_type_id(...) == '5'] compares an integer
    with a string and never holds, so every non-missing geometry goes
    through [line_endpoints]. *)
Definition get_endpoints (network : RawNetwork) : list Geometry :=
  flat_map (fun edge =>
              match feat_geometry edge with
              | Missing => []
              | g => let (start, end_) := line_endpoints g in [start; end_]
              end)
           (raw_edges network).

(** Equality of the well-known-binary encodings. *)
Fixpoint coords_eqb (a b : list Coord) : bool :=
  match a, b with
  | [], [] => true
  | x :: a', y :: b' => coord_eqb x y && coords_eqb a' b'
  | _, _ => false
  end.

Fixpoint parts_eqb (a b : list (list Coord)) : bool :=
  match a, b with
  | [], [] => true
  | x :: a', y :: b' => coords_eqb x y && parts_eqb a' b'
  | _, _ => false
  end.

Definition wkb_eqb (a b : Geometry) : bool :=
  match a, b with
  | Missing, Missing => true
  | Point c, Point d => coord_eqb c d
  | LineString c, LineString d => coords_eqb c d
  | MultiLineString c, MultiLineString d => parts_eqb c d
  | _, _ => false
  end.

(** [drop_duplicate_geometries(gdf, keep='first')]. *)
Fixpoint drop_duplicate_geometries_from (seen rows : list Geometry) : list Geometry :=
  match rows with
  | [] => []
  | g :: rest =>
      if existsb (wkb_eqb g) seen then drop_duplicate_geometries_from seen rest
      else g :: drop_duplicate_geometries_from (seen ++ [g]) rest
  end.

Definition concat_dedup (dfs : list (list Geometry)) : list Geometry :=
  drop_duplicate_geometries_from [] (List.concat dfs).

Definition add_endpoints (network : RawNetwork) : RawNetwork :=
  let endpoints := get_endpoints network in
  mkRaw (concat_dedup [raw_nodes network; endpoints]) (raw_edges network).

(** [add_ids] on the raw tables: the [id] columns appear here; [from_id],
    [to_id] and [degree] do not exist yet, their fields hold [0] until
    [add_topology] and [drop_hanging_nodes] write the columns. *)
Definition add_ids (network : RawNetwork) : Network :=
  mkNetwork
    (map (fun ig => mkNode (fst ig) (snd ig) 0)
         (combine (range (List.length (raw_nodes network))) (raw_nodes network)))
    false
    (map (fun ie => mkEdge (fst ie) 0 0 (feat_osm_id (snd ie))
                           (feat_highway (snd ie)) (feat_geometry (snd ie)))
         (combine (range (List.length (raw_edges network))) (raw_edges network))).

(** ** The passes after the contraction *)

(** [add_distances]: the [distance] column it adds is a float the embedding
    does not carry; what remains is whether the call returns. *)
Definition add_distances (network : Network) : result Network :=
  first <- of_option IndexError (iloc (map node_geometry (nodes network)) 0) ;;
  if can_measure first (map geometry (edges network))
  then ret network
  else Raise CRSError.

(** The module's own [line_merge(x)]: the kernel's line merge when
    [get_type_id(x) == '5'] holds, [x] otherwise.  The left operand is the
    integer type id, the right one a string literal. *)
Definition line_merge_ (x : Geometry) : Geometry :=
  if py_eq (PyInt (get_type_id x)) (PyStr "5") then line_merge x else x.

Definition merge_all_multi (network : Network) : Network :=
  mkNetwork (nodes network) (has_degree network)
            (map (fun e => set_geometry e (line_merge_ (geometry e)))
                 (edges network)).

(** [logicCheck] only prints; it raises where [max] meets an empty column
    or the [degree] column is missing. *)
Definition logicCheck (net : Network) : result unit :=
  max_from <- of_option ValueError (py_max (map from_id (edges net))) ;;
  max_node <- of_option ValueError (py_max (map node_id (nodes net))) ;;
  max_to <- of_option ValueError (py_max (map to_id (edges net))) ;;
  (if (max_from >? max_node) || (max_to >? max_node)
   then say (MsgOutOfIndex max_node max_from max_to) else ret tt) ;;;
  (if has_degree net then ret tt else Raise KeyError) ;;;
  let cur_deg := map degree (nodes net) in
  match calculate_degree net with
  | Ok cal_deg out =>
      Ok tt out ;;;
      (if list_eq_dec Z.eq_dec cur_deg cal_deg then ret tt
       else say MsgDegreeMismatch) ;;;
      say MsgGeopackage
  | _ =>
      say MsgDegreeNotCalculated ;;;
      say MsgDegreeMismatch ;;;
      say MsgGeopackage
  end.

(** [pygeos.get_num_geometries]. *)
Definition get_num_geometries (g : Geometry) : Z :=
  match g with
  | Missing => 0
  | Point _ => 1
  | LineString _ => 1
  | MultiLineString parts => Z.of_nat (List.length parts)
  end.

Fixpoint quickFix_loop (node_ids : list Z) (rows : list Edge) (rem : list Z)
    : result (list Z) :=
  match rows with
  | [] => ret rem
  | edge :: rest =>
      rem1 <- (if negb (get_num_geometries (geometry edge) =? 1)
               then say (MsgMultipleGeometries (edge_id edge)) ;;;
                    ret (rem ++ [edge_id edge])
               else ret rem) ;;
      m <- of_option ValueError (py_max node_ids) ;;
      let rem2 := if (from_id edge >? m) || (to_id edge >? m)
                  then rem1 ++ [edge_id edge] else rem1 in
      quickFix_loop node_ids rest rem2
  end.

Definition quickFix (net : Network) : result Network :=
  rem <- quickFix_loop (map node_id (nodes net)) (edges net) [] ;;
  let kept := filter (fun e => negb (mem (edge_id e) rem)) (edges net) in
  ret (mkNetwork (nodes net) (has_degree net)
                 (assign set_edge_id kept (range (List.length kept)))).

(** [speed_d]. *)
Definition speed_d : list (string * Z) :=
  [("motorway", 80000); ("motorway_link", 65000); ("trunk", 60000);
   ("trunk_link", 50000); ("primary", 50000); ("primary_link", 40000);
   ("secondary", 40000); ("secondary_link", 30000); ("tertiary", 30000);
   ("tertiary_link", 20000); ("unclassified", 20000);
   ("residential", 20000)]%string.

Definition speed_get (h : string) : option Z :=
  match find (fun kv => String.eqb (fst kv) h) speed_d with
  | Some kv => Some (snd kv)
  | None => None
  end.

(** [add_travel_time]: the [time] column is a float the embedding does not
    carry; dividing by the [None] of an unlisted road class raises. *)
Definition add_travel_time (network : Network) : result Network :=
  network1 <- add_distances network ;;
  if forallb (fun e => match speed_get (highway e) with
                       | Some _ => true | None => false end)
             (edges network1)
  then ret network1
  else Raise TypeError.

(** ** simplify_network_from_gdf *)

Definition simplify_network_from_gdf (fuel : nat) (gdf : list Feature)
    : result Network :=
  let net := mkRaw [] gdf in
  es <- clean_roundabouts (raw_edges net) ;;
  let net := mkRaw (raw_nodes net) es in
  net <- split_edges_at_nodes_pyg net ;;
  let net := add_endpoints net in
  let net := add_ids net in
  net <- add_topology net ;;
  net <- drop_hanging_nodes net (1 # 200) ;;
  net <- merge_2 fuel net false ;;
  let net := reset_ids net in
  net <- add_distances net ;;
  let net := merge_all_multi net in
  logicCheck net ;;;
  net <- quickFix net ;;
  add_travel_time net.

End Passes.

(** ** node_connectivity_degree, add_degree *)

(** [node_connectivity_degree(node, network)]: the number of edge rows
    that name [node] as their [from_id] or as their [to_id]. *)
Definition node_connectivity_degree (node : Z) (network : Network) : Z :=
  Z.of_nat (List.length
    (filter (fun e => (from_id e =? node) || (to_id e =? node))
            (edges network))).

(** [add_degree] writes the array of [calculate_degree] into the [degree]
    column of the node table, in place, and returns nothing; the embedding
    returns the network the caller holds afterwards.  pandas refuses a
    column whose length is not that of the table with [ValueError]; on a
    table without rows it takes its rows from the column instead, an
    enlargement the embedding does not follow. *)
Definition add_degree (network : Network) : result Network :=
  degree_ <- calculate_degree network ;;
  if Nat.eqb (List.length degree_) (List.length (nodes network))
  then ret (mkNetwork (assign set_degree (nodes network) degree_) true
                      (edges network))
  else match nodes network with
       | [] => Unsupported
       | _ :: _ => Raise ValueError
       end.

(** ** snap_line *)

(** The [points] argument of [snap_line]: a shapely [Point], a
    [MultiPoint], or a geometry of any other type. *)
Inductive Points : Type :=
| OnePoint (c : Coord)
| MultiPoint (cs : list Coord)
| OtherGeometry.

Section Snapping.
Context {G : GeometryLib}.

(** [for point in points: line = add_vertex(line, point)]. *)
Fixpoint add_vertices (line : list Coord) (points : list Coord)
    : result (list Coord) :=
  match points with
  | [] => ret line
  | point :: rest =>
      line1 <- add_vertex line point ;;
      add_vertices line1 rest
  end.

(** [snap_line]: the points within [tolerance] of the line as it is given
    become vertices of it, one after the other. *)
Definition snap_line (line : list Coord) (points : Points) (tolerance : Q)
    : result (list Coord) :=
  match points with
  | OnePoint p =>
      if Qltb (distance (Point p) (LineString line)) tolerance
      then add_vertex line p
      else ret line
  | MultiPoint ps =>
      add_vertices line
        (filter (fun point =>
                   Qltb (distance (Point point) (LineString line)) tolerance)
                ps)
  | OtherGeometry => ret line
  end.

End Snapping.
(** * Vocabulary of the statements *)

(** The number of entries of [x] equal to [i]. *)
Definition count (x : list Z) (i : Z) : Z :=
  Z.of_nat (count_occ Z.eq_dec x i).

(** The degree of node [i] as the specification defines it. *)
Definition degree_of (es : list Edge) (i : Z) : Z :=
  count (map from_id es) i + count (map to_id es) i.

(** Every reference of an edge is a position of a node table of [n]
    rows. *)
Definition valid_ends (n : nat) (es : list Edge) : Prop :=
  forall e, In e es ->
    0 <= from_id e < Z.of_nat n /\ 0 <= to_id e < Z.of_nat n.

(** The new value of a reference [x] under the dictionary [d]: its image,
    or [x] itself when [d] has no entry for it. *)
Definition renumber (d : list (Z * Z)) (x : Z) : Z :=
  match dict_get d x with Some v => v | None => x end.

(** The insertions of [dict(zip(...))], started from the dictionary [d]. *)
Definition dict_fold (l : list (Z * Z)) (d : list (Z * Z)) : list (Z * Z) :=
  fold_left (fun d kv => dict_set d (fst kv) (snd kv)) l d.

(** The old-to-new node id map that [reset_ids] builds. *)
Definition id_dict_of (network : Network) : list (Z * Z) :=
  dict_zip (map node_id (nodes network))
           (range (List.length (nodes network))).

(** Every reference of an edge is the id of some node. *)
Definition references_resolve (nds : list Node) (es : list Edge) : Prop :=
  forall e, In e es ->
    In (from_id e) (map node_id nds) /\ In (to_id e) (map node_id nds).

(** The reference [old] has become [new]: [new] is the image of [old]
    under the id map, it is the row of a node that carried [old] as its id,
    and that row of the output is this very node with the id [new]. *)
Definition reference_renumbered (network out : Network) (old new : Z) : Prop :=
  dict_get (id_dict_of network) old = Some new /\
  exists nd,
    at_label (nodes network) new = Some nd /\
    node_id nd = old /\
    at_label (nodes out) new = Some (set_node_id nd new).

(** No reference of an edge is negative. *)
Definition nonneg_ends (es : list Edge) : Prop :=
  forall e, In e es -> 0 <= from_id e /\ 0 <= to_id e.

(** The frontier nodes of an attempt are not negative. *)
Definition nonneg_frontier (a : Attempt) : Prop :=
  0 <= nextNode1 a /\ 0 <= nextNode2 a.

Section TopologyVocabulary.
Context {G : GeometryLib}.

(** The node an endpoint resolves to in [add_topology], if any. *)
Definition resolves (nds : list Node) (endpoint : Geometry) : option Node :=
  attempt (nearest_node endpoint nds (tree_query (map node_geometry nds))).

Definition from_node (nds : list Node) (e : Edge) : option Node :=
  resolves nds (fst (line_endpoints (geometry e))).

Definition to_node (nds : list Node) (e : Edge) : option Node :=
  resolves nds (snd (line_endpoints (geometry e))).

(** The id written for an endpoint: that of the node, or -1. *)
Definition id_or_minus_one (o : option Node) : Z :=
  match o with Some n => node_id n | None => -1 end.

(** What one edge adds to [bugs]: its id once per endpoint that fails. *)
Definition endpoint_failures (nds : list Node) (e : Edge) : list Z :=
  (match from_node nds e with Some _ => [] | None => [edge_id e] end)
  ++ (match to_node nds e with Some _ => [] | None => [edge_id e] end).

(** An edge is defective when at least one endpoint fails to resolve. *)
Definition defective (nds : list Node) (e : Edge) : bool :=
  match from_node nds e, to_node nds e with
  | Some _, Some _ => false
  | _, _ => true
  end.

(** The edge as [add_topology] rewrites it. *)
Definition with_topology (nds : list Node) (e : Edge) : Edge :=
  set_ends e (id_or_minus_one (from_node nds e))
             (id_or_minus_one (to_node nds e)).

End TopologyVocabulary.

(** Every reference of an edge of the network is the id of one of its
    nodes. *)
Definition closed_references (network : Network) : Prop :=
  references_resolve (nodes network) (edges network).

Section RoundaboutVocabulary.
Context {G : GeometryLib}.

(** A coordinate sequence is closed when its first and last vertices have
    the same coordinates. *)
Definition closedb (cs : list Coord) : bool :=
  match cs with
  | [] => false
  | c :: r => coord_eqb c (List.last r c)
  end.

(** The coordinates of an external edge with the centroid [c] spliced onto
    the end that is nearer to it: in front when the first vertex is strictly
    nearer than the last, behind otherwise. *)
Definition spliced (c : Coord) (cs : list Coord) : list Coord :=
  match cs with
  | [] => [c]
  | s :: r =>
      if Qltb (distance (Point s) (Point c))
              (distance (Point (List.last r s)) (Point c))
      then c :: cs
      else cs ++ [c]
  end.

(** The row [clean_roundabouts] writes for a touched edge. *)
Definition rerouted (c : Coord) (e : Feature) : Feature :=
  mkFeature (feat_osm_id e) (feat_highway e)
            (LineString (spliced c (get_coordinates (feat_geometry e)))).

(** The rows at the positions outside [removed], in row order. *)
Definition rows_outside (removed : list Z) (rows : list Feature) : list Feature :=
  map snd (filter (fun ir => negb (mem (fst ir) removed))
                  (combine (range (List.length rows)) rows)).

(** The labels the index returns for the ring [ring], the ring's own
    label [r] left out. *)
Definition touching (rows : list Feature) (r : Z) (ring : Feature) : list Z :=
  filter (fun l => negb (l =? r))
         (tree_query_intersects (map feat_geometry rows)
                                (buffer_or_self (feat_geometry ring))).

(** The laws of the kernel the statement about rings rests on: a ring is
    closed, nothing is nearer to a place than a point at that place, and
    only a point at that place is as near. *)
Definition ring_is_closed : Prop :=
  forall g, is_ring g = true -> closedb (get_coordinates g) = true.

Definition nothing_nearer : Prop :=
  forall a b p, coord_eqb a b = true ->
    Qltb (distance (Point p) (Point b)) (distance (Point a) (Point b)) = false.

Definition only_self_nearest : Prop :=
  forall a b c, coord_eqb a c = true ->
    Qltb (distance (Point a) (Point c)) (distance (Point b) (Point c)) = false ->
    coord_eqb b c = true.

End RoundaboutVocabulary.

(** The call stays within the pandas behaviour the embedding follows. *)
Definition supported {A} (r : result A) : Prop := r <> Unsupported.

(** The edge ids are the row positions. *)
Definition ids_are_positions (es : list Edge) : Prop :=
  map edge_id es = range (List.length es).

(** ** Vocabulary of the further statements *)

(** [l] is [l'] with some entries left out, the others in their order. *)
Inductive subsequence {A : Type} : list A -> list A -> Prop :=
| subsequence_nil : subsequence [] []
| subsequence_skip (x : A) (l l' : list A) :
    subsequence l l' -> subsequence l (x :: l')
| subsequence_keep (x : A) (l l' : list A) :
    subsequence l l' -> subsequence (x :: l) (x :: l').

(** The edge has one geometry and no reference above [m]. *)
Definition sound_edge (m : Z) (e : Edge) : bool :=
  (get_num_geometries (geometry e) =? 1)
  && (from_id e <=? m) && (to_id e <=? m).

(** The edge has no geometry or more than one. *)
Definition multiple (e : Edge) : bool :=
  negb (get_num_geometries (geometry e) =? 1).

(** The sum of an array. *)
Definition total (a : list Z) : Z := fold_right Z.add 0 a.

(** The number of edges that start and end at node [i]. *)
Definition self_loops (es : list Edge) (i : Z) : Z :=
  Z.of_nat (List.length
    (filter (fun e => (from_id e =? i) && (to_id e =? i)) es)).

(** The position [i] of the degree array holds degree 1. *)
Definition hangs (deg : list Z) (i : Z) : bool :=
  match at_label deg i with
  | Some d => d =? 1
  | None => false
  end.

(** The columns of an edge that [merge_2] never writes. *)
Definition attributes (e : Edge) : Z * Z * string :=
  (edge_id e, osm_id e, highway e).

(** What one edge adds to the removal list of [quickFix] under the largest
    node id [m]: its id once when it has not exactly one geometry, and once
    when a reference exceeds [m]. *)
Definition marks (m : Z) (e : Edge) : list Z :=
  (if multiple e then [edge_id e] else [])
  ++ (if (from_id e >? m) || (to_id e >? m) then [edge_id e] else []).


(** The degree array [drop_hanging_nodes] and [merge_2] start from: the
    [degree] column when the node table has one, the count of
    [calculate_degree] otherwise. *)
Definition initial_degrees (network : Network) : result (list Z) :=
  if has_degree network
  then ret (map degree (nodes network))
  else calculate_degree network.

(** The edge row [e] is the row [e0] as [merge_2] may leave it: the same
    row, or the row with a merged line string for its geometry and new
    references, its id, [osm_id] and [highway] kept. *)
Definition merged_from (e0 e : Edge) : Prop :=
  attributes e = attributes e0 /\
  (e = e0 \/ get_type_id (geometry e) = 1).

(** The points of the argument of [snap_line] that lie within the
    tolerance of the line. *)
Definition within_tolerance {G : GeometryLib} (line : list Coord)
    (points : Points) (tolerance : Q) : list Coord :=
  let near := fun p => Qltb (distance (Point p) (LineString line)) tolerance in
  match points with
  | OnePoint p => if near p then [p] else []
  | MultiPoint ps => filter near ps
  | OtherGeometry => []
  end.

Section SplitVocabulary.
Context {G : GeometryLib}.

(** The positions at which [split_edges_at_nodes_pyg] cuts the edge [e] of
    a table with the geometries [all]. *)
Definition cut_positions (all : list Geometry) (e : Feature) : list nat :=
  split_locs (get_coordinates (feat_geometry e))
             (split_points_of all (feat_geometry e)).

(** The piece of [e] from its vertex [a] to its vertex [b]. *)
Definition piece (e : Feature) (a b : nat) : Feature :=
  mkFeature (feat_osm_id e) (feat_highway e)
            (LineString (slice (get_coordinates (feat_geometry e)) a b)).

End SplitVocabulary.

(** * A planar geometry kernel for the examples

    A small exact kernel over rational coordinates, enough to run the passes
    on concrete networks: distances are squared Euclidean distances (the
    module only compares distances), lengths are exact on axis-parallel
    lines, the 1e-9 buffer of [_intersects_pyg] is ignored, a line string
    counts as a ring when it is closed and has at least four vertices, and a
    set of small integers iterates in ascending order, as CPython's does. *)
Module Planar.

Definition pt (x y : Z) : Coord := (inject_Z x, inject_Z y).

Definition qmin (a b : Q) : Q := if Qle_bool a b then a else b.
Definition qmax (a b : Q) : Q := if Qle_bool a b then b else a.
Definition qabs (a : Q) : Q := if Qle_bool 0 a then a else Qopp a.

Definition sq_dist (a b : Coord) : Q :=
  let dx := (fst a - fst b)%Q in
  let dy := (snd a - snd b)%Q in
  (dx * dx + dy * dy)%Q.

Definition sq_dist_segment (p a b : Coord) : Q :=
  let dx := (fst b - fst a)%Q in
  let dy := (snd b - snd a)%Q in
  let len2 := (dx * dx + dy * dy)%Q in
  if Qeq_bool len2 0 then sq_dist p a
  else
    let t := (((fst p - fst a) * dx + (snd p - snd a) * dy) / len2)%Q in
    let t := qmax 0 (qmin 1 t) in
    sq_dist p ((fst a + t * dx)%Q, (snd a + t * dy)%Q).

(** The segments of a coordinate sequence. *)
Definition segments (cs : list Coord) : list (Coord * Coord) := consecutive cs.

Definition sq_dist_line (p : Coord) (cs : list Coord) : Q :=
  match cs with
  | [] => 0%Q
  | [a] => sq_dist p a
  | a :: b :: _ =>
      fold_left (fun d s => qmin d (sq_dist_segment p (fst s) (snd s)))
                (segments cs) (sq_dist_segment p a b)
  end.

Definition planar_distance (g h : Geometry) : Q :=
  match g, h with
  | Point p, Point q => sq_dist p q
  | Point p, LineString cs => sq_dist_line p cs
  | LineString cs, Point p => sq_dist_line p cs
  | _, _ => 0%Q
  end.

Definition manhattan (a b : Coord) : Q :=
  (qabs (fst a - fst b) + qabs (snd a - snd b))%Q.

Definition line_length (cs : list Coord) : Q :=
  fold_left (fun acc s => (acc + manhattan (fst s) (snd s))%Q) (segments cs) 0%Q.

Definition planar_length (g : Geometry) : Q :=
  match g with
  | LineString cs => line_length cs
  | MultiLineString parts =>
      fold_left (fun acc cs => (acc + line_length cs)%Q) parts 0%Q
  | _ => 0%Q
  end.

(** The centroid of a line: the midpoints of its segments weighted by
    their lengths. *)
Definition planar_centroid (g : Geometry) : Coord :=
  match g with
  | Point c => c
  | LineString cs =>
      let total := line_length cs in
      let sx := fold_left (fun acc s =>
                  (acc + manhattan (fst s) (snd s)
                         * ((fst (fst s) + fst (snd s)) / 2))%Q)
                  (segments cs) 0%Q in
      let sy := fold_left (fun acc s =>
                  (acc + manhattan (fst s) (snd s)
                         * ((snd (fst s) + snd (snd s)) / 2))%Q)
                  (segments cs) 0%Q in
      if Qeq_bool total 0 then List.hd (0%Q, 0%Q) cs
      else (Qred (sx / total), Qred (sy / total))
  | _ => (0%Q, 0%Q)
  end.

Definition planar_is_ring (g : Geometry) : bool :=
  match g with
  | LineString (c :: cs) =>
      (3 <=? List.length cs)%nat && coord_eqb c (List.last cs c)
  | _ => false
  end.

Definition on_segment (p a b : Coord) : bool :=
  Qeq_bool (sq_dist_segment p a b) 0.

Definition point_on_line (p : Coord) (cs : list Coord) : bool :=
  match cs with
  | [a] => coord_eqb p a
  | _ => existsb (fun s => on_segment p (fst s) (snd s)) (segments cs)
  end.

Definition orient (a b c : Coord) : Q :=
  ((fst b - fst a) * (snd c - snd a) - (snd b - snd a) * (fst c - fst a))%Q.

Definition segments_meet (s t : Coord * Coord) : bool :=
  let (a, b) := s in
  let (c, d) := t in
  (Qltb (orient a b c * orient a b d) 0 && Qltb (orient c d a * orient c d b) 0)
  || on_segment c a b || on_segment d a b
  || on_segment a c d || on_segment b c d.

Definition planar_intersects (g h : Geometry) : bool :=
  match g, h with
  | Point p, Point q => coord_eqb p q
  | Point p, LineString cs => point_on_line p cs
  | LineString cs, Point p => point_on_line p cs
  | LineString cs, LineString ds =>
      existsb (fun s => existsb (segments_meet s) (segments ds)) (segments cs)
  | _, _ => false
  end.

(** The extent of a geometry, [None] for one without coordinates. *)
Definition extent (g : Geometry) : option (Q * Q * Q * Q) :=
  match get_coordinates g with
  | [] => None
  | c :: cs =>
      Some (fold_left (fun b p =>
              let '(x0, y0, x1, y1) := b in
              (qmin x0 (fst p), qmin y0 (snd p), qmax x1 (fst p), qmax y1 (snd p)))
              cs (fst c, snd c, fst c, snd c))
  end.

Definition extents_meet (g h : Geometry) : bool :=
  match extent g, extent h with
  | Some (x0, y0, x1, y1), Some (u0, v0, u1, v1) =>
      Qle_bool x0 u1 && Qle_bool u0 x1 && Qle_bool y0 v1 && Qle_bool v0 y1
  | _, _ => false
  end.

(** The positions of [gs] that satisfy [p], in ascending order. *)
Definition positions (p : Geometry -> bool) (gs : list Geometry) : list Z :=
  map fst (filter (fun ig => p (snd ig)) (combine (range (List.length gs)) gs)).

Definition planar_query (gs : list Geometry) (g : Geometry) : list Z :=
  positions (fun h => extents_meet h g) gs.

Definition planar_query_intersects (gs : list Geometry) (g : Geometry) : list Z :=
  positions (fun h => planar_intersects h g) gs.

(** Line merging: grow a chain from the first part by attaching, at either
    end, any part that shares the end vertex. *)
Definition attach (cur part : list Coord) : option (list Coord) :=
  match cur, part with
  | c0 :: _, p0 :: _ =>
      let cl := List.last cur c0 in
      let pl := List.last part p0 in
      if coord_eqb cl p0 then Some (cur ++ List.tl part)
      else if coord_eqb cl pl then Some (cur ++ List.tl (rev part))
      else if coord_eqb c0 pl then Some (part ++ List.tl cur)
      else if coord_eqb c0 p0 then Some (rev part ++ List.tl cur)
      else None
  | _, _ => None
  end.

Fixpoint sweep (cur : list Coord) (todo skipped : list (list Coord))
    : list Coord * list (list Coord) :=
  match todo with
  | [] => (cur, skipped)
  | part :: rest =>
      match attach cur part with
      | Some cur' => sweep cur' rest skipped
      | None => sweep cur rest (skipped ++ [part])
      end
  end.

Fixpoint chain (fuel : nat) (cur : list Coord) (todo : list (list Coord))
    : list Coord * list (list Coord) :=
  match fuel with
  | O => (cur, todo)
  | Datatypes.S fuel' =>
      let (cur', rest) := sweep cur todo [] in
      if (List.length rest <? List.length todo)%nat
      then chain fuel' cur' rest
      else (cur', rest)
  end.

Definition planar_line_merge (g : Geometry) : Geometry :=
  match g with
  | MultiLineString (p :: ps) =>
      let (cur, rest) := chain (List.length ps) p ps in
      match rest with
      | [] => LineString cur
      | _ => MultiLineString (cur :: rest)
      end
  | _ => g
  end.

(** The split points of an edge: its vertices that lie on another edge. *)
Definition planar_split_points (all : list Geometry) (g : Geometry) : list Coord :=
  filter (fun c => existsb (fun h => negb (wkb_eqb h g)
                                     && planar_intersects (Point c) h) all)
         (get_coordinates g).

Lemma range_nodup (n : nat) : NoDup (range n).
Proof.
  unfold range. apply Injective_map_NoDup; [| apply seq_NoDup].
  intros a b H. lia.
Qed.

Lemma positions_in p gs i :
  In i (positions p gs) -> 0 <= i < Z.of_nat (List.length gs).
Proof.
  unfold positions. intros H. apply in_map_iff in H as [[j g] [<- Hin]].
  apply filter_In in Hin as [Hin _]. apply in_combine_l in Hin.
  unfold range in Hin. apply in_map_iff in Hin as [k [<- Hk]].
  apply in_seq in Hk. simpl. lia.
Qed.

Lemma combine_fst_nodup {A B} (l : list A) (l' : list B) :
  NoDup l -> NoDup (map fst (combine l l')).
Proof.
  revert l'. induction l as [|a l IH]; intros [|b l'] H; simpl;
    try constructor.
  - inversion H; subst. intros Hin. apply in_map_iff in Hin as [[x y] [Hx Hin]].
    simpl in Hx. subst x. apply in_combine_l in Hin. contradiction.
  - inversion H; subst. now apply IH.
Qed.

Lemma filter_fst_nodup {A B} (f : A * B -> bool) (l : list (A * B)) :
  NoDup (map fst l) -> NoDup (map fst (filter f l)).
Proof.
  induction l as [|x l IH]; simpl; intros H; [constructor |].
  inversion H; subst. destruct (f x); simpl; [| now apply IH].
  constructor; [| now apply IH].
  intros Hin. apply in_map_iff in Hin as [y [Hy Hin]].
  apply filter_In in Hin as [Hin _].
  match goal with Hn : ~ In _ _ |- _ => apply Hn end.
  rewrite <- Hy. now apply in_map.
Qed.

Lemma positions_nodup p gs : NoDup (positions p gs).
Proof.
  unfold positions. apply filter_fst_nodup, combine_fst_nodup, range_nodup.
Qed.

Definition kernel : GeometryLib := {|
  distance := planar_distance;
  geom_length := planar_length;
  centroid := planar_centroid;
  is_ring := planar_is_ring;
  line_merge := planar_line_merge;
  tree_query := planar_query;
  tree_query_intersects := planar_query_intersects;
  tree_query_positions := fun gs g => positions_in _ gs;
  tree_query_intersects_positions := fun gs g => positions_in _ gs;
  tree_query_intersects_nodup := fun gs g => positions_nodup _ gs;
  buffer_or_self := fun g => g;
  split_points_of := planar_split_points;
  can_measure := fun _ _ => true
|}.

(** Ascending order without repetition. *)
Definition ascending (l : list Z) : list Z := np_sort (nodup Z.eq_dec l).

Lemma insert_sorted_in x l y : In y (insert_sorted x l) <-> y = x \/ In y l.
Proof.
  induction l as [|z l IH]; simpl; [intuition |].
  destruct (x <=? z); simpl; [intuition | rewrite IH; intuition].
Qed.

Lemma np_sort_in l y : In y (np_sort l) <-> In y l.
Proof.
  induction l as [|x l IH]; simpl; [tauto |].
  rewrite insert_sorted_in, IH. intuition.
Qed.

Lemma insert_sorted_nodup x l :
  ~ In x l -> NoDup l -> NoDup (insert_sorted x l).
Proof.
  induction l as [|z l IH]; simpl; intros Hx Hl.
  - constructor; [intros [] | constructor].
  - destruct (x <=? z).
    + constructor; [exact Hx | exact Hl].
    + inversion Hl; subst. constructor.
      * rewrite insert_sorted_in. intros [-> | Hin]; [apply Hx; now left | contradiction].
      * apply IH; [intros Hin; apply Hx; now right | assumption].
Qed.

Lemma np_sort_nodup l : NoDup l -> NoDup (np_sort l).
Proof.
  induction l as [|x l IH]; simpl; intros H; [constructor |].
  inversion H; subst. apply insert_sorted_nodup; [| now apply IH].
  now rewrite np_sort_in.
Qed.

Lemma ascending_members l x : In x (ascending l) <-> In x l.
Proof. unfold ascending. now rewrite np_sort_in, nodup_In. Qed.

Lemma ascending_nodup l : NoDup (ascending l).
Proof. unfold ascending. apply np_sort_nodup, NoDup_nodup. Qed.

Definition sets : SetOrder := {|
  set_of := ascending;
  set_of_members := ascending_members;
  set_of_nodup := ascending_nodup
|}.

End Planar.

(** * Example networks *)
Module Examples.
Import Planar.

(** One node and an edge table without rows. *)
Definition lonely : Network :=
  mkNetwork [mkNode 0 (Point (pt 0 0)) 0] false [].

(** Three nodes on a line and the two edges between them. *)
Definition path3 : Network :=
  mkNetwork
    [mkNode 0 (Point (pt 0 0)) 0; mkNode 1 (Point (pt 1 0)) 0;
     mkNode 2 (Point (pt 2 0)) 0]
    false
    [mkEdge 0 0 1 7 "primary" (LineString [pt 0 0; pt 1 0]);
     mkEdge 1 1 2 8 "primary" (LineString [pt 1 0; pt 2 0])].

(** The same path with ids that are not row numbers. *)
Definition path3_sparse : Network :=
  mkNetwork
    [mkNode 10 (Point (pt 0 0)) 1; mkNode 30 (Point (pt 1 0)) 2;
     mkNode 20 (Point (pt 2 0)) 1]
    true
    [mkEdge 5 10 30 7 "primary" (LineString [pt 0 0; pt 1 0]);
     mkEdge 9 30 20 8 "primary" (LineString [pt 1 0; pt 2 0])].

(** An edge far from the only node: neither endpoint resolves. *)
Definition unresolved : Network :=
  mkNetwork [mkNode 0 (Point (pt 5 5)) 0] false
    [mkEdge 0 0 0 7 "primary" (LineString [pt 0 0; pt 1 0])].

(** An isolated segment of length 1/1000, below the default tolerance
    1/200 of [drop_hanging_nodes]. *)
Definition isolated_stub : Network :=
  mkNetwork
    [mkNode 0 (Point (0, 0)%Q) 0; mkNode 1 (Point (1 # 1000, 0)%Q) 0]
    false
    [mkEdge 0 0 1 7 "residential"
       (LineString [(0, 0)%Q; (1 # 1000, 0)%Q])].

(** Node 1 carries degree 2 (edges 0 and 2 reference it), but the geometry
    of edge 2 starts a thousandth off the node, so the index finds only
    edge 0 at node 1. *)
Definition off_node : Network :=
  mkNetwork
    [mkNode 0 (Point (pt 0 0)) 2; mkNode 1 (Point (pt 1 0)) 2;
     mkNode 2 (Point (pt 0 1)) 1; mkNode 3 (Point (pt 2 0)) 1]
    true
    [mkEdge 0 0 1 7 "primary" (LineString [pt 0 0; pt 1 0]);
     mkEdge 1 0 2 8 "primary" (LineString [pt 0 0; pt 0 1]);
     mkEdge 2 1 3 9 "primary" (LineString [(1001 # 1000, 0)%Q; pt 2 0])].

(** Two edges between the same two nodes. *)
Definition lens_features : list Feature :=
  [mkFeature 10 "primary" (LineString [pt 0 0; pt 1 1; pt 2 0]);
   mkFeature 11 "primary" (LineString [pt 0 0; pt 1 (-1); pt 2 0])].

Definition lens : Network :=
  mkNetwork
    [mkNode 0 (Point (pt 0 0)) 2; mkNode 1 (Point (pt 2 0)) 2]
    true
    [mkEdge 0 0 1 10 "primary" (LineString [pt 0 0; pt 1 1; pt 2 0]);
     mkEdge 1 0 1 11 "primary" (LineString [pt 0 0; pt 1 (-1); pt 2 0])].

(** A junction of three edges and a node no edge references. *)
Definition star_and_stray : Network :=
  mkNetwork
    [mkNode 0 (Point (pt 0 0)) 3; mkNode 1 (Point (pt 1 0)) 1;
     mkNode 2 (Point (pt 0 1)) 1; mkNode 3 (Point (pt (-1) 0)) 1;
     mkNode 4 (Point (pt 5 5)) 0]
    true
    [mkEdge 0 0 1 7 "primary" (LineString [pt 0 0; pt 1 0]);
     mkEdge 1 0 2 8 "primary" (LineString [pt 0 0; pt 0 1]);
     mkEdge 2 0 3 9 "primary" (LineString [pt 0 0; pt (-1) 0])].

(** The same junction without the stray node. *)
Definition star : Network :=
  mkNetwork
    [mkNode 0 (Point (pt 0 0)) 3; mkNode 1 (Point (pt 1 0)) 1;
     mkNode 2 (Point (pt 0 1)) 1; mkNode 3 (Point (pt (-1) 0)) 1]
    true
    (edges star_and_stray).








Definition off_node_nodGeom : list Geometry := map node_geometry (nodes off_node).

Definition off_node_sindex : Geometry -> list Z :=
  planar_query_intersects (map geometry (edges off_node)).

(** A square roundabout with centroid (1, 1) and two roads touching it:
    one leaves its east side at (2, 1), one arrives at its west side at
    (0, 1). *)
Definition square : Feature :=
  mkFeature 1 "primary"
    (LineString [pt 0 0; pt 2 0; pt 2 2; pt 0 2; pt 0 0]).

Definition east : Feature :=
  mkFeature 2 "primary" (LineString [pt 2 1; pt 4 1]).

Definition west : Feature :=
  mkFeature 3 "secondary" (LineString [pt (-2) 1; pt 0 1]).

Definition roundabout_rows : list Feature := [square; east; west].

(** The same roads as two parts of one OSM way. *)
Definition west_same_way : Feature :=
  mkFeature 2 "secondary" (LineString [pt (-2) 1; pt 0 1]).

Definition same_way_rows : list Feature := [square; east; west_same_way].

(** A straight chain of five nodes and four unit edges. *)
Definition chain5 : Network :=
  mkNetwork
    [mkNode 0 (Point (pt 0 0)) 1; mkNode 1 (Point (pt 1 0)) 2;
     mkNode 2 (Point (pt 2 0)) 2; mkNode 3 (Point (pt 3 0)) 2;
     mkNode 4 (Point (pt 4 0)) 1]
    true
    [mkEdge 0 0 1 7 "primary" (LineString [pt 0 0; pt 1 0]);
     mkEdge 1 1 2 7 "primary" (LineString [pt 1 0; pt 2 0]);
     mkEdge 2 2 3 7 "primary" (LineString [pt 2 0; pt 3 0]);
     mkEdge 3 3 4 7 "primary" (LineString [pt 3 0; pt 4 0])].

(** The state of [merge_2] on [chain5] after node 1 has been popped. *)
Definition chain5_popped : Merge :=
  mkMerge [1; 2; 2; 2; 1] (edges chain5) [2; 3] [].

End Examples.

(** * Further example networks *)
Module Cases.
Import Planar.

(** The sparse path with one edge whose [to_id] names no node. *)
Definition dangling : Network :=
  mkNetwork
    [mkNode 10 (Point (pt 0 0)) 1; mkNode 30 (Point (pt 1 0)) 2;
     mkNode 20 (Point (pt 2 0)) 1]
    true
    [mkEdge 5 10 1 7 "primary" (LineString [pt 0 0; pt 1 0])].

Definition dangling_edge : Edge :=
  mkEdge 5 10 1 7 "primary" (LineString [pt 0 0; pt 1 0]).

(** Three edges of which one refers to a node id above the largest and
    one has two geometries. *)
Definition unsound : Network :=
  mkNetwork
    [mkNode 0 (Point (pt 0 0)) 1; mkNode 1 (Point (pt 1 0)) 1;
     mkNode 2 (Point (pt 2 0)) 0]
    true
    [mkEdge 0 0 1 7 "primary" (LineString [pt 0 0; pt 1 0]);
     mkEdge 1 1 7 8 "primary" (LineString [pt 1 0; pt 2 0]);
     mkEdge 2 1 2 9 "primary"
       (MultiLineString [[pt 1 0; pt 2 0]; [pt 5 5; pt 6 5]])].

(** A service road between two nodes. *)
Definition service_edge : Edge :=
  mkEdge 0 0 1 7 "service" (LineString [pt 0 0; pt 1 0]).

Definition service_road : Network :=
  mkNetwork
    [mkNode 0 (Point (pt 0 0)) 1; mkNode 1 (Point (pt 1 0)) 1]
    true
    [service_edge].

(** A loop at node 0 and an edge from node 0 to node 1. *)
Definition looped : Network :=
  mkNetwork
    [mkNode 0 (Point (pt 0 0)) 0; mkNode 1 (Point (pt 1 0)) 0]
    false
    [mkEdge 0 0 0 7 "primary" (LineString [pt 0 0; pt 0 1; pt 1 1; pt 0 0]);
     mkEdge 1 0 1 8 "primary" (LineString [pt 0 0; pt 1 0])].

(** An edge whose [to_id] is the -1 of an endpoint that did not resolve. *)
Definition minus_one_edge : Edge :=
  mkEdge 0 0 (-1) 7 "primary" (LineString [pt 0 0; pt 1 0]).

Definition minus_one : Network :=
  mkNetwork
    [mkNode 0 (Point (pt 0 0)) 0; mkNode 1 (Point (pt 1 0)) 0]
    false
    [minus_one_edge].

(** The second edge of [chain5], between its nodes 1 and 2. *)
Definition chain5_inner : Edge :=
  mkEdge 1 1 2 7 "primary" (LineString [pt 1 0; pt 2 0]).

(** One road that meets no other. *)
Definition alone : RawNetwork :=
  mkRaw [] [mkFeature 7 "primary" (LineString [pt 0 0; pt 1 0; pt 2 0])].

(** A segment, a point on it and a point far from it. *)
Definition segment : list Coord := [pt 0 0; pt 4 0].

Definition on_and_off : Points := MultiPoint [pt 1 0; pt 9 9].

(** Three vertices and two split points neither of which is a vertex. *)
Definition bend : list Coord := [pt 0 0; pt 1 2; pt 5 5].

Definition elsewhere : list Coord := [pt 1 7; pt 8 2].

End Cases.
(** * Properties *)

(** ** Lists, ranges and numpy arrays *)

Lemma range_length (n : nat) : List.length (range n) = n.
Proof. unfold range. now rewrite length_map, length_seq. Qed.

Lemma nth_error_range (n i : nat) :
  (i < n)%nat -> nth_error (range n) i = Some (Z.of_nat i).
Proof.
  intros H. unfold range.
  rewrite nth_error_map, nth_error_seq.
  destruct (Nat.ltb_spec i n); [reflexivity | lia].
Qed.

Lemma in_range (n : nat) (z : Z) :
  In z (range n) <-> 0 <= z < Z.of_nat n.
Proof.
  unfold range. rewrite in_map_iff. split.
  - intros [k [<- Hk]]. apply in_seq in Hk. lia.
  - intros H. exists (Z.to_nat z). split; [lia | apply in_seq; lia].
Qed.

Lemma py_max_none (l : list Z) : py_max l = None <-> l = [].
Proof.
  destruct l as [|x r]; simpl; [tauto |].
  destruct (py_max r); split; discriminate.
Qed.

Lemma py_max_bound (l : list Z) (m b : Z) :
  py_max l = Some m -> (forall x, In x l -> x < b) -> m < b.
Proof.
  revert m. induction l as [|x r IH]; simpl; intros m Hm Hb; [discriminate |].
  destruct (py_max r) as [m' |] eqn:E.
  - injection Hm as <-. specialize (IH m' eq_refl (fun y Hy => Hb y (or_intror Hy))).
    specialize (Hb x (or_introl eq_refl)). lia.
  - injection Hm as <-. apply Hb. now left.
Qed.

Lemma incr_nth_error (bins : list Z) (k i : nat) :
  nth_error (incr bins k) i
  = option_map (fun b => if Nat.eqb i k then b + 1 else b) (nth_error bins i).
Proof.
  revert k i. induction bins as [|b r IH]; intros [|k] [|i]; simpl;
    try reflexivity.
  - now destruct (nth_error r i).
  - apply IH.
Qed.

Lemma count_cons (v : Z) (x : list Z) (i : Z) :
  count (v :: x) i = (if v =? i then 1 else 0) + count x i.
Proof.
  unfold count. simpl. destruct (Z.eq_dec v i) as [-> | Hne].
  - rewrite Z.eqb_refl. lia.
  - destruct (Z.eqb_spec v i); [congruence | lia].
Qed.

(** Every bin ends up raised by the number of entries that name it. *)
Lemma bins_nth_error (x bins : list Z) (i : nat) :
  (forall v, In v x -> 0 <= v) ->
  nth_error (fold_left (fun b v => incr b (Z.to_nat v)) x bins) i
  = option_map (fun b => b + count x (Z.of_nat i)) (nth_error bins i).
Proof.
  revert bins. induction x as [|v x IH]; intros bins Hpos.
  - simpl. destruct (nth_error bins i); simpl; [f_equal; unfold count; simpl; lia | reflexivity].
  - cbn [fold_left]. rewrite IH by (intros; apply Hpos; now right).
    rewrite incr_nth_error, count_cons.
    assert (Hv := Hpos v (or_introl eq_refl)).
    destruct (nth_error bins i) as [b |]; simpl; [| reflexivity].
    f_equal.
    destruct (Nat.eqb_spec i (Z.to_nat v)) as [-> | Hne].
    + rewrite Z2Nat.id by lia. rewrite Z.eqb_refl. lia.
    + destruct (Z.eqb_spec v (Z.of_nat i)) as [-> | _]; [| lia].
      rewrite Nat2Z.id in Hne. congruence.
Qed.

Lemma bins_length (x bins : list Z) :
  List.length (fold_left (fun b v => incr b (Z.to_nat v)) x bins)
  = List.length bins.
Proof.
  revert bins. induction x as [|v x IH]; intros bins; [reflexivity |].
  cbn [fold_left]. rewrite IH.
  generalize (Z.to_nat v). induction bins as [|b r IHb]; intros [|k]; simpl; auto.
Qed.

Lemma bincount_in_range (x : list Z) (n : nat) :
  (forall v, In v x -> 0 <= v < Z.of_nat n) ->
  bincount x (Z.of_nat n) = Ok (map (count x) (range n)) [].
Proof.
  intros H. unfold bincount.
  assert (Hpos : forallb (Z.leb 0) x = true).
  { apply forallb_forall. intros v Hv. apply Z.leb_le. apply H in Hv. lia. }
  rewrite Hpos.
  assert (Hbins : match py_max x with
                  | Some m => Z.max (Z.of_nat n) (m + 1)
                  | None => Z.max (Z.of_nat n) 0
                  end = Z.of_nat n).
  { destruct (py_max x) as [m |] eqn:E; [| lia].
    assert (m < Z.of_nat n)
      by (eapply py_max_bound; eauto; intros v Hv; apply H in Hv; lia).
    lia. }
  rewrite Hbins, Nat2Z.id. unfold ret. f_equal.
  apply nth_error_ext. intros i.
  rewrite bins_nth_error by (intros v Hv; apply H in Hv; lia).
  destruct (Nat.ltb_spec i n) as [Hlt | Hge].
  - rewrite nth_error_repeat by exact Hlt.
    rewrite nth_error_map, nth_error_range by exact Hlt. reflexivity.
  - rewrite (proj2 (nth_error_None (repeat 0 n) i)) by (rewrite repeat_length; lia).
    rewrite (proj2 (nth_error_None (map (count x) (range n)) i))
      by (rewrite length_map, range_length; lia).
    reflexivity.
Qed.

Lemma np_add_same_length (a b : list Z) :
  List.length a = List.length b ->
  np_add a b = Ok (map (fun p => fst p + snd p) (combine a b)) [].
Proof.
  intros H. unfold np_add. rewrite H, Nat.eqb_refl. reflexivity.
Qed.

Lemma combine_map_same {A B C} (f : A -> B) (g : A -> C) (l : list A) :
  combine (map f l) (map g l) = map (fun a => (f a, g a)) l.
Proof. induction l; simpl; congruence. Qed.

(** ** calculate_degree *)

(** On a network with at least one edge whose references are positions of
    the node table, [calculate_degree] returns the array of [degree_of],
    one entry per node. *)
Lemma calculate_degree_spec (network : Network) :
  edges network <> [] ->
  valid_ends (List.length (nodes network)) (edges network) ->
  exists out,
    calculate_degree network =
    Ok (map (degree_of (edges network)) (range (List.length (nodes network)))) out.
Proof.
  intros Hne Hv. unfold calculate_degree.
  set (n := List.length (nodes network)).
  set (es := edges network) in *.
  destruct (py_max (map from_id es)) as [mf |] eqn:Ef.
  2:{ apply py_max_none in Ef. destruct es; [congruence | discriminate]. }
  destruct (py_max (map to_id es)) as [mt |] eqn:Et.
  2:{ apply py_max_none in Et. destruct es; [congruence | discriminate]. }
  assert (Hf : forall v, In v (map from_id es) -> 0 <= v < Z.of_nat n).
  { intros v Hin. apply in_map_iff in Hin as [e [<- He]]. now apply Hv. }
  assert (Ht : forall v, In v (map to_id es) -> 0 <= v < Z.of_nat n).
  { intros v Hin. apply in_map_iff in Hin as [e [<- He]]. now apply Hv. }
  assert (Hsum :
    map (fun p => fst p + snd p)
        (combine (map (count (map from_id es)) (range n))
                 (map (count (map to_id es)) (range n)))
    = map (degree_of es) (range n)).
  { rewrite combine_map_same, map_map. reflexivity. }
  simpl.
  rewrite (bincount_in_range _ _ Hf), (bincount_in_range _ _ Ht).
  destruct (Z.of_nat n - 1 >? mf); simpl;
    [destruct (Z.of_nat n - 1 >? mt); simpl |];
    rewrite np_add_same_length by (now rewrite !length_map);
    rewrite Hsum; eexists; reflexivity.
Qed.

(** ** Column assignment *)

Lemma assign_length {A B} (f : A -> B -> A) (rows : list A) (col : list B) :
  List.length (assign f rows col) = Nat.min (List.length rows) (List.length col).
Proof. unfold assign. now rewrite length_map, length_combine. Qed.

Lemma assign_map_keep {A B C} (f : A -> B -> A) (p : A -> C) rows col :
  (forall r c, p (f r c) = p r) ->
  (List.length rows <= List.length col)%nat ->
  map p (assign f rows col) = map p rows.
Proof.
  intros Hp. unfold assign. revert col.
  induction rows as [|r rows IH]; intros [|c col] Hlen; simpl in *;
    try reflexivity; try lia.
  rewrite Hp. f_equal. apply IH. lia.
Qed.

Lemma assign_map_new {A B} (f : A -> B -> A) (p : A -> B) rows col :
  (forall r c, p (f r c) = c) ->
  (List.length col <= List.length rows)%nat ->
  map p (assign f rows col) = col.
Proof.
  intros Hp. unfold assign. revert col.
  induction rows as [|r rows IH]; intros [|c col] Hlen; simpl in *;
    try reflexivity; try lia.
  rewrite Hp. f_equal. apply IH. lia.
Qed.

Lemma assign_nth_error {A B} (f : A -> B -> A) rows col (i : nat) r c :
  nth_error rows i = Some r -> nth_error col i = Some c ->
  nth_error (assign f rows col) i = Some (f r c).
Proof.
  unfold assign. revert col i.
  induction rows as [|r0 rows IH]; intros [|c0 col] [|i] Hr Hc; simpl in *;
    try discriminate.
  - now injection Hr as ->; injection Hc as ->.
  - now apply IH.
Qed.

Lemma assign_in {A B} (f : A -> B -> A) rows col x :
  In x (assign f rows col) -> exists r c, In r rows /\ In c col /\ x = f r c.
Proof.
  unfold assign. intros H. apply in_map_iff in H as [[r c] [<- Hin]].
  exists r, c. split; [eapply in_combine_l | split; [eapply in_combine_r |]]; eauto.
Qed.

Lemma map_fst_combine {A B} (l : list A) (l' : list B) :
  List.length l = List.length l' -> map fst (combine l l') = l.
Proof.
  revert l'. induction l as [|a l IH]; intros [|b l'] H; simpl in *;
    try reflexivity; try discriminate.
  f_equal. apply IH. now injection H.
Qed.

Lemma map_snd_combine {A B} (l : list A) (l' : list B) :
  List.length l = List.length l' -> map snd (combine l l') = l'.
Proof.
  revert l'. induction l as [|a l IH]; intros [|b l'] H; simpl in *;
    try reflexivity; try discriminate.
  f_equal. apply IH. now injection H.
Qed.

(** ** Dictionaries *)

Lemma dict_get_set (d : list (Z * Z)) (k v q : Z) :
  dict_get (dict_set d k v) q = if k =? q then Some v else dict_get d q.
Proof.
  induction d as [|[k' v'] r IH]; simpl.
  - reflexivity.
  - destruct (Z.eqb_spec k' k) as [-> | Hne]; simpl.
    + destruct (Z.eqb_spec k q); reflexivity.
    + destruct (Z.eqb_spec k' q) as [-> | Hq].
      * destruct (Z.eqb_spec k q); [congruence | reflexivity].
      * exact IH.
Qed.

Lemma dict_set_keys (d : list (Z * Z)) (k v q : Z) :
  In q (map fst (dict_set d k v)) <-> q = k \/ In q (map fst d).
Proof.
  induction d as [|[k' v'] r IH]; simpl.
  - intuition.
  - destruct (Z.eqb_spec k' k) as [-> | Hne]; simpl; intuition.
Qed.

Lemma dict_set_nodup (d : list (Z * Z)) (k v : Z) :
  NoDup (map fst d) -> NoDup (map fst (dict_set d k v)).
Proof.
  induction d as [|[k' v'] r IH]; simpl; intros H.
  - constructor; [intros [] | constructor].
  - inversion H as [|? ? Hnot Hr]; subst.
    destruct (Z.eqb_spec k' k) as [-> | Hne]; simpl.
    + now constructor.
    + constructor; [| now apply IH].
      rewrite dict_set_keys. intros [-> | Hin]; [congruence | contradiction].
Qed.

Lemma dict_get_none (d : list (Z * Z)) (k : Z) :
  ~ In k (map fst d) -> dict_get d k = None.
Proof.
  induction d as [|[k' v'] r IH]; simpl; intros H; [reflexivity |].
  destruct (Z.eqb_spec k' k); [tauto | apply IH; tauto].
Qed.

Lemma dict_get_in_keys (d : list (Z * Z)) (k : Z) :
  In k (map fst d) -> exists v, dict_get d k = Some v.
Proof.
  induction d as [|[k' v'] r IH]; simpl; intros H; [contradiction |].
  destruct (Z.eqb_spec k' k); [eauto | apply IH; tauto].
Qed.

Lemma dict_fold_nodup l d :
  NoDup (map fst d) -> NoDup (map fst (dict_fold l d)).
Proof.
  revert d. induction l as [|[k v] l IH]; simpl; intros d H; [exact H |].
  apply IH. now apply dict_set_nodup.
Qed.

Lemma dict_fold_keys l d q :
  In q (map fst (dict_fold l d)) <-> In q (map fst l) \/ In q (map fst d).
Proof.
  revert d. induction l as [|[k v] l IH]; simpl; intros d; [tauto |].
  unfold dict_fold in IH. rewrite IH, dict_set_keys. intuition.
Qed.

Lemma dict_fold_get l d q v :
  dict_get (dict_fold l d) q = Some v ->
  In (q, v) l \/ dict_get d q = Some v.
Proof.
  revert d. induction l as [|[k w] l IH]; simpl; intros d H; [now right |].
  apply IH in H as [H | H]; [now left; right |].
  rewrite dict_get_set in H. simpl in H.
  destruct (Z.eqb_spec k q) as [-> | Hne]; [| now right].
  injection H as ->. now left; left.
Qed.

Lemma in_combine_range (ids : list Z) (s n : nat) (k v : Z) :
  In (k, v) (combine ids (map Z.of_nat (seq s n))) ->
  exists j, v = Z.of_nat (s + j) /\ nth_error ids j = Some k.
Proof.
  revert s n. induction ids as [|x ids IH]; intros s [|n] H; simpl in *;
    try contradiction.
  destruct H as [H | H].
  - injection H as <- <-. exists O. split; [f_equal; lia | reflexivity].
  - apply IH in H as [j [-> Hj]]. exists (Datatypes.S j).
    split; [f_equal; lia | exact Hj].
Qed.

Lemma dict_zip_get (ids : list Z) (k v : Z) :
  dict_get (dict_zip ids (range (List.length ids))) k = Some v ->
  0 <= v /\ nth_error ids (Z.to_nat v) = Some k.
Proof.
  intros H. apply (dict_fold_get _ []) in H as [H | H]; [| discriminate].
  apply in_combine_range in H as [j [-> Hj]]. simpl.
  rewrite Nat2Z.id. split; [lia | exact Hj].
Qed.

Lemma dict_zip_defined (ids : list Z) (k : Z) :
  In k ids -> exists v, dict_get (dict_zip ids (range (List.length ids))) k = Some v.
Proof.
  intros H. apply dict_get_in_keys. apply dict_fold_keys. left.
  unfold range. rewrite map_fst_combine; [exact H |].
  now rewrite length_map, length_seq.
Qed.

Lemma dict_zip_nodup (keys values : list Z) :
  NoDup (map fst (dict_zip keys values)).
Proof. apply dict_fold_nodup. constructor. Qed.

(** ** reset_ids *)

Lemma mask_assign_cons x ids c cur k v :
  mask_assign (x :: ids) (c :: cur) k v =
  (if x =? k then v else c) :: mask_assign ids cur k v.
Proof. reflexivity. Qed.

Lemma mask_assign_length ids cur k v :
  List.length cur = List.length ids ->
  List.length (mask_assign ids cur k v) = List.length ids.
Proof.
  intros H. unfold mask_assign. rewrite length_map, length_combine. lia.
Qed.

Lemma remap_step (k v : Z) (r : list (Z * Z)) (ids cur : list Z) :
  dict_get r k = None ->
  map (fun p => match dict_get r (fst p) with Some w => w | None => snd p end)
      (combine ids (mask_assign ids cur k v))
  = map (fun p => match dict_get ((k, v) :: r) (fst p) with
                  | Some w => w | None => snd p end)
        (combine ids cur).
Proof.
  intros Hk. revert cur.
  induction ids as [|x ids IH]; intros [|c cur]; try reflexivity.
  rewrite mask_assign_cons. cbn [combine map fst snd dict_get].
  rewrite IH. f_equal.
  destruct (Z.eqb_spec x k) as [-> | Hne].
  - rewrite Z.eqb_refl, Hk. reflexivity.
  - destruct (Z.eqb_spec k x); [congruence | reflexivity].
Qed.

Lemma remap_fold (d : list (Z * Z)) (ids cur : list Z) :
  NoDup (map fst d) ->
  List.length cur = List.length ids ->
  fold_left (fun cur kv => mask_assign ids cur (fst kv) (snd kv)) d cur
  = map (fun p => match dict_get d (fst p) with Some w => w | None => snd p end)
        (combine ids cur).
Proof.
  revert cur. induction d as [|[k v] r IH]; intros cur Hnd Hlen.
  - simpl. symmetry. apply map_snd_combine. now symmetry.
  - inversion Hnd as [|? ? Hnot Hr]; subst.
    cbn [fold_left fst snd].
    rewrite IH by (auto using mask_assign_length).
    apply remap_step. now apply dict_get_none.
Qed.

Lemma remap_spec (d : list (Z * Z)) (ids : list Z) :
  NoDup (map fst d) -> remap d ids = map (renumber d) ids.
Proof.
  intros Hnd. unfold remap. rewrite remap_fold by auto.
  induction ids as [|x ids IH]; simpl; [reflexivity |].
  now rewrite IH.
Qed.

Lemma assign_map {A B} (f : A -> B -> A) (g : A -> B) (rows : list A) :
  assign f rows (map g rows) = map (fun r => f r (g r)) rows.
Proof. unfold assign. induction rows; simpl; congruence. Qed.

Lemma assign_map_map {A B C} (f : A -> B -> A) (h : C -> A) (g : C -> B)
    (rows : list C) :
  assign f (map h rows) (map g rows) = map (fun r => f (h r) (g r)) rows.
Proof. unfold assign. induction rows; simpl; congruence. Qed.

Lemma reset_ids_edges1 (network : Network) :
  let d := id_dict_of network in
  assign (fun e ft => set_ends e (fst ft) (snd ft)) (edges network)
    (combine (remap d (map from_id (edges network)))
             (remap d (map to_id (edges network))))
  = map (fun e => set_ends e (renumber d (from_id e)) (renumber d (to_id e)))
        (edges network).
Proof.
  intros d. unfold d, id_dict_of.
  rewrite !remap_spec by apply dict_zip_nodup.
  rewrite !map_map, combine_map_same.
  apply (assign_map (fun e ft => set_ends e (fst ft) (snd ft))).
Qed.

Lemma reset_ids_unfold (network : Network) :
  reset_ids network =
  mkNetwork
    (assign set_node_id (nodes network) (range (List.length (nodes network))))
    (has_degree network)
    (assign set_edge_id
       (map (fun e => set_ends e (renumber (id_dict_of network) (from_id e))
                               (renumber (id_dict_of network) (to_id e)))
            (edges network))
       (range (List.length (edges network)))).
Proof.
  unfold reset_ids. fold (id_dict_of network).
  rewrite (reset_ids_edges1 network). now rewrite length_map.
Qed.

Lemma renumbered_reference (network : Network) (old : Z) :
  In old (map node_id (nodes network)) ->
  reference_renumbered network (reset_ids network) old
    (renumber (id_dict_of network) old).
Proof.
  intros Hin. unfold reference_renumbered, renumber.
  destruct (dict_zip_defined _ _ Hin) as [v Hv].
  rewrite length_map in Hv. fold (id_dict_of network) in Hv. rewrite Hv.
  split; [reflexivity |].
  unfold id_dict_of in Hv. rewrite <- (length_map node_id) in Hv.
  apply dict_zip_get in Hv as [Hpos Hnth].
  rewrite nth_error_map in Hnth.
  destruct (nth_error (nodes network) (Z.to_nat v)) as [nd |] eqn:End;
    [| discriminate].
  injection Hnth as Hid.
  assert (Hlt : (Z.to_nat v < List.length (nodes network))%nat).
  { apply nth_error_Some. congruence. }
  exists nd. unfold at_label.
  rewrite reset_ids_unfold. cbn [nodes].
  rewrite assign_length, range_length, Nat.min_id.
  assert (Hb : (0 <=? v) && (v <? Z.of_nat (List.length (nodes network))) = true).
  { apply andb_true_iff. split; [apply Z.leb_le | apply Z.ltb_lt]; lia. }
  rewrite Hb. repeat split; auto.
  apply assign_nth_error; [exact End |].
  rewrite nth_error_range by exact Hlt.
  now rewrite Z2Nat.id.
Qed.

(** C8. On a network whose edge references are ids of the node table,
    [reset_ids] numbers the node rows and the edge rows [0..n-1] in row
    order, keeps every other column of both tables, and rewrites each
    [from_id] and [to_id] through the old-to-new node id map, so that each
    edge still refers to the same node rows, renumbered. *)
Theorem reset_ids_renumbers (network : Network) :
  references_resolve (nodes network) (edges network) ->
  let out := reset_ids network in
  map node_id (nodes out) = range (List.length (nodes network)) /\
  map edge_id (edges out) = range (List.length (edges network)) /\
  map node_geometry (nodes out) = map node_geometry (nodes network) /\
  map degree (nodes out) = map degree (nodes network) /\
  has_degree out = has_degree network /\
  map osm_id (edges out) = map osm_id (edges network) /\
  map highway (edges out) = map highway (edges network) /\
  map geometry (edges out) = map geometry (edges network) /\
  forall i e, nth_error (edges network) i = Some e ->
    exists e',
      nth_error (edges out) i = Some e' /\
      reference_renumbered network out (from_id e) (from_id e') /\
      reference_renumbered network out (to_id e) (to_id e').
Proof.
  intros Hres out. subst out.
  pose proof (reset_ids_unfold network) as Hu.
  set (d := id_dict_of network) in *.
  set (es1 := map (fun e => set_ends e (renumber d (from_id e))
                                     (renumber d (to_id e))) (edges network)) in *.
  assert (Hlen1 : List.length es1 = List.length (edges network))
    by (unfold es1; apply length_map).
  rewrite Hu. cbn [nodes edges has_degree].
  repeat split.
  - apply assign_map_new; [reflexivity | rewrite range_length; lia].
  - apply assign_map_new; [reflexivity | rewrite range_length; lia].
  - apply assign_map_keep; [reflexivity | rewrite range_length; lia].
  - apply assign_map_keep; [reflexivity | rewrite range_length; lia].
  - rewrite assign_map_keep; [| reflexivity | rewrite range_length; lia].
    unfold es1. rewrite map_map. reflexivity.
  - rewrite assign_map_keep; [| reflexivity | rewrite range_length; lia].
    unfold es1. rewrite map_map. reflexivity.
  - rewrite assign_map_keep; [| reflexivity | rewrite range_length; lia].
    unfold es1. rewrite map_map. reflexivity.
  - intros i e He.
    assert (Hi : (i < List.length (edges network))%nat)
      by (apply nth_error_Some; congruence).
    exists (set_edge_id (set_ends e (renumber d (from_id e))
                                    (renumber d (to_id e))) (Z.of_nat i)).
    split.
    + apply assign_nth_error; [| now apply nth_error_range].
      unfold es1. rewrite nth_error_map, He. reflexivity.
    + rewrite <- Hu. cbn [from_id to_id set_edge_id set_ends].
      apply nth_error_In in He. destruct (Hres e He) as [Hf Ht].
      split; now apply renumbered_reference.
Qed.

(** ** Outcomes *)

Lemma bind_ok {A B} (m : result A) (f : A -> result B) (b : B) (out : list Msg) :
  bind m f = Ok b out ->
  exists a o1 o2, m = Ok a o1 /\ f a = Ok b o2 /\ out = o1 ++ o2.
Proof.
  unfold bind. destruct m as [a o1 | e | |]; try discriminate.
  destruct (f a) as [b' o2 | e | |] eqn:E; try discriminate.
  intros H. injection H as <- <-. eauto 6.
Qed.

Lemma of_option_ok {A} (e : exn) (o : option A) (a : A) (out : list Msg) :
  of_option e o = Ok a out -> o = Some a /\ out = [].
Proof.
  destruct o; simpl; [| discriminate]. unfold ret. intros H. now injection H as <- <-.
Qed.

Lemma ret_ok {A} (x a : A) (out : list Msg) :
  ret x = Ok a out -> x = a /\ out = [].
Proof. unfold ret. intros H. now injection H as <- <-. Qed.

(** Peel the binds of a call that returned. *)
Ltac peel H :=
  repeat match type of H with
  | bind _ _ = Ok _ _ =>
      let a := fresh "v" in let o1 := fresh "o" in let o2 := fresh "o" in
      let H1 := fresh "Hcall" in let Ho := fresh "Hout" in
      apply bind_ok in H as (a & o1 & o2 & H1 & H & Ho)
  end.

Ltac peel_option H :=
  match type of H with
  | of_option _ _ = Ok _ _ =>
      let Ho := fresh "Hnil" in apply of_option_ok in H as [H Ho]
  end.

(** ** Rows fetched by position *)

Lemma iloc_in {A} (rows : list A) (i : Z) (x : A) :
  iloc rows i = Some x -> In x rows.
Proof.
  unfold iloc. destruct (np_index (List.length rows) i); [| discriminate].
  apply nth_error_In.
Qed.

Lemma at_label_in {A} (rows : list A) (i : Z) (x : A) :
  at_label rows i = Some x -> In x rows.
Proof.
  unfold at_label. destruct (_ && _); [| discriminate]. apply nth_error_In.
Qed.

Lemma at_label_some {A} (rows : list A) (i : Z) (x : A) :
  at_label rows i = Some x <->
  0 <= i < Z.of_nat (List.length rows) /\ nth_error rows (Z.to_nat i) = Some x.
Proof.
  unfold at_label.
  destruct (Z.leb_spec 0 i) as [Hlo | Hlo],
           (Z.ltb_spec i (Z.of_nat (List.length rows))) as [Hhi | Hhi];
    simpl; split; intros Hx; try discriminate; try tauto; try lia.
Qed.

Lemma at_label_iloc {A} (rows : list A) (i : Z) (x : A) :
  at_label rows i = Some x -> iloc rows i = Some x.
Proof.
  intros Hx. apply at_label_some in Hx as [Hr Hn]. unfold iloc, np_index.
  destruct (Z.leb_spec 0 i) as [Hlo | Hlo],
           (Z.ltb_spec i (Z.of_nat (List.length rows))) as [Hhi | Hhi];
    simpl; try lia. exact Hn.
Qed.

Lemma all_some_in {A} (l : list (option A)) (xs : list A) (x : A) :
  all_some l = Some xs -> In x xs -> In (Some x) l.
Proof.
  revert xs. induction l as [|[a |] l IH]; simpl; intros xs H Hin.
  - injection H as <-. contradiction.
  - destruct (all_some l) as [r |]; [| discriminate]. injection H as <-.
    destruct Hin as [-> | Hin]; [now left | right; eapply IH; eauto].
  - discriminate.
Qed.

Lemma all_some_length {A} (l : list (option A)) (xs : list A) :
  all_some l = Some xs -> List.length xs = List.length l.
Proof.
  revert xs. induction l as [|[a |] l IH]; simpl; intros xs H.
  - now injection H as <-.
  - destruct (all_some l) as [r |]; [| discriminate]. injection H as <-.
    simpl. f_equal. now apply IH.
  - discriminate.
Qed.

Lemma ilocs_in {A} (rows : list A) (ps : list Z) (xs : list A) (x : A) :
  ilocs rows ps = Some xs -> In x xs -> In x rows.
Proof.
  unfold ilocs. intros H Hin.
  eapply all_some_in in H; eauto.
  apply in_map_iff in H as [i [Hi _]]. eapply iloc_in; eauto.
Qed.

Lemma py_min_from_in {A} (key : A -> Q) (best : A) (l : list A) :
  py_min_from key best l = best \/ In (py_min_from key best l) l.
Proof.
  revert best. induction l as [|x l IH]; intros best; simpl; [now left |].
  destruct (IH (if Qltb (key x) (key best) then x else best)) as [H | H].
  - rewrite H. destruct (Qltb (key x) (key best)); [right; now left | now left].
  - right; now right.
Qed.

Lemma py_min_in {A} (key : A -> Q) (l : list A) (x : A) :
  py_min key l = Some x -> In x l.
Proof.
  destruct l as [|y l]; simpl; [discriminate |].
  intros H. injection H as <-.
  destruct (py_min_from_in key y l); [left; congruence | now right].
Qed.

Lemma list_set_length {A} (l : list A) (k : nat) (v : A) :
  List.length (list_set l k v) = List.length l.
Proof.
  revert k. induction l as [|x l IH]; intros [|k]; simpl; auto.
Qed.

Lemma list_set_in {A} (l : list A) (k : nat) (v x : A) :
  In x (list_set l k v) -> x = v \/ In x l.
Proof.
  revert k. induction l as [|y l IH]; intros [|k]; simpl; try tauto.
  - intros [<- | H]; auto.
  - intros [<- | H]; auto. apply IH in H. tauto.
Qed.

Lemma filter_all {A} (f : A -> bool) (l : list A) :
  (forall x, In x l -> f x = true) -> filter f l = l.
Proof.
  induction l as [|x l IH]; simpl; intros H; [reflexivity |].
  rewrite (H x (or_introl eq_refl)). f_equal. apply IH. auto.
Qed.

Lemma np_where_none (p : Z -> bool) (a : list Z) :
  (forall x, In x a -> p x = false) -> np_where p a = [].
Proof.
  intros H. unfold np_where.
  replace (filter _ _) with (@nil (Z * Z)); [reflexivity |].
  symmetry. generalize (range (List.length a)). 
  induction a as [|x a IH]; intros [|i r]; simpl; try reflexivity.
  rewrite (H x (or_introl eq_refl)). apply IH.
  intros y Hy. apply H. now right.
Qed.

(** ** merge_2 *)

Section Merge2Props.
Context {G : GeometryLib} {S : SetOrder}.

Lemma set_of_nil : set_of [] = [].
Proof.
  destruct (set_of []) as [|z l] eqn:E; [reflexivity |].
  assert (H : In z (set_of [])) by (rewrite E; now left).
  exfalso. exact (proj1 (set_of_members [] z) H).
Qed.

Lemma assign_degree_same (nod : list Node) :
  assign set_degree nod (map degree nod) = nod.
Proof.
  rewrite assign_map. induction nod as [|[i g d] nod IH]; [reflexivity |].
  cbn [map]. rewrite IH. reflexivity.
Qed.

(** [merge_2] on a network that has the degree column. *)
Lemma merge_2_with_degree fuel network print_err ids :
  has_degree network = true ->
  ilocs (map node_id (nodes network))
        (np_where (Z.eqb 2) (map degree (nodes network))) = Some ids ->
  merge_2 fuel network print_err =
  (m <- merge_2_loop (map node_geometry (nodes network))
          (tree_query_intersects (map geometry (edges network)))
          print_err fuel
          (mkMerge (map degree (nodes network)) (edges network) (set_of ids) []) ;;
   ret (mkNetwork
          (filter (fun n => 0 <? degree n)
                  (assign set_degree (nodes network) (deg m)))
          true
          (filter (fun e => negb (mem (edge_id e) (eIDtoRemove m))) (edg m)))).
Proof.
  intros Hcol Hids. unfold merge_2. rewrite Hcol.
  unfold ret at 1. cbn [bind]. cbv zeta. rewrite Hids.
  cbn [of_option]. unfold ret at 1. cbn [bind].
  destruct (merge_2_loop _ _ _ _ _) as [m o | e | |]; cbn [bind app];
    reflexivity.
Qed.

(** C7, amended. On a network with a degree column in which every node has
    a positive degree other than 2, [merge_2] returns the network itself:
    the same node rows and the same edge rows, and it prints nothing. *)
Theorem merge_2_contracted (fuel : nat) (network : Network) (print_err : bool) :
  has_degree network = true ->
  (forall n, In n (nodes network) -> degree n <> 2 /\ 0 < degree n) ->
  merge_2 (Datatypes.S fuel) network print_err = Ok network [].
Proof.
  intros Hcol Hdeg. unfold merge_2. rewrite Hcol.
  unfold ret at 1. cbn [bind]. cbv zeta.
  rewrite np_where_none.
  2:{ intros x Hx. apply in_map_iff in Hx as [n [<- Hn]].
      apply Z.eqb_neq. intros E. apply (Hdeg n Hn). congruence. }
  cbn [ilocs map all_some of_option ret bind].
  rewrite set_of_nil.
  cbn [merge_2_loop n2 ret bind deg edg eIDtoRemove mem existsb negb app].
  rewrite assign_degree_same.
  rewrite (filter_all (fun n => 0 <? degree n)), (filter_all (fun _ => true)).
  - destruct network; simpl in *; subst; reflexivity.
  - reflexivity.
  - intros n Hn. apply Z.ltb_lt. now apply Hdeg.
Qed.

(** A loop whose step hands back the state it was given never ends. *)
Lemma walk_stuck (step : Attempt -> result (option Attempt)) (a : Attempt) :
  step a = Ok (Some a) [] -> forall fuel, walk step fuel a = OutOfFuel.
Proof.
  intros H fuel. induction fuel as [|fuel IH]; simpl; [reflexivity |].
  rewrite H. simpl. now rewrite IH.
Qed.

(** A loop whose condition fails at once returns the state it was given. *)
Lemma walk_exit (step : Attempt -> result (option Attempt)) (a : Attempt) :
  step a = Ok None [] -> forall fuel, walk step (Datatypes.S fuel) a = Ok a [].
Proof. intros H fuel. simpl. rewrite H. reflexivity. Qed.

(** *** References stay non-negative through the contraction *)

Lemma other_end_cases (e : Edge) (x : Z) :
  other_end e x = from_id e \/ other_end e x = to_id e.
Proof. unfold other_end. destruct (from_id e =? x); auto. Qed.

Lemma other_end_nonneg (es : list Edge) (e : Edge) (x : Z) :
  nonneg_ends es -> In e es -> 0 <= other_end e x.
Proof.
  intros H Hin. destruct (H e Hin).
  destruct (other_end_cases e x) as [-> | ->]; assumption.
Qed.

Section Invariant.
Variable nodGeom : list Geometry.
Variable edg_sindex : Geometry -> list Z.

Lemma find_closest_2_edges_in eIDs nodeID es g e1 e2 out :
  find_closest_2_edges eIDs nodeID es g = Ok (e1, e2) out ->
  In e1 es /\ In e2 es.
Proof.
  unfold find_closest_2_edges. intros H. peel H.
  apply ret_ok in H as [H _]. injection H as <- <-.
  repeat match goal with
  | Hc : of_option _ _ = Ok _ _ |- _ => apply of_option_ok in Hc as [Hc _]
  end.
  split;
    match goal with
    | Hmin : py_min _ ?l = Some ?x, Hrows : ilocs ?rows _ = Some ?l
      |- In ?x ?rows =>
        eapply ilocs_in; [exact Hrows | eapply py_min_in; exact Hmin]
    end.
Qed.

Lemma choose_paths_in m nodeID e1 e2 out :
  choose_paths nodGeom edg_sindex m nodeID = Ok (Some (e1, e2)) out ->
  In e1 (edg m) /\ In e2 (edg m).
Proof.
  unfold choose_paths. intros H. peel H.
  destruct (2 <? _).
  - peel H. apply ret_ok in H as [H _]. injection H as ->.
    eapply find_closest_2_edges_in; eauto.
  - destruct (set_of _) as [|i1 [|i2 r]]; try (apply ret_ok in H as [H _]; discriminate).
    peel H. apply ret_ok in H as [H _]. injection H as <- <-.
    repeat match goal with
    | Hc : of_option _ _ = Ok _ _ |- _ => apply of_option_ok in Hc as [Hc _]
    end.
    split; eapply iloc_in; eauto.
Qed.

Lemma next_edge_in cur eID key e :
  next_edge nodGeom cur eID key = Some e -> In e cur.
Proof.
  unfold next_edge. destruct (ilocs cur eID) as [rows |] eqn:E; [| discriminate].
  destruct rows as [|r rows]; [discriminate |].
  destruct (at_label nodGeom key); [| discriminate].
  intros H. apply py_min_in in H. eapply ilocs_in; eauto.
Qed.

Lemma walk1_step_frontier m a a' out :
  nonneg_ends (edg m) -> nonneg_frontier a ->
  walk1_step nodGeom edg_sindex m a = Ok (Some a') out ->
  nonneg_frontier a'.
Proof.
  intros Hm [H1 H2]. unfold walk1_step. intros H. peel H.
  destruct (negb _); [apply ret_ok in H as [H _]; discriminate |].
  destruct (mem _ _); [apply ret_ok in H as [H _]; discriminate |].
  peel H.
  destruct (next_edge _ _ _ _) as [e |] eqn:E;
    apply ret_ok in H as [H _]; injection H as <-.
  - apply next_edge_in in E. split; cbn; [eapply other_end_nonneg; eauto | exact H2].
  - now split.
Qed.

Lemma walk2_step_frontier m a a' out :
  nonneg_ends (edg m) -> nonneg_frontier a ->
  walk2_step nodGeom edg_sindex m a = Ok (Some a') out ->
  nonneg_frontier a'.
Proof.
  intros Hm [H1 H2]. unfold walk2_step. intros H. peel H.
  destruct (negb _); [apply ret_ok in H as [H _]; discriminate |].
  destruct (mem _ _); [apply ret_ok in H as [H _]; discriminate |].
  peel H.
  destruct (next_edge _ _ _ _) as [e |] eqn:E;
    apply ret_ok in H as [H _]; injection H as <-.
  - apply next_edge_in in E. split; cbn; [exact H1 | eapply other_end_nonneg; eauto].
  - now split.
Qed.

(** An invariant of the step is an invariant of the loop. *)
Lemma walk_invariant (P : Attempt -> Prop)
    (step : Attempt -> result (option Attempt)) :
  (forall a a' out, P a -> step a = Ok (Some a') out -> P a') ->
  forall fuel a a' out, P a -> walk step fuel a = Ok a' out -> P a'.
Proof.
  intros Hstep fuel. induction fuel as [|fuel IH]; intros a a' out Pa H;
    simpl in H; [discriminate |].
  peel H. destruct v as [a1 |].
  - eapply IH; [| exact H]. eapply Hstep; eauto.
  - apply ret_ok in H as [<- _]. exact Pa.
Qed.

Lemma write_merged_nonneg cur label g f t out cur' :
  nonneg_ends cur -> 0 <= f -> 0 <= t ->
  write_merged cur label g f t = Ok cur' out ->
  nonneg_ends cur'.
Proof.
  intros Hc Hf Ht. unfold write_merged.
  destruct (at_label cur label) as [row |] eqn:E; [| discriminate].
  intros H. apply ret_ok in H as [<- _].
  intros e He. apply list_set_in in He as [-> | He]; [now split | now apply Hc].
Qed.

Lemma finish_attempt_nonneg print_err m info a m' out :
  nonneg_ends (edg m) -> nonneg_frontier a ->
  finish_attempt print_err m info a = Ok m' out ->
  nonneg_ends (edg m').
Proof.
  intros Hm [H1 H2]. unfold finish_attempt. intros H. peel H.
  destruct (get_type_id _ =? 1).
  - peel H. apply ret_ok in H as [<- _]. cbn.
    match goal with
    | Hw : write_merged _ _ _ _ _ = Ok _ _ |- _ =>
        exact (write_merged_nonneg _ _ _ _ _ _ _ Hm H1 H2 Hw)
    end.
  - peel H. apply ret_ok in H as [<- _]. exact Hm.
Qed.

Lemma merge_2_body_nonneg print_err fuel m nodeID m' out :
  nonneg_ends (edg m) ->
  merge_2_body nodGeom edg_sindex print_err fuel m nodeID = Ok m' out ->
  nonneg_ends (edg m').
Proof.
  intros Hm. unfold merge_2_body. intros H. peel H.
  destruct v as [[e1 e2] |]; [| apply ret_ok in H as [<- _]; exact Hm].
  apply choose_paths_in in Hcall as [He1 He2].
  destruct (_ =? _); [apply ret_ok in H as [<- _]; exact Hm |].
  peel H.
  eapply finish_attempt_nonneg; [exact Hm | | exact H].
  eapply (walk_invariant nonneg_frontier); [| | exact Hcall0].
  - intros; eapply walk2_step_frontier; eauto.
  - eapply (walk_invariant nonneg_frontier); [| | exact Hcall].
    + intros; eapply walk1_step_frontier; eauto.
    + split; cbn; eapply other_end_nonneg; eauto.
Qed.

Lemma merge_2_loop_nonneg print_err fuel m m' out :
  nonneg_ends (edg m) ->
  merge_2_loop nodGeom edg_sindex print_err fuel m = Ok m' out ->
  nonneg_ends (edg m').
Proof.
  revert m m' out. induction fuel as [|fuel IH]; intros m m' out Hm H;
    simpl in H; [discriminate |].
  destruct (n2 m) as [|nodeID rest].
  - apply ret_ok in H as [<- _]. exact Hm.
  - peel H. eapply IH; [| exact H].
    eapply merge_2_body_nonneg; [| exact Hcall]. exact Hm.
Qed.

End Invariant.

Lemma merge_2_nonneg fuel network print_err out msgs :
  nonneg_ends (edges network) ->
  merge_2 fuel network print_err = Ok out msgs ->
  nonneg_ends (edges out).
Proof.
  intros Hn. unfold merge_2. intros H. peel H.
  destruct (has_degree network); [| discriminate].
  apply ret_ok in H as [<- _]. cbn.
  apply merge_2_loop_nonneg in Hcall1; [| exact Hn].
  intros e He. apply filter_In in He as [He _]. now apply Hcall1.
Qed.

(** What [merge_2] returns keeps only nodes of positive degree. *)
Lemma merge_2_has_degree fuel network print_err out msgs :
  merge_2 fuel network print_err = Ok out msgs -> has_degree out = true.
Proof.
  unfold merge_2. intros H. peel H.
  destruct (has_degree network); [| discriminate].
  now apply ret_ok in H as [<- _].
Qed.

End Merge2Props.

(** ** add_topology *)

Section TopologyProps.
Context {G : GeometryLib}.

Lemma nearest_in geom gdf sindex n out :
  nearest geom gdf sindex = Ok n out -> In n gdf.
Proof.
  unfold nearest. intros H. peel H.
  apply of_option_ok in H as [H _]. apply of_option_ok in Hcall as [Hcall _].
  eapply ilocs_in; [exact Hcall | eapply py_min_in; exact H].
Qed.

Lemma resolves_in nds g n : resolves nds g = Some n -> In n nds.
Proof.
  unfold resolves, attempt, nearest_node.
  destruct (nearest _ _ _) as [a o | | |] eqn:E; try discriminate.
  intros H. injection H as <-. eapply nearest_in; eauto.
Qed.

Lemma topology_loop_spec nds rows from_ids to_ids bugs :
  topology_loop nds (tree_query (map node_geometry nds)) rows from_ids to_ids bugs
  = (from_ids ++ map (fun e => id_or_minus_one (from_node nds e)) rows,
     to_ids ++ map (fun e => id_or_minus_one (to_node nds e)) rows,
     bugs ++ flat_map (endpoint_failures nds) rows).
Proof.
  revert from_ids to_ids bugs.
  induction rows as [|e rows IH]; intros from_ids to_ids bugs; simpl.
  - now rewrite !app_nil_r.
  - unfold endpoint_failures, from_node, to_node, resolves. simpl.
    destruct (attempt (nearest_node (get_point_first (geometry e)) _ _));
      destruct (attempt (nearest_node (get_point_last (geometry e)) _ _));
      rewrite IH; simpl; rewrite <- ?app_assoc; simpl; reflexivity.
Qed.

(** What [add_topology] returns, in one expression. *)
Lemma add_topology_unfold (network : Network) :
  let nds := nodes network in
  let bugs := flat_map (endpoint_failures nds) (edges network) in
  add_topology network =
  Ok (mkNetwork nds (has_degree network)
        (filter (fun e => negb (mem (edge_id e) bugs))
                (map (with_topology nds) (edges network))))
     [MsgNotConnected (Z.of_nat (List.length bugs))].
Proof.
  intros nds bugs. unfold add_topology.
  rewrite topology_loop_spec. cbn [app].
  fold nds. fold bugs.
  cbn [bind say ret app].
  do 3 f_equal.
  rewrite assign_map.
  rewrite (assign_map_map (fun e t => set_ends e (from_id e) t)).
  reflexivity.
Qed.

(** An edge that survives [add_topology] refers to nodes of the table. *)
Lemma add_topology_closed (network out : Network) (msgs : list Msg) :
  add_topology network = Ok out msgs ->
  nodes out = nodes network /\ closed_references out.
Proof.
  rewrite add_topology_unfold. intros H. injection H as <- _.
  split; [reflexivity |].
  intros e' He'. cbn [nodes edges] in *.
  apply filter_In in He' as [He' Hkeep].
  apply in_map_iff in He' as [e [<- He]].
  apply negb_true_iff in Hkeep. cbn [edge_id with_topology set_ends] in Hkeep.
  assert (Hno : ~ In (edge_id e) (endpoint_failures (nodes network) e)).
  { intros Hin.
    assert (Hm : mem (edge_id e)
                   (flat_map (endpoint_failures (nodes network)) (edges network))
                 = true).
    { apply existsb_exists. exists (edge_id e). split; [| apply Z.eqb_refl].
      apply in_flat_map. exists e. now split. }
    congruence. }
  unfold endpoint_failures in Hno. cbn [from_id to_id with_topology set_ends].
  destruct (from_node (nodes network) e) as [nf |] eqn:Ef;
    [| exfalso; apply Hno; now left].
  destruct (to_node (nodes network) e) as [nt |] eqn:Et;
    [| exfalso; apply Hno; now left].
  split; cbn [id_or_minus_one]; apply in_map; eapply resolves_in; eauto.
Qed.

End TopologyProps.

(** ** The passes of the pipeline keep references in range *)

Section PipelineProps.
Context {G : GeometryLib} {S : SetOrder}.

Lemma add_ids_node_ids (raw : RawNetwork) :
  map node_id (nodes (add_ids raw)) = range (List.length (raw_nodes raw)).
Proof.
  unfold add_ids. cbn [nodes]. rewrite map_map. cbn [node_id].
  rewrite <- (map_map fst (fun x => x)), map_id.
  apply map_fst_combine. apply range_length.
Qed.

Lemma closed_references_nonneg (network : Network) (n : nat) :
  map node_id (nodes network) = range n ->
  closed_references network -> nonneg_ends (edges network).
Proof.
  intros Hids Hc e He. destruct (Hc e He) as [Hf Ht].
  rewrite Hids in Hf, Ht. apply in_range in Hf, Ht. lia.
Qed.

Lemma drop_hanging_nodes_edges network tolerance out msgs :
  drop_hanging_nodes network tolerance = Ok out msgs ->
  forall e', In e' (edges out) ->
    exists e, In e (edges network) /\
              from_id e' = from_id e /\ to_id e' = to_id e.
Proof.
  unfold drop_hanging_nodes. intros H. peel H.
  destruct v1 as [deg1 drop].
  destruct (Nat.eqb _ _); [| discriminate].
  apply ret_ok in H as [<- _]. cbn [edges].
  intros e' He'. apply assign_in in He' as (r & c & Hr & _ & ->).
  apply filter_In in Hr as [Hr _]. exists r. now repeat split.
Qed.

Lemma drop_hanging_nodes_nonneg network tolerance out msgs :
  drop_hanging_nodes network tolerance = Ok out msgs ->
  nonneg_ends (edges network) -> nonneg_ends (edges out).
Proof.
  intros H Hn e' He'.
  destruct (drop_hanging_nodes_edges _ _ _ _ H e' He') as (e & He & -> & ->).
  now apply Hn.
Qed.

Lemma renumber_nonneg (ids : list Z) (x : Z) :
  0 <= x -> 0 <= renumber (dict_zip ids (range (List.length ids))) x.
Proof.
  intros Hx. unfold renumber.
  destruct (dict_get _ x) as [v |] eqn:E; [| exact Hx].
  now apply dict_zip_get in E as [Hv _].
Qed.

Lemma reset_ids_node_ids (network : Network) :
  map node_id (nodes (reset_ids network)) = range (List.length (nodes network)).
Proof.
  rewrite reset_ids_unfold. cbn [nodes].
  apply assign_map_new; [reflexivity | rewrite range_length; lia].
Qed.

Lemma reset_ids_nonneg (network : Network) :
  nonneg_ends (edges network) -> nonneg_ends (edges (reset_ids network)).
Proof.
  intros Hn e' He'. rewrite reset_ids_unfold in He'. cbn [edges] in He'.
  apply assign_in in He' as (r & c & Hr & _ & ->).
  apply in_map_iff in Hr as [e [<- He]]. cbn [from_id to_id set_edge_id set_ends].
  destruct (Hn e He) as [Hf Ht]. unfold id_dict_of.
  rewrite <- (length_map node_id).
  split; now apply renumber_nonneg.
Qed.

Lemma add_distances_same network out msgs :
  add_distances network = Ok out msgs -> out = network.
Proof.
  unfold add_distances. intros H. peel H.
  destruct (can_measure _ _); [| discriminate].
  now apply ret_ok in H as [<- _].
Qed.

Lemma add_travel_time_same network out msgs :
  add_travel_time network = Ok out msgs -> out = network.
Proof.
  unfold add_travel_time. intros H. peel H.
  apply add_distances_same in Hcall as ->.
  destruct (forallb _ _); [| discriminate].
  now apply ret_ok in H as [<- _].
Qed.

(** The removal list of [quickFix] only grows, and it receives every row
    with a reference above the largest node id. *)
Lemma quickFix_loop_spec node_ids rows rem rem' msgs :
  quickFix_loop node_ids rows rem = Ok rem' msgs ->
  incl rem rem' /\
  forall e, In e rows ->
    exists m, py_max node_ids = Some m /\
      (m < from_id e \/ m < to_id e -> In (edge_id e) rem').
Proof.
  revert rem rem' msgs.
  induction rows as [|edge rows IH]; intros rem rem' msgs H; simpl in H.
  - apply ret_ok in H as [<- _]. split; [apply incl_refl | intros e []].
  - peel H. apply of_option_ok in Hcall0 as [Hmax _].
    apply IH in H as [Hincl Hrows].
    assert (Hrem : incl rem v).
    { destruct (negb _); injection Hcall as <- _;
        [now apply incl_appl, incl_refl | apply incl_refl]. }
    split.
    + intros x Hx. apply Hincl.
      destruct (_ || _); [apply in_or_app; left |]; now apply Hrem.
    + intros e [<- | He]; [| now apply Hrows].
      exists v0. split; [exact Hmax |]. intros Hbig. apply Hincl.
      assert (Hb : (from_id edge >? v0) || (to_id edge >? v0) = true).
      { apply orb_true_iff. destruct Hbig; [left | right]; apply Z.gtb_lt; lia. }
      rewrite Hb. apply in_or_app. right. now left.
Qed.

Lemma quickFix_in_range (net out : Network) (msgs : list Msg) (n : nat) :
  map node_id (nodes net) = range n ->
  nonneg_ends (edges net) ->
  quickFix net = Ok out msgs ->
  nodes out = nodes net /\ closed_references out.
Proof.
  intros Hids Hn. unfold quickFix. intros H. peel H.
  apply ret_ok in H as [<- _]. split; [reflexivity |].
  apply quickFix_loop_spec in Hcall as [_ Hrows].
  intros e' He'. cbn [nodes edges] in *.
  apply assign_in in He' as (e & c & He & _ & ->).
  apply filter_In in He as [He Hkeep].
  cbn [from_id to_id set_edge_id].
  destruct (Hrows e He) as (m & Hmax & Hbig).
  destruct (Hn e He) as [Hf Ht].
  assert (Hm : m < Z.of_nat n).
  { rewrite Hids in Hmax. eapply py_max_bound; [exact Hmax |].
    intros x Hx. apply in_range in Hx. lia. }
  assert (Hsmall : ~ (m < from_id e \/ m < to_id e)).
  { intros Hb. apply Hbig in Hb.
    apply negb_true_iff in Hkeep.
    assert (mem (edge_id e) v = true)
      by (apply existsb_exists; exists (edge_id e); split; [exact Hb | apply Z.eqb_refl]).
    congruence. }
  rewrite Hids. split; apply in_range; lia.
Qed.

(** C1. Every edge of the network that [simplify_network_from_gdf]
    returns has its [from_id] and its [to_id] in the [id] column of the node
    table it returns. *)
Theorem simplify_references_resolve
    (fuel : nat) (gdf : list Feature) (net : Network) (msgs : list Msg) :
  simplify_network_from_gdf fuel gdf = Ok net msgs ->
  forall e, In e (edges net) ->
    In (from_id e) (map node_id (nodes net)) /\
    In (to_id e) (map node_id (nodes net)).
Proof.
  unfold simplify_network_from_gdf. intros H. peel H.
  rename v into roundabouts_cleaned, v0 into split, v1 into topo,
         v2 into pruned, v3 into merged, v4 into measured, v6 into fixed.
  (* topology: references are ids of the fresh node table *)
  destruct (add_topology_closed _ _ _ Hcall1) as [Hnodes1 Hclosed1].
  assert (Hids1 : map node_id (nodes topo)
                  = range (List.length (raw_nodes (add_endpoints split)))).
  { rewrite Hnodes1. apply add_ids_node_ids. }
  pose proof (closed_references_nonneg _ _ Hids1 Hclosed1) as Hn1.
  (* pruning and contraction keep them non-negative *)
  pose proof (drop_hanging_nodes_nonneg _ _ _ _ Hcall2 Hn1) as Hn2.
  pose proof (merge_2_nonneg _ _ _ _ _ Hn2 Hcall3) as Hn3.
  (* renumbering *)
  pose proof (reset_ids_nonneg _ Hn3) as Hn4.
  pose proof (reset_ids_node_ids merged) as Hids4.
  apply add_distances_same in Hcall4. subst measured.
  (* the final filter *)
  assert (Hq : nodes fixed = nodes (reset_ids merged) /\ closed_references fixed).
  { eapply (quickFix_in_range (merge_all_multi (reset_ids merged)));
      [| | exact Hcall6].
    - exact Hids4.
    - intros e He. cbn [merge_all_multi edges] in He.
      apply in_map_iff in He as [e0 [<- He0]].
      cbn [from_id to_id set_geometry]. now apply Hn4. }
  apply add_travel_time_same in H. subst net.
  exact (proj2 Hq).
Qed.

(** The tables [simplify_network_from_gdf] returns carry dense zero-based
    ids: the node ids and the edge ids are the row positions. *)
Theorem simplify_dense_ids
    (fuel : nat) (gdf : list Feature) (net : Network) (msgs : list Msg) :
  simplify_network_from_gdf fuel gdf = Ok net msgs ->
  map node_id (nodes net) = range (List.length (nodes net)) /\
  map edge_id (edges net) = range (List.length (edges net)).
Proof.
  unfold simplify_network_from_gdf. intros H. peel H.
  apply add_travel_time_same in H. subst net.
  match goal with
  | Hd : add_distances (reset_ids _) = Ok _ _ |- _ =>
      apply add_distances_same in Hd; subst
  end.
  match goal with
  | Hq : quickFix _ = Ok _ _ |- _ =>
      unfold quickFix in Hq; peel Hq; apply ret_ok in Hq as [<- _]
  end.
  cbn [nodes edges merge_all_multi]. split.
  - rewrite reset_ids_node_ids. f_equal.
    rewrite reset_ids_unfold. cbn [nodes].
    rewrite assign_length, range_length. lia.
  - rewrite assign_length, range_length, Nat.min_id.
    apply assign_map_new; [reflexivity | rewrite range_length; lia].
Qed.

End PipelineProps.

(** ** The builtin [min] with a key *)

Lemma Qltb_lt (a b : Q) : Qltb a b = true <-> (a < b)%Q.
Proof.
  unfold Qltb. rewrite negb_true_iff. split.
  - intros H. apply Qnot_le_lt. intros Hle.
    apply Qle_bool_iff in Hle. congruence.
  - intros H. destruct (Qle_bool b a) eqn:E; [| reflexivity].
    apply Qle_bool_iff in E. exfalso. exact (Qlt_not_le _ _ H E).
Qed.

Lemma Qltb_ge (a b : Q) : Qltb a b = false <-> (b <= a)%Q.
Proof.
  unfold Qltb. rewrite negb_false_iff. apply Qle_bool_iff.
Qed.

(** [min] returns the first of the entries whose key is least: no entry has
    a smaller key and every entry before it has a greater one. *)
Lemma py_min_from_spec {A} (key : A -> Q) (l : list A) (best : A) :
  (key (py_min_from key best l) <= key best)%Q /\
  (forall y, In y l -> (key (py_min_from key best l) <= key y)%Q) /\
  (py_min_from key best l = best \/
   exists i,
     nth_error l i = Some (py_min_from key best l) /\
     (key (py_min_from key best l) < key best)%Q /\
     forall j y, (j < i)%nat -> nth_error l j = Some y ->
       (key (py_min_from key best l) < key y)%Q).
Proof.
  revert best. induction l as [|x l IH]; intros best; cbn [py_min_from].
  - split; [apply Qle_refl |]. split; [intros y [] | now left].
  - destruct (Qltb (key x) (key best)) eqn:E.
    + apply Qltb_lt in E.
      destruct (IH x) as (Hb & Hall & Hpos).
      set (r := py_min_from key x l) in *.
      split; [apply Qlt_le_weak; eapply Qle_lt_trans; eauto |].
      split.
      * intros y [<- | Hy]; [exact Hb | now apply Hall].
      * right. destruct Hpos as [Hr | (i & Hi & Hlt & Hbefore)].
        -- exists O. rewrite Hr. split; [reflexivity |].
           split; [exact E | intros j y Hj; lia].
        -- exists (Datatypes.S i). split; [exact Hi |].
           split; [eapply Qlt_trans; eauto |].
           intros [|j] y Hj Hy; cbn in Hy.
           ++ injection Hy as <-. exact Hlt.
           ++ eapply Hbefore; [| exact Hy]. lia.
    + apply Qltb_ge in E.
      destruct (IH best) as (Hb & Hall & Hpos).
      set (r := py_min_from key best l) in *.
      split; [exact Hb |]. split.
      * intros y [<- | Hy]; [eapply Qle_trans; eauto | now apply Hall].
      * destruct Hpos as [Hr | (i & Hi & Hlt & Hbefore)]; [now left |].
        right. exists (Datatypes.S i). split; [exact Hi |].
        split; [exact Hlt |].
        intros [|j] y Hj Hy; cbn in Hy.
        -- injection Hy as <-. eapply Qlt_le_trans; eauto.
        -- eapply Hbefore; [| exact Hy]. lia.
Qed.

Lemma py_min_spec {A} (key : A -> Q) (l : list A) (x : A) :
  py_min key l = Some x ->
  exists i,
    nth_error l i = Some x /\
    (forall y, In y l -> (key x <= key y)%Q) /\
    (forall j y, (j < i)%nat -> nth_error l j = Some y -> (key x < key y)%Q).
Proof.
  destruct l as [|x0 l]; cbn [py_min]; [discriminate |].
  intros H. injection H as <-.
  destruct (py_min_from_spec key l x0) as (Hb & Hall & Hpos).
  set (r := py_min_from key x0 l) in *.
  destruct Hpos as [Hr | (i & Hi & Hlt & Hbefore)].
  - exists O. rewrite Hr. split; [reflexivity |]. split.
    + intros y [<- | Hy]; [apply Qle_refl |].
      rewrite <- Hr. now apply Hall.
    + intros j y Hj. lia.
  - exists (Datatypes.S i). split; [exact Hi |]. split.
    + intros y [<- | Hy]; [exact Hb | now apply Hall].
    + intros [|j] y Hj Hy; cbn in Hy.
      * injection Hy as <-. exact Hlt.
      * eapply Hbefore; [| exact Hy]. lia.
Qed.

Lemma nth_error_combine_seq {A} (l : list A) (s k : nat) :
  nth_error (combine (seq s (List.length l)) l) k
  = option_map (pair (s + k)%nat) (nth_error l k).
Proof.
  revert s k. induction l as [|x l IH]; intros s [|k]; cbn; try reflexivity.
  - now rewrite Nat.add_0_r.
  - rewrite IH. now rewrite Nat.add_succ_r.
Qed.

(** ** add_vertex *)

Section AddVertexProps.
Context {G : GeometryLib}.

Lemma in_combine_seq {A} (l : list A) (s n i : nat) (x : A) :
  In (i, x) (combine (seq s n) l) ->
  (s <= i)%nat /\ nth_error l (i - s) = Some x.
Proof.
  revert s n. induction l as [|y l IH]; intros s [|n] H; simpl in H;
    try contradiction.
  destruct H as [H | H].
  - injection H as <- <-. split; [lia |]. now rewrite Nat.sub_diag.
  - apply IH in H as [Hle Hn]. split; [lia |].
    replace (i - s)%nat with (Datatypes.S (i - Datatypes.S s)) by lia. exact Hn.
Qed.

(** On a line with a vertex the nearest-vertex search returns the position
    of one of its vertices. *)
Lemma nearest_vertex_idx_on_line_ok (point : Coord) (line : list Coord) :
  line <> [] ->
  exists v_idx at_v,
    nearest_vertex_idx_on_line point line = Ok v_idx [] /\
    nth_error line v_idx = Some at_v.
Proof.
  intros Hne. unfold nearest_vertex_idx_on_line.
  set (items := map _ _).
  destruct (py_min snd items) as [[i d] |] eqn:E.
  - apply py_min_in in E. unfold items in E.
    apply in_map_iff in E as [[i' c] [Heq Hin]]. cbn in Heq.
    injection Heq as -> _.
    apply in_combine_seq in Hin as [_ Hn]. rewrite Nat.sub_0_r in Hn.
    exists i, c. split; [reflexivity | exact Hn].
  - exfalso. destruct line as [|c line]; [congruence |].
    unfold items in E. simpl in E. discriminate.
Qed.

(** The index the search returns is that of a vertex of the line which no
    vertex undercuts in distance to the point and which every vertex before
    it exceeds. *)
Lemma nearest_vertex_idx_on_line_least (point : Coord) (line : list Coord)
    (i : nat) (out : list Msg) :
  nearest_vertex_idx_on_line point line = Ok i out ->
  out = [] /\
  exists c,
    nth_error line i = Some c /\
    (forall j c', nth_error line j = Some c' ->
       (distance (Point point) (Point c)
        <= distance (Point point) (Point c'))%Q) /\
    (forall j c', (j < i)%nat -> nth_error line j = Some c' ->
       (distance (Point point) (Point c)
        < distance (Point point) (Point c'))%Q).
Proof.
  unfold nearest_vertex_idx_on_line.
  set (item := fun ic : nat * Coord =>
                 (fst ic, distance (Point point) (Point (snd ic)))).
  set (items := map item (combine (seq 0 (List.length line)) line)).
  assert (Hitem : forall k, nth_error items k
            = option_map (fun c => (k, distance (Point point) (Point c)))
                         (nth_error line k)).
  { intros k. unfold items. rewrite nth_error_map, nth_error_combine_seq.
    destruct (nth_error line k); reflexivity. }
  destruct (py_min snd items) as [[i0 d] |] eqn:E; [| discriminate].
  cbn [of_option ret bind fst app]. intros H. injection H as <- <-.
  split; [reflexivity |].
  destruct (py_min_spec _ _ _ E) as (k & Hk & Hall & Hbefore).
  rewrite Hitem in Hk.
  destruct (nth_error line k) as [c |] eqn:Ec; [| discriminate].
  cbn in Hk. injection Hk as <- <-.
  exists c. split; [exact Ec |]. split.
  - intros j c' Hj.
    apply (Hall (j, distance (Point point) (Point c'))).
    apply (nth_error_In items j). rewrite Hitem, Hj. reflexivity.
  - intros j c' Hlt Hj.
    apply (Hbefore j (j, distance (Point point) (Point c')) Hlt).
    rewrite Hitem, Hj. reflexivity.
Qed.

(** C10. For a line with at least one vertex, [add_vertex] looks at the
    nearest vertex of the line: the first of its vertices at the least
    distance from the point.  When the point has the coordinates of that
    vertex the line is returned as it is.  Otherwise the result is the line
    with the point inserted at one position, next to that vertex (after it
    when it is the first vertex, before it when it is the last): one vertex
    more, the old ones in their order. *)
Theorem add_vertex_inserts_once (line : list Coord) (point : Coord) :
  line <> [] ->
  exists v_idx at_v,
    nearest_vertex_idx_on_line point line = Ok v_idx [] /\
    nth_error line v_idx = Some at_v /\
    (forall j c, nth_error line j = Some c ->
       (distance (Point point) (Point at_v)
        <= distance (Point point) (Point c))%Q) /\
    (forall j c, (j < v_idx)%nat -> nth_error line j = Some c ->
       (distance (Point point) (Point at_v)
        < distance (Point point) (Point c))%Q) /\
    (coord_eqb point at_v = true -> add_vertex line point = Ok line []) /\
    (coord_eqb point at_v = false ->
     exists k,
       (v_idx <= k <= v_idx + 1)%nat /\
       (k <= List.length line)%nat /\
       (v_idx = 0%nat -> k = 1%nat) /\
       (v_idx <> 0%nat -> v_idx = (List.length line - 1)%nat -> k = v_idx) /\
       add_vertex line point = Ok (firstn k line ++ point :: skipn k line) [] /\
       List.length (firstn k line ++ point :: skipn k line)
       = Datatypes.S (List.length line)).
Proof.
  intros Hne.
  destruct (nearest_vertex_idx_on_line_ok point line Hne) as (v & at_v & Hv & Hn).
  destruct (nearest_vertex_idx_on_line_least point line v [] Hv)
    as (_ & c & Hc & Hleast & Hfirst).
  rewrite Hn in Hc. injection Hc as <-.
  exists v, at_v.
  split; [exact Hv |]. split; [exact Hn |].
  split; [exact Hleast |]. split; [exact Hfirst |]. split.
  - intros Heq. unfold add_vertex. rewrite Hv. cbn [bind].
    rewrite Hn. cbn [of_option ret bind]. rewrite Heq. reflexivity.
  - intros Hneq.
    assert (Hlt : (v < List.length line)%nat) by (apply nth_error_Some; congruence).
    assert (Hlen : forall k, (k <= List.length line)%nat ->
              List.length (firstn k line ++ point :: skipn k line)
              = Datatypes.S (List.length line)).
    { intros k Hk. rewrite length_app, length_firstn. cbn [List.length].
      rewrite length_skipn. lia. }
    unfold add_vertex. rewrite Hv. cbn [bind].
    rewrite Hn. cbn [of_option ret bind]. rewrite Hneq.
    destruct (Nat.eqb_spec v 0) as [-> | Hv0].
    + exists 1%nat. cbn [ret bind app]. unfold list_insert.
      repeat split; try lia; apply Hlen; lia.
    + destruct (Nat.eqb_spec v (List.length line - 1)) as [Hlast | Hmid].
      * exists v. cbn [ret bind app]. unfold list_insert.
        repeat split; try lia; apply Hlen; lia.
      * destruct (nth_error line (v - 1)) as [before |] eqn:Eb.
        2:{ apply nth_error_None in Eb. lia. }
        destruct (nth_error line (v + 1)) as [after |] eqn:Ea.
        2:{ apply nth_error_None in Ea. lia. }
        cbn [of_option ret bind app].
        destruct (Qltb _ _); cbn [ret bind app]; unfold list_insert.
        -- exists v. repeat split; try lia; apply Hlen; lia.
        -- exists (v + 1)%nat. repeat split; try lia; apply Hlen; lia.
Qed.

End AddVertexProps.

(** ** clean_roundabouts *)

Lemma coord_eqb_iff (a b : Coord) :
  coord_eqb a b = true <-> (fst a == fst b /\ snd a == snd b)%Q.
Proof. unfold coord_eqb. rewrite andb_true_iff, !Qeq_bool_iff. tauto. Qed.

Lemma coord_eqb_sym (a b : Coord) : coord_eqb a b = true -> coord_eqb b a = true.
Proof.
  rewrite !coord_eqb_iff. intros [H1 H2]. split; now symmetry.
Qed.

Lemma coord_eqb_trans (a b c : Coord) :
  coord_eqb a b = true -> coord_eqb b c = true -> coord_eqb a c = true.
Proof.
  rewrite !coord_eqb_iff. intros [H1 H2] [H3 H4].
  split; eapply Qeq_trans; eauto.
Qed.

Lemma filter_map_comm {A B} (f : B -> bool) (h : A -> B) (l : list A) :
  filter f (map h l) = map h (filter (fun x => f (h x)) l).
Proof.
  induction l as [|x l IH]; simpl; [reflexivity |].
  destruct (f (h x)); simpl; now rewrite IH.
Qed.

Lemma mem_in (x : Z) (l : list Z) : mem x l = true <-> In x l.
Proof.
  unfold mem. rewrite existsb_exists. split.
  - intros [y [Hy E]]. apply Z.eqb_eq in E. now subst.
  - intros H. exists x. split; [exact H | apply Z.eqb_refl].
Qed.

(** Labels within the frame all fetch a row. *)
Lemma at_labels_all {A} (rows : list A) (d : A) (labels : list Z) :
  (forall l, In l labels -> 0 <= l < Z.of_nat (List.length rows)) ->
  all_some (map (at_label rows) labels)
  = Some (map (fun l => nth (Z.to_nat l) rows d) labels).
Proof.
  induction labels as [|l labels IH]; intros H; simpl; [reflexivity |].
  rewrite IH by (intros; apply H; now right).
  assert (Hl := H l (or_introl eq_refl)).
  unfold at_label.
  destruct (Z.leb_spec 0 l), (Z.ltb_spec l (Z.of_nat (List.length rows)));
    try lia. simpl.
  rewrite (nth_error_nth' rows d) by lia. reflexivity.
Qed.

Lemma last_cons_default {A} (x : A) (l : list A) (d : A) :
  List.last (x :: l) d = List.last l x.
Proof.
  revert x d. induction l as [|y l IH]; intros x d; [reflexivity |].
  change (List.last (x :: y :: l) d) with (List.last (y :: l) d).
  now rewrite (IH y d), (IH y x).
Qed.

Section RoundaboutProps.
Context {G : GeometryLib}.

Lemma snap_to_centroid_line (c : Coord) (cs : list Coord) :
  cs <> [] ->
  snap_to_centroid c (LineString cs) (LineString cs)
  = Ok (LineString (spliced c cs)) [].
Proof.
  intros Hne. destruct cs as [|s r]; [congruence |].
  unfold snap_to_centroid, spliced.
  cbn [get_point_first get_point_last get_coordinates].
  destruct (Qltb _ _); unfold linestrings.
  - reflexivity.
  - rewrite length_app. cbn [List.length].
    replace (_ <? 2)%nat with false; [reflexivity |].
    symmetry. apply Nat.ltb_ge. lia.
Qed.

(** With the centroid spliced on, an open line stays open. *)
Lemma spliced_open (c : Coord) (cs : list Coord) :
  nothing_nearer -> only_self_nearest ->
  cs <> [] -> closedb cs = false ->
  closedb (spliced c cs) = false.
Proof.
  intros Hnn Hos Hne Hopen. destruct cs as [|s r]; [congruence |].
  unfold spliced. cbn [closedb] in Hopen.
  destruct (Qltb _ _) eqn:Hcloser.
  - cbn [closedb]. rewrite last_cons_default.
    destruct (coord_eqb c (List.last r s)) eqn:E; [| reflexivity].
    apply coord_eqb_sym in E.
    rewrite (Hnn _ _ s E) in Hcloser. discriminate.
  - change ((s :: r) ++ [c]) with (s :: (r ++ [c])). cbn [closedb].
    rewrite last_last.
    destruct (coord_eqb s c) eqn:E; [| reflexivity].
    pose proof (Hos _ _ _ E Hcloser) as Hend.
    apply coord_eqb_sym in Hend.
    rewrite (coord_eqb_trans _ _ _ E Hend) in Hopen. discriminate.
Qed.

(** The splice puts the centroid at one end. *)
Lemma spliced_ends (c : Coord) (cs : list Coord) :
  spliced c cs = c :: cs \/ spliced c cs = cs ++ [c].
Proof.
  destruct cs as [|s r]; [now left |]. unfold spliced.
  destruct (Qltb _ _); auto.
Qed.

Lemma find_roundabouts_complete (rows : list Feature) (p : Z) (f : Feature) :
  In (p, f) (combine (range (List.length rows)) rows) ->
  is_ring (feat_geometry f) = true ->
  In (p, f) (find_roundabouts rows).
Proof.
  intros Hin Hring. unfold find_roundabouts. apply filter_In. now split.
Qed.

Lemma combine_map_r {A B} (h : A -> B) (l : list A) :
  combine l (map h l) = map (fun x => (x, h x)) l.
Proof. induction l; simpl; congruence. Qed.

(** The series [_intersects_pyg] returns on the edge table itself. *)
Lemma intersects_series (geom : Geometry) (rows : list Feature) :
  let gdf := map feat_geometry rows in
  _intersects_pyg geom gdf (tree_query_intersects gdf)
  = Ok (map (fun l => (l, nth (Z.to_nat l) gdf Missing))
            (tree_query_intersects gdf (buffer_or_self geom)))
       [].
Proof.
  intros gdf. unfold _intersects_pyg.
  rewrite (at_labels_all gdf Missing)
    by (intros l Hl; eapply tree_query_intersects_positions; exact Hl).
  cbn [of_option ret bind app]. now rewrite combine_map_r.
Qed.

Lemma at_label_geometry (rows : list Feature) (l : Z) (e : Feature) :
  at_label rows l = Some e ->
  nth (Z.to_nat l) (map feat_geometry rows) Missing = feat_geometry e.
Proof.
  intros H. apply at_label_some in H as [_ Hn].
  apply nth_error_nth. now rewrite nth_error_map, Hn.
Qed.

(** A touched edge whose [osm_id] has not been seen yet adds its rerouted
    row. *)
Lemma snap_step_fresh rows c l e cs s :
  at_label rows l = Some e ->
  feat_geometry e = LineString cs -> cs <> [] ->
  mem (feat_osm_id e) (new_edge_id s) = false ->
  snap_step rows c (l, feat_geometry e) s
  = Ok (mkSnap (new_edge s ++ [rerouted c e]) (remove_edge s ++ [l])
               (new_edge_id s ++ [feat_osm_id e]))
       [].
Proof.
  intros Hl Hg Hne Hfresh. unfold snap_step. cbn [fst snd].
  rewrite (at_label_iloc _ _ _ Hl). cbn [of_option ret bind].
  unfold rerouted. rewrite Hg. cbn [get_coordinates].
  rewrite (snap_to_centroid_line c cs Hne). cbn [bind].
  rewrite Hfresh. reflexivity.
Qed.

(** C6, amended. In a table with one ring, which the index finds together
    with exactly two other edges, both open line strings and with distinct
    [osm_id]s, [clean_roundabouts] returns the untouched rows followed by the
    two touched edges rerouted: the ring's centroid spliced in front of the
    edge when its first vertex is the nearer one and behind it otherwise.
    No row of the result is a ring. *)
Theorem clean_roundabouts_one_ring
    (rows : list Feature) (r i j : Z) (ring ei ej : Feature)
    (ci cj : list Coord) :
  ring_is_closed -> nothing_nearer -> only_self_nearest ->
  find_roundabouts rows = [(r, ring)] ->
  In r (tree_query_intersects (map feat_geometry rows)
                              (buffer_or_self (feat_geometry ring))) ->
  touching rows r ring = [i; j] ->
  at_label rows i = Some ei -> at_label rows j = Some ej ->
  feat_geometry ei = LineString ci -> feat_geometry ej = LineString cj ->
  ci <> [] -> cj <> [] ->
  closedb ci = false -> closedb cj = false ->
  feat_osm_id ei <> feat_osm_id ej ->
  let c := centroid (feat_geometry ring) in
  let out := rows_outside [r; i; j] rows ++ [rerouted c ei; rerouted c ej] in
  clean_roundabouts rows = Ok out [] /\
  (forall f, In f out -> is_ring (feat_geometry f) = false) /\
  (spliced c ci = c :: ci \/ spliced c ci = ci ++ [c]) /\
  (spliced c cj = c :: cj \/ spliced c cj = cj ++ [c]).
Proof.
  intros Hclosed Hnn Hos Hfind Hself Htouch Hi Hj Hgi Hgj Hnei Hnej Hoi Hoj Hosm
         c out.
  split; [| split; [| split; apply spliced_ends]].
  - unfold clean_roundabouts. rewrite Hfind.
    cbn [roundabout_loop]. unfold roundabout_step. cbn [fst snd].
    rewrite intersects_series. cbn [bind].
    unfold series_drop. rewrite map_map. cbn [fst]. rewrite map_id.
    rewrite (proj2 (mem_in _ _) Hself).
    rewrite filter_map_comm. cbn [fst].
    fold (touching rows r ring). rewrite Htouch.
    cbn [map ret bind snap_loop new_edge remove_edge new_edge_id app].
    rewrite (at_label_geometry _ _ _ Hi), (at_label_geometry _ _ _ Hj).
    fold c.
    rewrite (snap_step_fresh rows c i ei ci _ Hi Hgi Hnei) by reflexivity.
    cbn [bind new_edge remove_edge new_edge_id app].
    rewrite (snap_step_fresh rows c j ej cj _ Hj Hgj Hnej).
    2:{ cbn. apply orb_false_iff. split; [| reflexivity].
        apply Z.eqb_neq. congruence. }
    reflexivity.
  - intros f Hf. unfold out in Hf. apply in_app_or in Hf as [Hf | Hf].
    + unfold rows_outside in Hf. apply in_map_iff in Hf as [[p f'] [Hp Hin]].
      cbn in Hp. subst f'. apply filter_In in Hin as [Hin Hout].
      destruct (is_ring (feat_geometry f)) eqn:Hring; [| reflexivity].
      exfalso.
      pose proof (find_roundabouts_complete rows p f Hin Hring) as Hr.
      rewrite Hfind in Hr. destruct Hr as [Hr | []]. injection Hr as <- <-.
      cbn in Hout. rewrite Z.eqb_refl in Hout. discriminate.
    + assert (Hnew : forall e cs, feat_geometry e = LineString cs ->
                cs <> [] -> closedb cs = false ->
                is_ring (feat_geometry (rerouted c e)) = false).
      { intros e cs Hg Hne Hopen.
        destruct (is_ring _) eqn:Hring; [| reflexivity].
        apply Hclosed in Hring. unfold rerouted in Hring.
        cbn [feat_geometry get_coordinates] in Hring. rewrite Hg in Hring.
        cbn [get_coordinates] in Hring.
        now rewrite (spliced_open c cs Hnn Hos Hne Hopen) in Hring. }
      destruct Hf as [<- | [<- | []]]; eauto.
Qed.

End RoundaboutProps.

(** ** The label-based writes of merge_2 find their rows *)

Lemma bind_supported {A B} (m : result A) (f : A -> result B) :
  supported m -> (forall a o, m = Ok a o -> supported (f a)) ->
  supported (bind m f).
Proof.
  unfold supported, bind. intros Hm Hf.
  destruct m as [a o | e | |]; try congruence.
  specialize (Hf a o eq_refl). destruct (f a); congruence.
Qed.

Lemma of_option_supported {A} (e : exn) (o : option A) : supported (of_option e o).
Proof. destruct o; discriminate. Qed.

Lemma ret_supported {A} (a : A) : supported (ret a).
Proof. discriminate. Qed.

Ltac supported_step :=
  repeat first
    [ apply of_option_supported
    | apply ret_supported
    | discriminate
    | apply bind_supported; [| intros ? ? _]
    | match goal with
      | |- supported (if ?c then _ else _) => destruct c
      | |- supported (match ?o with Some _ => _ | None => _ end) => destruct o
      | |- supported (match ?p with (_, _) => _ end) => destruct p
      | |- supported (match ?l with [] => _ | _ :: _ => _ end) => destruct l
      end ].

Lemma bincount_supported x n : supported (bincount x n).
Proof. unfold bincount. supported_step. Qed.

Lemma np_add_supported a b : supported (np_add a b).
Proof.
  unfold np_add. destruct (Nat.eqb _ _); [discriminate |].
  destruct a as [|x [|x' a]]; destruct b as [|y [|y' b]]; discriminate.
Qed.

Lemma calculate_degree_supported network : supported (calculate_degree network).
Proof.
  unfold calculate_degree.
  supported_step; try apply bincount_supported; try apply np_add_supported.
Qed.

Section SupportedMerge.
Context {G : GeometryLib} {S : SetOrder}.
Variable nodGeom : list Geometry.
Variable edg_sindex : Geometry -> list Z.

Lemma walk_supported step fuel a :
  (forall a, supported (step a)) -> supported (walk step fuel a).
Proof.
  intros Hs. revert a. induction fuel as [|fuel IH]; intros a; simpl;
    [discriminate |].
  apply bind_supported; [apply Hs |]. intros [a' |] o _; [apply IH | discriminate].
Qed.

Lemma walk1_step_supported m a : supported (walk1_step nodGeom edg_sindex m a).
Proof. unfold walk1_step. supported_step. Qed.

Lemma walk2_step_supported m a : supported (walk2_step nodGeom edg_sindex m a).
Proof. unfold walk2_step. supported_step. Qed.

Lemma choose_paths_supported m nodeID :
  supported (choose_paths nodGeom edg_sindex m nodeID).
Proof. unfold choose_paths, find_closest_2_edges. supported_step. Qed.

(** A row whose id is its position is found under that label. *)
Lemma ids_are_positions_label (es : list Edge) (e : Edge) :
  ids_are_positions es -> In e es -> at_label es (edge_id e) <> None.
Proof.
  unfold ids_are_positions. intros Hids Hin.
  apply (in_map edge_id) in Hin. rewrite Hids in Hin. apply in_range in Hin.
  unfold at_label.
  destruct (Z.leb_spec 0 (edge_id e)),
           (Z.ltb_spec (edge_id e) (Z.of_nat (List.length es))); try lia.
  simpl. apply nth_error_Some. lia.
Qed.

Lemma list_set_map_keep {A B} (p : A -> B) (l : list A) (k : nat) (x v : A) :
  nth_error l k = Some x -> p v = p x -> map p (list_set l k v) = map p l.
Proof.
  revert k. induction l as [|y l IH]; intros [|k] Hn Hp; simpl in *;
    try discriminate.
  - injection Hn as ->. now rewrite Hp.
  - f_equal. now apply IH.
Qed.

Lemma write_merged_ids cur label g f t cur' out :
  write_merged cur label g f t = Ok cur' out ->
  map edge_id cur' = map edge_id cur /\ List.length cur' = List.length cur.
Proof.
  unfold write_merged. destruct (at_label cur label) as [row |] eqn:E;
    [| discriminate].
  intros H. apply ret_ok in H as [<- _]. apply at_label_some in E as [_ Hn].
  split; [| apply list_set_length].
  eapply list_set_map_keep; [exact Hn | reflexivity].
Qed.

Lemma finish_attempt_ids print_err m info a m' out :
  finish_attempt print_err m info a = Ok m' out ->
  ids_are_positions (edg m) -> ids_are_positions (edg m').
Proof.
  unfold finish_attempt. intros H Hids. peel H.
  destruct (get_type_id _ =? 1).
  - peel H. apply ret_ok in H as [<- _]. cbn [edg].
    match goal with
    | Hw : write_merged _ _ _ _ _ = Ok _ _ |- _ =>
        apply write_merged_ids in Hw as [Hw1 Hw2]
    end.
    unfold ids_are_positions in *. now rewrite Hw1, Hw2.
  - peel H. apply ret_ok in H as [<- _]. exact Hids.
Qed.

Lemma finish_attempt_supported print_err m info a :
  at_label (edg m) info <> None ->
  supported (finish_attempt print_err m info a).
Proof.
  intros Hl. unfold finish_attempt, multilinestrings, write_merged.
  destruct (multilinestring_parts _); [| discriminate].
  cbn [bind ret].
  destruct (get_type_id _ =? 1).
  - destruct (at_label (edg m) info); [| congruence].
    cbn [bind ret]. destruct (zero_degrees _ _); discriminate.
  - destruct print_err; [| discriminate].
    destruct (at_label (edg m) info); discriminate.
Qed.

Lemma merge_2_body_supported print_err fuel m nodeID :
  ids_are_positions (edg m) ->
  supported (merge_2_body nodGeom edg_sindex print_err fuel m nodeID).
Proof.
  intros Hids. unfold merge_2_body.
  apply bind_supported; [apply choose_paths_supported |].
  intros [[e1 e2] |] o Hp; [| discriminate].
  destruct (_ =? _); [discriminate |].
  apply bind_supported;
    [apply walk_supported; intros; apply walk1_step_supported |].
  intros a1 o1 _.
  apply bind_supported;
    [apply walk_supported; intros; apply walk2_step_supported |].
  intros a2 o2 _.
  apply finish_attempt_supported.
  apply ids_are_positions_label; [exact Hids |].
  now apply choose_paths_in in Hp as [H1 _].
Qed.

Lemma merge_2_body_ids print_err fuel m nodeID m' out :
  merge_2_body nodGeom edg_sindex print_err fuel m nodeID = Ok m' out ->
  ids_are_positions (edg m) -> ids_are_positions (edg m').
Proof.
  unfold merge_2_body. intros H Hids. peel H.
  destruct v as [[e1 e2] |]; [| now apply ret_ok in H as [<- _]].
  destruct (_ =? _); [now apply ret_ok in H as [<- _] |].
  peel H. eapply finish_attempt_ids; eauto.
Qed.

Lemma merge_2_loop_supported print_err fuel m :
  ids_are_positions (edg m) ->
  supported (merge_2_loop nodGeom edg_sindex print_err fuel m).
Proof.
  revert m. induction fuel as [|fuel IH]; intros m Hids; simpl;
    [discriminate |].
  destruct (n2 m) as [|nodeID rest]; [discriminate |].
  apply bind_supported.
  - now apply merge_2_body_supported.
  - intros m1 o Hb. apply IH. eapply merge_2_body_ids; [exact Hb | exact Hids].
Qed.

End SupportedMerge.

Section SupportedPipeline.
Context {G : GeometryLib} {S : SetOrder}.

Lemma merge_2_supported fuel network print_err :
  ids_are_positions (edges network) ->
  supported (merge_2 fuel network print_err).
Proof.
  intros Hids. unfold merge_2.
  apply bind_supported.
  { destruct (has_degree network);
      [apply ret_supported | apply calculate_degree_supported]. }
  intros deg0 o _. cbv zeta.
  apply bind_supported; [apply of_option_supported |]. intros ids o1 _.
  apply bind_supported; [now apply merge_2_loop_supported |]. intros m o2 _.
  destruct (has_degree network); discriminate.
Qed.

Lemma drop_hanging_nodes_ids network tolerance out msgs :
  drop_hanging_nodes network tolerance = Ok out msgs ->
  ids_are_positions (edges out).
Proof.
  unfold drop_hanging_nodes. intros H. peel H.
  destruct v1 as [deg1 drop].
  destruct (Nat.eqb _ _); [| discriminate].
  apply ret_ok in H as [<- _]. cbn [edges]. unfold ids_are_positions.
  rewrite assign_length, range_length, Nat.min_id.
  apply assign_map_new; [reflexivity | rewrite range_length; lia].
Qed.

Lemma hanging_loop_supported tolerance rows deg0 drop :
  supported (hanging_loop tolerance rows deg0 drop).
Proof.
  revert deg0 drop. induction rows as [|d rows IH]; intros deg0 drop; simpl;
    [discriminate |].
  apply bind_supported; [unfold hanging_step; supported_step |].
  intros [deg1 drop1] o _. apply IH.
Qed.

Lemma drop_hanging_nodes_supported network tolerance :
  supported (drop_hanging_nodes network tolerance).
Proof.
  unfold drop_hanging_nodes.
  apply bind_supported.
  { destruct (has_degree network);
      [apply ret_supported | apply calculate_degree_supported]. }
  intros deg0 o _.
  apply bind_supported; [apply of_option_supported |]. intros degEd o1 _.
  apply bind_supported; [apply hanging_loop_supported |].
  intros [deg1 drop] o2 _. destruct (Nat.eqb _ _); discriminate.
Qed.

Lemma add_topology_supported network : supported (add_topology network).
Proof. rewrite add_topology_unfold. discriminate. Qed.

Lemma snap_to_centroid_supported c a b : supported (snap_to_centroid c a b).
Proof. unfold snap_to_centroid, linestrings. supported_step. Qed.

Lemma snap_loop_supported rows c es s : supported (snap_loop rows c es s).
Proof.
  revert s. induction es as [|e es IH]; intros s; simpl; [discriminate |].
  apply bind_supported; [| intros; apply IH].
  unfold snap_step.
  supported_step; apply snap_to_centroid_supported.
Qed.

Lemma roundabout_loop_supported rows sindex rs s :
  supported (roundabout_loop rows sindex rs s).
Proof.
  revert s. induction rs as [|r rs IH]; intros s; simpl; [discriminate |].
  apply bind_supported; [| intros; apply IH].
  unfold roundabout_step, _intersects_pyg, series_drop.
  supported_step. apply snap_loop_supported.
Qed.

Lemma clean_roundabouts_supported rows : supported (clean_roundabouts rows).
Proof.
  unfold clean_roundabouts.
  apply bind_supported; [apply roundabout_loop_supported | discriminate].
Qed.

Lemma split_pieces_supported edge pieces : supported (split_pieces edge pieces).
Proof.
  induction pieces as [|cs pieces IH]; simpl; [discriminate |].
  apply bind_supported; [unfold linestrings; supported_step |]. intros g o _.
  apply bind_supported; [exact IH | discriminate].
Qed.

Lemma split_loop_supported all rows : supported (split_loop all rows).
Proof.
  induction rows as [|e rows IH]; simpl; [discriminate |].
  apply bind_supported; [apply split_pieces_supported |]. intros h o _.
  apply bind_supported; [exact IH | discriminate].
Qed.

Lemma add_distances_supported network : supported (add_distances network).
Proof. unfold add_distances. supported_step. Qed.

Lemma logicCheck_supported net : supported (logicCheck net).
Proof.
  unfold logicCheck.
  repeat (apply bind_supported; [first [apply of_option_supported | idtac] |
                                 intros ? ? _]);
    try (destruct (_ || _); discriminate);
    try (destruct (has_degree net); discriminate).
  destruct (calculate_degree net); try discriminate.
  cbn. destruct (list_eq_dec _ _ _); discriminate.
Qed.

Lemma quickFix_loop_supported ids rows rem : supported (quickFix_loop ids rows rem).
Proof.
  revert rem. induction rows as [|e rows IH]; intros rem; simpl; [discriminate |].
  apply bind_supported; [destruct (negb _); discriminate |]. intros rem1 o _.
  apply bind_supported; [apply of_option_supported |]. intros m o1 _. apply IH.
Qed.

Lemma quickFix_supported net : supported (quickFix net).
Proof.
  unfold quickFix.
  apply bind_supported; [apply quickFix_loop_supported | discriminate].
Qed.

Lemma add_travel_time_supported network : supported (add_travel_time network).
Proof.
  unfold add_travel_time.
  apply bind_supported; [apply add_distances_supported |]. intros n o _.
  destruct (forallb _ _); discriminate.
Qed.

(** The pipeline never meets the write the embedding leaves out: when
    [merge_2] runs, the edge ids are the row positions
    [drop_hanging_nodes] has just assigned, so every label-based write of
    [merge_2] finds its row. *)
Theorem simplify_supported (fuel : nat) (gdf : list Feature) :
  simplify_network_from_gdf fuel gdf <> Unsupported.
Proof.
  change (supported (simplify_network_from_gdf fuel gdf)).
  unfold simplify_network_from_gdf.
  apply bind_supported; [apply clean_roundabouts_supported |]. intros es o _.
  apply bind_supported.
  { unfold split_edges_at_nodes_pyg.
    apply bind_supported; [apply split_loop_supported | discriminate]. }
  intros split o0 _.
  apply bind_supported; [apply add_topology_supported |]. intros topo o1 _.
  apply bind_supported; [apply drop_hanging_nodes_supported |].
  intros pruned o2 Hpruned.
  apply bind_supported.
  { apply merge_2_supported. eapply drop_hanging_nodes_ids; exact Hpruned. }
  intros merged o3 _.
  apply bind_supported; [apply add_distances_supported |]. intros m o4 _.
  apply bind_supported; [apply logicCheck_supported |]. intros u o5 _.
  apply bind_supported; [apply quickFix_supported |]. intros fixed o6 _.
  apply add_travel_time_supported.
Qed.

End SupportedPipeline.

(** ** More on add_topology and on the pending set of merge_2 *)

Lemma NoDup_map_same {A B} (f : A -> B) (l : list A) (a b : A) :
  NoDup (map f l) -> In a l -> In b l -> f a = f b -> a = b.
Proof.
  induction l as [|x l IH]; simpl; intros Hnd Ha Hb Hf; [contradiction |].
  inversion Hnd as [|? ? Hnot Hrest]; subst.
  destruct Ha as [-> | Ha], Hb as [-> | Hb]; auto.
  - exfalso. apply Hnot. rewrite Hf. now apply in_map.
  - exfalso. apply Hnot. rewrite <- Hf. now apply in_map.
Qed.

Section TopologyMore.
Context {G : GeometryLib}.

Lemma endpoint_failures_defective nds e x :
  In x (endpoint_failures nds e) -> x = edge_id e /\ defective nds e = true.
Proof.
  unfold endpoint_failures, defective.
  destruct (from_node nds e), (to_node nds e); simpl; intuition.
Qed.

Lemma defective_fails nds e :
  defective nds e = true -> In (edge_id e) (endpoint_failures nds e).
Proof.
  unfold endpoint_failures, defective.
  destruct (from_node nds e), (to_node nds e); simpl; intuition discriminate.
Qed.

(** With edge ids that tell the edges apart, [add_topology] drops exactly
    the defective edges, leaves the node table as it is, writes the resolved
    ids on every other edge, and reports the number of endpoints that failed
    to resolve. *)
Theorem add_topology_drops_defective (network : Network) :
  NoDup (map edge_id (edges network)) ->
  let nds := nodes network in
  let kept := filter (fun e => negb (defective nds e)) (edges network) in
  let failures := flat_map (endpoint_failures nds) (edges network) in
  add_topology network
  = Ok (mkNetwork nds (has_degree network) (map (with_topology nds) kept))
       [MsgNotConnected (Z.of_nat (List.length failures))] /\
  references_resolve nds (map (with_topology nds) kept).
Proof.
  intros Hnd nds kept failures.
  assert (Hrun : add_topology network
    = Ok (mkNetwork nds (has_degree network) (map (with_topology nds) kept))
         [MsgNotConnected (Z.of_nat (List.length failures))]).
  { rewrite add_topology_unfold. fold nds. fold failures.
    do 3 f_equal. rewrite filter_map_comm. f_equal.
    apply filter_ext_in. intros e He. cbn [edge_id with_topology set_ends].
    f_equal. destruct (defective nds e) eqn:Ed.
    - apply mem_in. apply in_flat_map. exists e. split; [exact He |].
      now apply defective_fails.
    - destruct (mem (edge_id e) failures) eqn:Em; [| reflexivity].
      apply mem_in in Em. apply in_flat_map in Em as [e2 [He2 Hin]].
      apply endpoint_failures_defective in Hin as [Hid Hdef].
      assert (e = e2) by (eapply NoDup_map_same; eauto). subst e2. congruence. }
  split; [exact Hrun |].
  exact (proj2 (add_topology_closed _ _ _ Hrun)).
Qed.

End TopologyMore.

Section PendingProps.
Context {G : GeometryLib} {S : SetOrder}.
Variable nodGeom : list Geometry.
Variable edg_sindex : Geometry -> list Z.

Lemma set_discard_incl (s : list Z) (x : Z) : incl (set_discard s x) s.
Proof. intros y Hy. unfold set_discard in Hy. now apply filter_In in Hy as [Hy _]. Qed.

Lemma walk1_step_pending m a a' out :
  walk1_step nodGeom edg_sindex m a = Ok (Some a') out ->
  incl (pending a') (pending a).
Proof.
  unfold walk1_step. intros H. peel H.
  destruct (negb _); [apply ret_ok in H as [H _]; discriminate |].
  destruct (mem _ _); [apply ret_ok in H as [H _]; discriminate |].
  peel H.
  destruct (next_edge _ _ _ _);
    apply ret_ok in H as [H _]; injection H as <-;
    [apply set_discard_incl | apply incl_refl].
Qed.

Lemma walk2_step_pending m a a' out :
  walk2_step nodGeom edg_sindex m a = Ok (Some a') out ->
  incl (pending a') (pending a).
Proof.
  unfold walk2_step. intros H. peel H.
  destruct (negb _); [apply ret_ok in H as [H _]; discriminate |].
  destruct (mem _ _); [apply ret_ok in H as [H _]; discriminate |].
  peel H.
  destruct (next_edge _ _ _ _);
    apply ret_ok in H as [H _]; injection H as <-;
    [apply set_discard_incl | apply incl_refl].
Qed.

Lemma finish_attempt_pending print_err m info a m' out :
  finish_attempt print_err m info a = Ok m' out -> n2 m' = pending a.
Proof.
  unfold finish_attempt. intros H. peel H.
  destruct (get_type_id _ =? 1); peel H; now apply ret_ok in H as [<- _].
Qed.

(** The pending set only shrinks: an attempt that returns, whether it
    merged, aborted or failed to merge, leaves a pending set within the one
    that remained after the node was popped. *)
Theorem merge_2_body_pending print_err fuel m nodeID m' out :
  merge_2_body nodGeom edg_sindex print_err fuel m nodeID = Ok m' out ->
  incl (n2 m') (n2 m).
Proof.
  unfold merge_2_body. intros H. peel H.
  destruct v as [[e1 e2] |]; [| apply ret_ok in H as [<- _]; apply incl_refl].
  destruct (_ =? _); [apply ret_ok in H as [<- _]; apply incl_refl |].
  peel H. rewrite (finish_attempt_pending _ _ _ _ _ _ H).
  eapply (walk_invariant (fun a => incl (pending a) (n2 m)));
    [| | match goal with Hw : walk (walk2_step _ _ _) _ _ = Ok _ _ |- _ => exact Hw end].
  - intros a a' oo Ha Hs. eapply incl_tran; [eapply walk2_step_pending; eauto | exact Ha].
  - eapply (walk_invariant (fun a => incl (pending a) (n2 m)));
      [| | match goal with Hw : walk (walk1_step _ _ _) _ _ = Ok _ _ |- _ => exact Hw end].
    + intros a a' oo Ha Hs. eapply incl_tran; [eapply walk1_step_pending; eauto | exact Ha].
    + apply incl_refl.
Qed.

End PendingProps.

(** ** Degenerate attempts of merge_2 *)

Section DegenerateProps.
Context {G : GeometryLib} {S : SetOrder}.
Variable nodGeom : list Geometry.
Variable edg_sindex : Geometry -> list Z.






End DegenerateProps.

(** * Further properties *)

(** ** reset_ids run twice *)

Lemma range_nth_error_inv (n i : nat) (x : Z) :
  nth_error (range n) i = Some x -> x = Z.of_nat i.
Proof.
  intros H.
  assert (Hlt : (i < n)%nat).
  { rewrite <- (range_length n). apply nth_error_Some. congruence. }
  rewrite nth_error_range in H by exact Hlt. now injection H.
Qed.

(** Under the dictionary of a table whose ids are its positions nothing is
    renumbered. *)
Lemma renumber_fixed (n : nat) (x : Z) :
  renumber (dict_zip (range n) (range n)) x = x.
Proof.
  unfold renumber.
  destruct (dict_get (dict_zip (range n) (range n)) x) as [v |] eqn:E;
    [| reflexivity].
  pose proof (dict_zip_get (range n) x v) as H.
  rewrite range_length in H. destruct (H E) as [Hv Hn].
  apply range_nth_error_inv in Hn. lia.
Qed.

Lemma assign_same {A B} (f : A -> B -> A) (p : A -> B) (rows : list A)
    (col : list B) :
  map p rows = col -> (forall r, f r (p r) = r) -> assign f rows col = rows.
Proof.
  intros <- Hf. rewrite assign_map.
  rewrite <- (map_id rows) at 2. apply map_ext. exact Hf.
Qed.

Lemma reset_ids_lengths (network : Network) :
  List.length (nodes (reset_ids network)) = List.length (nodes network) /\
  List.length (edges (reset_ids network)) = List.length (edges network).
Proof.
  rewrite reset_ids_unfold. cbn [nodes edges].
  rewrite !assign_length, !range_length, length_map. lia.
Qed.

Lemma reset_ids_edge_ids (network : Network) :
  map edge_id (edges (reset_ids network))
  = range (List.length (edges network)).
Proof.
  rewrite reset_ids_unfold. cbn [edges].
  apply assign_map_new; [reflexivity |].
  rewrite range_length, length_map. lia.
Qed.

(** A network whose node ids and edge ids are the row positions is a fixed
    point of [reset_ids]. *)
Lemma reset_ids_fixed (network : Network) :
  map node_id (nodes network) = range (List.length (nodes network)) ->
  map edge_id (edges network) = range (List.length (edges network)) ->
  reset_ids network = network.
Proof.
  intros Hn He. rewrite reset_ids_unfold. unfold id_dict_of. rewrite Hn.
  destruct network as [nds col es]. cbn [nodes edges has_degree] in *.
  f_equal.
  - apply (assign_same set_node_id node_id); [exact Hn |].
    now intros [i g d].
  - rewrite (map_ext _ (fun e => e)), map_id.
    + apply (assign_same set_edge_id edge_id); [exact He |].
      now intros [i f t o h g].
    + intros [i f t o h g]. unfold set_ends. cbn.
      now rewrite !renumber_fixed.
Qed.

(** [reset_ids] is idempotent: renumbering a renumbered network changes
    nothing. *)
Theorem reset_ids_idempotent (network : Network) :
  reset_ids (reset_ids network) = reset_ids network.
Proof.
  destruct (reset_ids_lengths network) as [Ln Le].
  apply reset_ids_fixed.
  - rewrite Ln. apply reset_ids_node_ids.
  - rewrite Le. apply reset_ids_edge_ids.
Qed.

(** A reference that names no node passes through [reset_ids] as it is:
    the edge row at the same position carries the same number, whatever node
    carries that number afterwards. *)
Theorem reset_ids_keeps_dangling (network : Network) (i : nat) (e : Edge) :
  nth_error (edges network) i = Some e ->
  exists e',
    nth_error (edges (reset_ids network)) i = Some e' /\
    (~ In (from_id e) (map node_id (nodes network)) -> from_id e' = from_id e) /\
    (~ In (to_id e) (map node_id (nodes network)) -> to_id e' = to_id e).
Proof.
  intros He.
  assert (Hi : (i < List.length (edges network))%nat)
    by (apply nth_error_Some; congruence).
  set (d := id_dict_of network).
  exists (set_edge_id (set_ends e (renumber d (from_id e)) (renumber d (to_id e)))
                      (Z.of_nat i)).
  split.
  - rewrite reset_ids_unfold. cbn [edges].
    apply assign_nth_error; [| now apply nth_error_range].
    fold d. rewrite nth_error_map, He. reflexivity.
  - assert (Hd : forall x, ~ In x (map node_id (nodes network)) ->
                   renumber d x = x).
    { intros x Hx. unfold renumber, d, id_dict_of.
      rewrite dict_get_none; [reflexivity |].
      intros Hin. apply Hx. apply dict_fold_keys in Hin as [Hin | []].
      unfold range in Hin.
      rewrite map_fst_combine in Hin
        by (now rewrite !length_map, length_seq).
      exact Hin. }
    cbn [from_id to_id set_edge_id set_ends]. split; apply Hd.
Qed.

(** ** merge_all_multi *)

Section MergeAllMultiProps.
Context {G : GeometryLib}.

(** The comparison of [line_merge] never holds, whatever the geometry: a
    type id is an integer and ['5'] is a string. *)
Lemma line_merge_never_merges (x : Geometry) : line_merge_ x = x.
Proof.
  unfold line_merge_.
  assert (Hcmp : forall z s, py_eq (PyInt z) (PyStr s) = false)
    by reflexivity.
  now rewrite Hcmp.
Qed.

(** [merge_all_multi] returns the network it was given: the comparison of
    a type id with the string ['5'] never holds, so no geometry is merged,
    a MultiLineString no more than any other. *)
Theorem merge_all_multi_unchanged (network : Network) :
  merge_all_multi network = network /\
  forall parts,
    line_merge_ (MultiLineString parts) = MultiLineString parts.
Proof.
  split; [| intros parts; apply line_merge_never_merges].
  destruct network as [nds col es]. unfold merge_all_multi.
  cbn [nodes edges has_degree]. f_equal.
  rewrite <- (map_id es) at 2. apply map_ext.
  intros [i f t o h g]. unfold set_geometry. cbn [geometry edge_id from_id
    to_id osm_id highway]. now rewrite line_merge_never_merges.
Qed.

End MergeAllMultiProps.

(** ** quickFix *)

Section QuickFixProps.
Context {G : GeometryLib}.

Lemma quickFix_loop_run (node_ids : list Z) (m : Z) (rows : list Edge)
    (rem : list Z) :
  py_max node_ids = Some m ->
  quickFix_loop node_ids rows rem
  = Ok (rem ++ flat_map (marks m) rows)
       (map MsgMultipleGeometries (map edge_id (filter multiple rows))).
Proof.
  intros Hmax. revert rem.
  induction rows as [|e rows IH]; intros rem.
  - cbn. now rewrite app_nil_r.
  - cbn [quickFix_loop flat_map filter]. rewrite Hmax. unfold marks at 1.
    destruct (multiple e) eqn:Em; unfold multiple in Em; rewrite Em;
      cbn [say ret bind of_option app map]; rewrite IH;
      destruct ((from_id e >? m) || (to_id e >? m));
      cbn [app]; rewrite <- ?app_assoc; cbn [app]; rewrite ?app_nil_r;
      reflexivity.
Qed.

Lemma marks_spec (m : Z) (e : Edge) (x : Z) :
  In x (marks m e) <-> x = edge_id e /\ sound_edge m e = false.
Proof.
  unfold marks, sound_edge, multiple.
  destruct (get_num_geometries (geometry e) =? 1);
    destruct (Z.gtb_spec (from_id e) m), (Z.leb_spec (from_id e) m); try lia;
    destruct (Z.gtb_spec (to_id e) m), (Z.leb_spec (to_id e) m); try lia;
    cbn; intuition congruence.
Qed.

(** With edge ids that tell the edges apart, [quickFix] keeps exactly the
    edges that have one geometry and no reference above the largest node id
    (negative references pass), numbers them anew in row order, leaves the
    node table alone and prints one line per edge without exactly one
    geometry. *)
Theorem quickFix_keeps_sound (net : Network) (m : Z) :
  py_max (map node_id (nodes net)) = Some m ->
  NoDup (map edge_id (edges net)) ->
  let kept := filter (sound_edge m) (edges net) in
  quickFix net
  = Ok (mkNetwork (nodes net) (has_degree net)
          (assign set_edge_id kept (range (List.length kept))))
       (map MsgMultipleGeometries
            (map edge_id (filter multiple (edges net)))).
Proof.
  intros Hmax Hnd kept. unfold quickFix.
  rewrite (quickFix_loop_run _ m _ _ Hmax). cbn [bind ret app].
  rewrite app_nil_r.
  assert (Hk : filter (fun e => negb (mem (edge_id e)
                                       (flat_map (marks m) (edges net))))
                      (edges net) = kept).
  { apply filter_ext_in. intros e He.
    destruct (sound_edge m e) eqn:Es.
    - apply negb_true_iff.
      destruct (mem _ _) eqn:Em; [| reflexivity].
      apply mem_in in Em. apply in_flat_map in Em as [e2 [He2 Hin]].
      apply marks_spec in Hin as [Hid Hbad].
      assert (e = e2) by (eapply NoDup_map_same; eauto). subst e2. congruence.
    - apply negb_false_iff. apply mem_in. apply in_flat_map.
      exists e. split; [exact He |]. now apply marks_spec. }
  now rewrite Hk.
Qed.

End QuickFixProps.

(** ** add_travel_time and the road classes *)

Section TravelTimeProps.
Context {G : GeometryLib} {S : SetOrder}.

(** [add_travel_time] divides each distance by the speed of the road class
    and the dictionary has no speed for a class outside its twelve keys: one
    edge of such a class and the call does not return; where the distances
    can be measured it raises [TypeError]. *)
Theorem add_travel_time_unlisted_class (network : Network) (e : Edge) :
  In e (edges network) ->
  speed_get (highway e) = None ->
  (forall out msgs, add_travel_time network <> Ok out msgs) /\
  (forall measured msgs,
     add_distances network = Ok measured msgs ->
     add_travel_time network = Raise TypeError).
Proof.
  intros He Hnone.
  assert (Hall : forallb (fun e => match speed_get (highway e) with
                                   | Some _ => true | None => false end)
                         (edges network) = false).
  { destruct (forallb _ _) eqn:E; [| reflexivity].
    rewrite forallb_forall in E. specialize (E e He).
    rewrite Hnone in E. discriminate. }
  split.
  - intros out msgs H. unfold add_travel_time in H. peel H.
    apply add_distances_same in Hcall. subst v.
    rewrite Hall in H. discriminate.
  - intros measured msgs Hd. unfold add_travel_time. rewrite Hd.
    apply add_distances_same in Hd. subst measured.
    cbn [bind]. now rewrite Hall.
Qed.

(** When [simplify_network_from_gdf] returns, every edge it returns is of
    one of the twelve road classes of [speed_d]. *)
Theorem simplify_listed_classes
    (fuel : nat) (gdf : list Feature) (net : Network) (msgs : list Msg) :
  simplify_network_from_gdf fuel gdf = Ok net msgs ->
  forall e, In e (edges net) -> exists v, speed_get (highway e) = Some v.
Proof.
  unfold simplify_network_from_gdf. intros H. peel H.
  unfold add_travel_time in H. peel H.
  match goal with
  | Hd : add_distances _ = Ok _ _ |- _ => apply add_distances_same in Hd; subst
  end.
  destruct (forallb _ _) eqn:E; [| discriminate].
  apply ret_ok in H as [<- _].
  rewrite forallb_forall in E. intros e He. specialize (E e He).
  destruct (speed_get (highway e)) as [speed |];
    [now exists speed | discriminate].
Qed.

(** On an edge table without rows the pipeline raises [ValueError]: the
    degree count of [drop_hanging_nodes] takes the [max] of an empty
    column. *)
Lemma simplify_empty_input (fuel : nat) :
  simplify_network_from_gdf fuel [] = Raise ValueError.
Proof. reflexivity. Qed.

End TravelTimeProps.

(** ** clean_roundabouts on a table without rings *)

Section NoRings.
Context {G : GeometryLib}.

(** Where no edge is a ring, [clean_roundabouts] returns the edge rows it
    was given and prints nothing. *)
Theorem clean_roundabouts_no_rings (rows : list Feature) :
  (forall f, In f rows -> is_ring (feat_geometry f) = false) ->
  clean_roundabouts rows = Ok rows [].
Proof.
  intros Hno. unfold clean_roundabouts.
  assert (Hr : find_roundabouts rows = []).
  { unfold find_roundabouts.
    generalize (range (List.length rows)).
    induction rows as [|f rows IH]; intros [|i r]; cbn; try reflexivity.
    rewrite (Hno f (or_introl eq_refl)). apply IH.
    intros f' Hf'. apply Hno. now right. }
  rewrite Hr. cbn [roundabout_loop ret bind remove_edge new_edge app].
  rewrite app_nil_r. f_equal.
  rewrite filter_all by reflexivity.
  apply map_snd_combine. apply range_length.
Qed.

End NoRings.

(** ** Rows fetched by position, both ways *)

Lemma all_some_in_iff {A} (l : list (option A)) (xs : list A) (x : A) :
  all_some l = Some xs -> (In x xs <-> In (Some x) l).
Proof.
  revert xs. induction l as [|[a |] l IH]; cbn [all_some]; intros xs H.
  - injection H as <-. cbn. tauto.
  - destruct (all_some l) as [r |]; [| discriminate]. injection H as <-.
    cbn. rewrite (IH r eq_refl). split.
    + intros [-> | Hin]; auto.
    + intros [Heq | Hin]; [left; congruence | now right].
  - discriminate.
Qed.

Lemma ilocs_in_iff {A} (rows : list A) (ps : list Z) (xs : list A) (x : A) :
  ilocs rows ps = Some xs ->
  (In x xs <-> exists p, In p ps /\ iloc rows p = Some x).
Proof.
  unfold ilocs. intros H. rewrite (all_some_in_iff _ _ x H), in_map_iff.
  split; intros [p Hp]; exists p; tauto.
Qed.

Lemma iloc_nonneg {A} (rows : list A) (p : Z) (x : A) :
  0 <= p -> iloc rows p = Some x -> at_label rows p = Some x.
Proof.
  intros Hp. unfold iloc, np_index, at_label.
  destruct (Z.leb_spec 0 p), (Z.ltb_spec p (Z.of_nat (List.length rows)));
    cbn; try lia; try tauto.
  destruct (Z.ltb_spec p 0); try lia. cbn. discriminate.
Qed.

(** ** nearest *)

Section NearestProps.
Context {G : GeometryLib}.

(** [nearest] raises [ValueError] when the index returns no candidate;
    when it returns, the row is one of the candidates and no candidate is
    nearer to the geometry. *)
Theorem nearest_is_nearest (geom : Geometry) (gdf : list Node)
    (sindex : Geometry -> list Z) :
  (sindex geom = [] -> nearest geom gdf sindex = Raise ValueError) /\
  (forall n out,
     nearest geom gdf sindex = Ok n out ->
     out = [] /\
     (exists p, In p (sindex geom) /\ iloc gdf p = Some n) /\
     forall q r, In q (sindex geom) -> iloc gdf q = Some r ->
       (distance (node_geometry n) geom <= distance (node_geometry r) geom)%Q).
Proof.
  split.
  - intros He. unfold nearest. rewrite He. reflexivity.
  - intros n out H. unfold nearest in H. peel H.
    apply of_option_ok in H as [Hmin ->].
    apply of_option_ok in Hcall as [Hrows ->].
    subst out. split; [reflexivity |].
    destruct (py_min_spec _ _ _ Hmin) as (i & Hi & Hall & _).
    split.
    + apply (ilocs_in_iff _ _ _ n Hrows). eapply nth_error_In; eauto.
    + intros q r Hq Hr. apply Hall.
      apply (ilocs_in_iff _ _ _ r Hrows). now exists q.
Qed.

(** ** nearest_vertex_idx_on_line *)

(** On a line with a vertex, [nearest_vertex_idx_on_line] returns the
    position of the first vertex at the least distance from the point: no
    vertex is nearer and every vertex before it is farther. *)
Theorem nearest_vertex_idx_on_line_first_nearest
    (point : Coord) (line : list Coord) :
  line <> [] ->
  exists i c,
    nearest_vertex_idx_on_line point line = Ok i [] /\
    nth_error line i = Some c /\
    (forall j c', nth_error line j = Some c' ->
       (distance (Point point) (Point c)
        <= distance (Point point) (Point c'))%Q) /\
    (forall j c', (j < i)%nat -> nth_error line j = Some c' ->
       (distance (Point point) (Point c)
        < distance (Point point) (Point c'))%Q).
Proof.
  intros Hne. unfold nearest_vertex_idx_on_line.
  set (item := fun ic : nat * Coord =>
                 (fst ic, distance (Point point) (Point (snd ic)))).
  set (items := map item (combine (seq 0 (List.length line)) line)).
  assert (Hitem : forall k, nth_error items k
            = option_map (fun c => (k, distance (Point point) (Point c)))
                         (nth_error line k)).
  { intros k. unfold items. rewrite nth_error_map, nth_error_combine_seq.
    destruct (nth_error line k); reflexivity. }
  destruct (py_min snd items) as [[i d] |] eqn:E.
  2:{ exfalso. destruct line as [|c line]; [congruence |].
      unfold items in E. cbn in E. discriminate. }
  destruct (py_min_spec _ _ _ E) as (k & Hk & Hall & Hbefore).
  rewrite Hitem in Hk.
  destruct (nth_error line k) as [c |] eqn:Ec; [| discriminate].
  cbn in Hk. injection Hk as <- <-.
  exists k, c. split; [reflexivity |]. split; [exact Ec |]. split.
  - intros j c' Hj.
    apply (Hall (j, distance (Point point) (Point c'))).
    apply (nth_error_In items j). rewrite Hitem, Hj. reflexivity.
  - intros j c' Hlt Hj.
    apply (Hbefore j (j, distance (Point point) (Point c')) Hlt).
    rewrite Hitem, Hj. reflexivity.
Qed.

(** ** find_closest_2_edges *)

Lemma ids_are_positions_nth (es : list Edge) (k : nat) (e : Edge) :
  ids_are_positions es -> nth_error es k = Some e -> edge_id e = Z.of_nat k.
Proof.
  unfold ids_are_positions. intros Hids He.
  assert (H : nth_error (map edge_id es) k = Some (edge_id e))
    by (now rewrite nth_error_map, He).
  rewrite Hids in H. now apply range_nth_error_inv in H.
Qed.

Lemma ids_are_positions_iloc (es : list Edge) (p : Z) (e : Edge) :
  ids_are_positions es -> 0 <= p -> iloc es p = Some e ->
  edge_id e = p /\ at_label es p = Some e.
Proof.
  intros Hids Hp He. apply iloc_nonneg in He; [| exact Hp].
  split; [| exact He].
  apply at_label_some in He as [_ Hn].
  rewrite (ids_are_positions_nth _ _ _ Hids Hn). lia.
Qed.

(** On an edge table whose ids are the row positions,
    [find_closest_2_edges] returns two different edges among the
    candidates: one that no candidate undercuts in distance to the node, and
    one that no other candidate undercuts. *)
Theorem find_closest_2_edges_nearest_two
    (edgeIDs : list Z) (nodeID : Z) (es : list Edge) (g : Geometry)
    (e1 e2 : Edge) (out : list Msg) :
  ids_are_positions es ->
  (forall p, In p edgeIDs -> 0 <= p) ->
  find_closest_2_edges edgeIDs nodeID es g = Ok (e1, e2) out ->
  In (edge_id e1) edgeIDs /\ In (edge_id e2) edgeIDs /\
  edge_id e1 <> edge_id e2 /\
  at_label es (edge_id e1) = Some e1 /\
  at_label es (edge_id e2) = Some e2 /\
  (forall p e, In p edgeIDs -> at_label es p = Some e ->
     (distance g (geometry e1) <= distance g (geometry e))%Q) /\
  (forall p e, In p edgeIDs -> p <> edge_id e1 -> at_label es p = Some e ->
     (distance g (geometry e2) <= distance g (geometry e))%Q).
Proof.
  intros Hids Hpos H. unfold find_closest_2_edges in H. peel H.
  apply ret_ok in H as [H _]. injection H as <- <-.
  repeat match goal with
  | Hc : of_option _ _ = Ok _ _ |- _ => apply of_option_ok in Hc as [Hc _]
  end.
  rename v into rows, v0 into first, v1 into rest, v2 into rows1,
         v3 into second.
  rename Hcall into Hrows, Hcall0 into Hmin1, Hcall1 into Hrem,
         Hcall2 into Hrows1, Hcall3 into Hmin2.
  destruct (py_min_spec _ _ _ Hmin1) as (i1 & Hi1 & Hall1 & _).
  destruct (py_min_spec _ _ _ Hmin2) as (i2 & Hi2 & Hall2 & _).
  apply nth_error_In in Hi1, Hi2.
  apply (ilocs_in_iff _ _ _ first Hrows) in Hi1 as (p1 & Hp1 & Hl1).
  apply (ilocs_in_iff _ _ _ second Hrows1) in Hi2 as (p2 & Hp2 & Hl2).
  destruct (ids_are_positions_iloc _ _ _ Hids (Hpos p1 Hp1) Hl1) as [Hid1 Hat1].
  unfold set_remove in Hrem.
  destruct (mem (edge_id first) edgeIDs); [| discriminate].
  injection Hrem as <-.
  unfold set_discard in Hp2. apply filter_In in Hp2 as [Hp2 Hne].
  apply negb_true_iff, Z.eqb_neq in Hne.
  destruct (ids_are_positions_iloc _ _ _ Hids (Hpos p2 Hp2) Hl2) as [Hid2 Hat2].
  rewrite Hid1, Hid2. repeat split; try assumption.
  - congruence.
  - intros p e Hp He. apply Hall1.
    apply (ilocs_in_iff _ _ _ e Hrows). exists p.
    split; [exact Hp | now apply at_label_iloc].
  - intros p e Hp Hnp He. apply Hall2.
    apply (ilocs_in_iff _ _ _ e Hrows1). exists p.
    split; [| now apply at_label_iloc].
    unfold set_discard. apply filter_In. split; [exact Hp |].
    apply negb_true_iff, Z.eqb_neq. congruence.
Qed.

End NearestProps.

(** ** concat_dedup, add_endpoints *)









(** ** drop_hanging_nodes *)

Lemma count_occ_where (p : Z -> bool) (a : list Z) (s : nat) (x : Z) :
  count_occ Z.eq_dec
    (map fst (filter (fun iv : Z * Z => p (snd iv))
                     (combine (map Z.of_nat (seq s (List.length a))) a))) x
  = if (Z.of_nat s <=? x)
    then match nth_error a (Z.to_nat x - s) with
         | Some v => if p v then 1%nat else 0%nat
         | None => 0%nat
         end
    else 0%nat.
Proof.
  revert s. induction a as [|v a IH]; intros s.
  - cbn. destruct (Z.of_nat s <=? x); [| reflexivity].
    now destruct (Z.to_nat x - s)%nat.
  - cbn [List.length seq map combine filter snd].
    assert (Hrest := IH (Datatypes.S s)).
    destruct (Z.leb_spec (Z.of_nat s) x) as [Hle | Hgt].
    + destruct (Z.eq_dec (Z.of_nat s) x) as [Heq | Hne].
      * replace (Z.to_nat x - s)%nat with O by lia. cbn [nth_error].
        destruct (Z.leb_spec (Z.of_nat (Datatypes.S s)) x); [lia |].
        destruct (p v); cbn [map fst count_occ].
        -- destruct (Z.eq_dec (Z.of_nat s) x); [| contradiction].
           now rewrite Hrest.
        -- exact Hrest.
      * replace (Z.to_nat x - s)%nat
          with (Datatypes.S (Z.to_nat x - Datatypes.S s)) by lia.
        cbn [nth_error].
        destruct (Z.leb_spec (Z.of_nat (Datatypes.S s)) x); [| lia].
        destruct (p v); cbn [map fst count_occ].
        -- destruct (Z.eq_dec (Z.of_nat s) x); [contradiction | exact Hrest].
        -- exact Hrest.
    + destruct (Z.leb_spec (Z.of_nat (Datatypes.S s)) x); [lia |].
      destruct (p v); cbn [map fst count_occ].
      * destruct (Z.eq_dec (Z.of_nat s) x); [lia | exact Hrest].
      * exact Hrest.
Qed.

(** How often [np.where] lists a position: once when the entry there
    satisfies the condition. *)
Lemma count_occ_np_where (p : Z -> bool) (a : list Z) (x : Z) :
  count_occ Z.eq_dec (np_where p a) x
  = match at_label a x with
    | Some v => if p v then 1%nat else 0%nat
    | None => 0%nat
    end.
Proof.
  unfold np_where, range. rewrite count_occ_where. unfold at_label.
  rewrite Nat.sub_0_r. cbn [Z.of_nat].
  destruct (Z.leb_spec 0 x); cbn [andb]; [| reflexivity].
  destruct (Z.ltb_spec x (Z.of_nat (List.length a))); [reflexivity |].
  rewrite (proj2 (nth_error_None a (Z.to_nat x))) by lia. reflexivity.
Qed.

Lemma in_np_where (p : Z -> bool) (a : list Z) (x : Z) :
  In x (np_where p a) <-> exists v, at_label a x = Some v /\ p v = true.
Proof.
  rewrite (count_occ_In Z.eq_dec), count_occ_np_where.
  destruct (at_label a x) as [v |].
  - destruct (p v) eqn:E; split.
    + intros _. now exists v.
    + intros _. lia.
    + lia.
    + intros (w & Hw & Hp). injection Hw as <-. congruence.
  - split; [lia | intros (w & Hw & _); discriminate].
Qed.

Lemma mem_hanging (deg0 : list Z) (i : Z) :
  mem i (np_where (Z.eqb 1) deg0) = hangs deg0 i.
Proof.
  unfold hangs. destruct (mem i _) eqn:E.
  - apply mem_in, in_np_where in E as (v & Hv & Hp). rewrite Hv.
    apply Z.eqb_eq in Hp. subst v. reflexivity.
  - destruct (at_label deg0 i) as [d |] eqn:Ed; [| reflexivity].
    destruct (Z.eqb_spec d 1) as [-> | Hne]; [| reflexivity].
    assert (Hin : In i (np_where (Z.eqb 1) deg0))
      by (apply in_np_where; now exists 1).
    apply mem_in in Hin. congruence.
Qed.

Lemma count_occ_insert_sorted (x y : Z) (l : list Z) :
  count_occ Z.eq_dec (insert_sorted x l) y = count_occ Z.eq_dec (x :: l) y.
Proof.
  induction l as [|z l IH]; [reflexivity |].
  cbn [insert_sorted]. destruct (x <=? z); [reflexivity |].
  cbn [count_occ] in *.
  destruct (Z.eq_dec z y), (Z.eq_dec x y); rewrite IH; reflexivity.
Qed.

Lemma count_occ_np_sort (l : list Z) (y : Z) :
  count_occ Z.eq_dec (np_sort l) y = count_occ Z.eq_dec l y.
Proof.
  induction l as [|x l IH]; [reflexivity |].
  cbn [np_sort fold_right]. rewrite count_occ_insert_sorted.
  cbn [count_occ]. fold (np_sort l). now rewrite IH.
Qed.

Lemma at_label_map {A B} (f : A -> B) (l : list A) (i : Z) :
  at_label (map f l) i = option_map f (at_label l i).
Proof.
  unfold at_label. rewrite length_map.
  destruct (_ && _); [apply nth_error_map | reflexivity].
Qed.

Lemma at_label_nth {A} (l : list A) (k : nat) (x : A) :
  nth_error l k = Some x -> at_label l (Z.of_nat k) = Some x.
Proof.
  intros H. apply at_label_some. rewrite Nat2Z.id. split; [| exact H].
  assert (k < List.length l)%nat by (apply nth_error_Some; congruence). lia.
Qed.

Section HangingProps.
Context {G : GeometryLib}.

(** The pass visits an edge once for each of its endpoints that hangs:
    an edge between two nodes of degree 1 is visited twice. *)
Theorem hanging_candidates_count (deg0 : list Z) (ed : list Edge)
    (k : nat) (e : Edge) :
  nth_error ed k = Some e ->
  count_occ Z.eq_dec (hanging_candidates deg0 ed) (Z.of_nat k)
  = ((if hangs deg0 (to_id e) then 1 else 0)
     + (if hangs deg0 (from_id e) then 1 else 0))%nat.
Proof.
  intros He. unfold hanging_candidates.
  rewrite count_occ_np_sort, count_occ_app, !count_occ_np_where.
  rewrite !map_map, !at_label_map, (at_label_nth _ _ _ He). cbn [option_map].
  rewrite !mem_hanging.
  destruct (hangs deg0 (to_id e)), (hangs deg0 (from_id e)); reflexivity.
Qed.

Lemma hanging_candidates_in (deg0 : list Z) (ed : list Edge) (p : Z) :
  In p (hanging_candidates deg0 ed) ->
  exists e, at_label ed p = Some e /\
            (hangs deg0 (to_id e) = true \/ hangs deg0 (from_id e) = true).
Proof.
  unfold hanging_candidates.
  rewrite (count_occ_In Z.eq_dec), count_occ_np_sort, count_occ_app,
    !count_occ_np_where, !map_map, !at_label_map.
  destruct (at_label ed p) as [e |]; cbn [option_map]; [| lia].
  rewrite !mem_hanging. intros H. exists e. split; [reflexivity |].
  destruct (hangs deg0 (to_id e)); [now left |].
  destruct (hangs deg0 (from_id e)); [now right | cbn in H; lia].
Qed.

Lemma hanging_step_drop tolerance d deg0 drop deg1 drop1 out :
  hanging_step tolerance d deg0 drop = Ok (deg1, drop1) out ->
  forall x, In x drop1 -> In x drop \/ x = edge_id d.
Proof.
  unfold hanging_step. intros H. peel H.
  destruct v as [dega dropa].
  assert (Ha : forall x, In x dropa -> In x drop \/ x = edge_id d).
  { destruct (Qltb _ _).
    - peel Hcall. apply ret_ok in Hcall as [Hcall _]. injection Hcall as _ <-.
      intros x Hx. apply in_app_or in Hx as [Hx | [<- | []]]; auto.
    - apply ret_ok in Hcall as [Hcall _]. injection Hcall as _ <-. auto. }
  peel H.
  match type of H with (if ?both then _ else _) = _ => destruct both end.
  - peel H. apply ret_ok in H as [H _]. injection H as _ <-.
    intros x Hx. apply in_app_or in Hx as [Hx | [<- | []]]; auto.
  - apply ret_ok in H as [H _]. injection H as _ <-. exact Ha.
Qed.

Lemma hanging_loop_drop tolerance rows deg0 drop deg1 drop1 out :
  hanging_loop tolerance rows deg0 drop = Ok (deg1, drop1) out ->
  forall x, In x drop1 -> In x drop \/ exists d, In d rows /\ x = edge_id d.
Proof.
  revert deg0 drop out. induction rows as [|d rows IH]; intros deg0 drop out H;
    cbn [hanging_loop] in H.
  - apply ret_ok in H as [H _]. injection H as _ <-. auto.
  - peel H. destruct v as [dega dropa].
    intros x Hx. destruct (IH _ _ _ H x Hx) as [Hin | (d' & Hd' & ->)].
    + destruct (hanging_step_drop _ _ _ _ _ _ _ Hcall x Hin) as [Hd | ->];
        [now left | right; exists d; split; [now left | reflexivity]].
    + right. exists d'. split; [now right | reflexivity].
Qed.

Lemma assign_in_rows {A B} (f : A -> B -> A) (rows : list A) (col : list B)
    (r : A) :
  (List.length rows <= List.length col)%nat -> In r rows ->
  exists c, In (f r c) (assign f rows col).
Proof.
  unfold assign. revert col.
  induction rows as [|r0 rows IH]; intros [|c0 col] Hlen Hin; cbn in *;
    try contradiction; try lia.
  destruct Hin as [-> | Hin].
  - exists c0. now left.
  - destruct (IH col ltac:(lia) Hin) as [c Hc]. exists c. now right.
Qed.

(** With edge ids that tell the edges apart, [drop_hanging_nodes] removes
    no edge unless one of its endpoints has degree 1 when the pass starts:
    every other edge is in the result, with a new id and nothing else
    changed. *)
Theorem drop_hanging_nodes_spares_inner_edges
    (network : Network) (tolerance : Q) (deg0 : list Z) (o : list Msg)
    (out : Network) (msgs : list Msg) :
  NoDup (map edge_id (edges network)) ->
  initial_degrees network = Ok deg0 o ->
  drop_hanging_nodes network tolerance = Ok out msgs ->
  forall e, In e (edges network) ->
    hangs deg0 (from_id e) = false -> hangs deg0 (to_id e) = false ->
    exists k, In (set_edge_id e k) (edges out).
Proof.
  intros Hnd Hdeg H e He Hfrom Hto.
  unfold drop_hanging_nodes in H. fold (initial_degrees network) in H.
  rewrite Hdeg in H. cbn [bind] in H.
  destruct (of_option IndexError
              (ilocs (edges network) (hanging_candidates deg0 (edges network))))
    as [degEd o1 | | |] eqn:Erows; try discriminate.
  apply of_option_ok in Erows as [Erows ->]. cbn [bind] in H.
  destruct (hanging_loop tolerance degEd deg0 []) as [[deg1 drop] o2 | | |]
    eqn:Eloop; try discriminate.
  cbn [bind] in H.
  destruct (Nat.eqb _ _); [| discriminate].
  cbn [ret] in H. injection H as <- _. cbn [edges].
  apply assign_in_rows; [rewrite range_length; lia |].
  apply filter_In. split; [exact He |].
  apply negb_true_iff. destruct (mem (edge_id e) drop) eqn:Em; [| reflexivity].
  exfalso. apply mem_in in Em.
  destruct (hanging_loop_drop _ _ _ _ _ _ _ Eloop _ Em) as [[] | (d & Hd & Hid)].
  apply (ilocs_in_iff _ _ _ d Erows) in Hd as (p & Hp & Hl).
  assert (d = e).
  { eapply NoDup_map_same; [exact Hnd | eapply iloc_in; eauto | exact He |].
    congruence. }
  subst d.
  apply hanging_candidates_in in Hp as (e' & He' & Hh).
  apply at_label_iloc in He'. rewrite Hl in He'. injection He' as <-.
  destruct Hh; congruence.
Qed.

End HangingProps.

Lemma Forall2_le_refl (a : list Z) : Forall2 Z.le a a.
Proof. induction a; constructor; [lia | assumption]. Qed.

Lemma Forall2_le_trans (a b c : list Z) :
  Forall2 Z.le a b -> Forall2 Z.le b c -> Forall2 Z.le a c.
Proof.
  intros Hab. revert c. induction Hab as [|x y a b Hxy Hab IH]; intros c Hbc;
    inversion Hbc; subst; constructor; [lia | now apply IH].
Qed.

Lemma list_set_le (a : list Z) (k : nat) (v w : Z) :
  nth_error a k = Some v -> w <= v -> Forall2 Z.le (list_set a k w) a.
Proof.
  revert k. induction a as [|x a IH]; intros [|k] Hn Hw; cbn in *;
    try discriminate.
  - injection Hn as ->. constructor; [exact Hw | apply Forall2_le_refl].
  - constructor; [lia | now apply IH].
Qed.

Lemma np_decr_le (a b : list Z) (i : Z) :
  np_decr a i = Some b -> Forall2 Z.le b a.
Proof.
  unfold np_decr, np_get, np_set.
  destruct (np_index (List.length a) i) as [k |]; [| discriminate].
  destruct (nth_error a k) as [v |] eqn:E; [| discriminate].
  intros H. injection H as <-. eapply list_set_le; [exact E | lia].
Qed.

Section HangingDegrees.
Context {G : GeometryLib}.

Lemma hanging_step_le tolerance d deg0 drop deg1 drop1 out :
  hanging_step tolerance d deg0 drop = Ok (deg1, drop1) out ->
  Forall2 Z.le deg1 deg0.
Proof.
  unfold hanging_step. intros H. peel H.
  destruct v as [dega dropa].
  assert (Ha : Forall2 Z.le dega deg0).
  { destruct (Qltb _ _).
    - peel Hcall. apply ret_ok in Hcall as [Hcall _]. injection Hcall as <- _.
      repeat match goal with
      | Hc : of_option _ _ = Ok _ _ |- _ => apply of_option_ok in Hc as [Hc _]
      end.
      eapply Forall2_le_trans; eapply np_decr_le; eauto.
    - apply ret_ok in Hcall as [Hcall _]. injection Hcall as <- _.
      apply Forall2_le_refl. }
  peel H.
  match type of H with (if ?both then _ else _) = _ => destruct both end.
  - peel H. apply ret_ok in H as [H _]. injection H as <- _.
    repeat match goal with
    | Hc : of_option _ (np_decr _ _) = Ok _ _ |- _ =>
        apply of_option_ok in Hc as [Hc _]; apply np_decr_le in Hc
    end.
    eauto using Forall2_le_trans.
  - apply ret_ok in H as [H _]. injection H as <- _. exact Ha.
Qed.

Lemma hanging_loop_le tolerance rows deg0 drop deg1 drop1 out :
  hanging_loop tolerance rows deg0 drop = Ok (deg1, drop1) out ->
  Forall2 Z.le deg1 deg0.
Proof.
  revert deg0 drop out. induction rows as [|d rows IH]; intros deg0 drop out H;
    cbn [hanging_loop] in H.
  - apply ret_ok in H as [H _]. injection H as <- _. apply Forall2_le_refl.
  - peel H. destruct v as [dega dropa].
    eapply Forall2_le_trans; [eapply IH; exact H |].
    eapply hanging_step_le; exact Hcall.
Qed.

(** [drop_hanging_nodes] keeps every node row, with its id and its
    geometry, and writes a degree column in which no entry is above the
    degree the pass started from. *)
Theorem drop_hanging_nodes_degrees_fall
    (network : Network) (tolerance : Q) (deg0 : list Z) (o : list Msg)
    (out : Network) (msgs : list Msg) :
  initial_degrees network = Ok deg0 o ->
  drop_hanging_nodes network tolerance = Ok out msgs ->
  has_degree out = true /\
  map node_id (nodes out) = map node_id (nodes network) /\
  map node_geometry (nodes out) = map node_geometry (nodes network) /\
  Forall2 Z.le (map degree (nodes out)) deg0.
Proof.
  intros Hdeg H.
  unfold drop_hanging_nodes in H. fold (initial_degrees network) in H.
  rewrite Hdeg in H. cbn [bind] in H.
  destruct (of_option IndexError _) as [degEd o1 | | |]; try discriminate.
  cbn [bind] in H.
  destruct (hanging_loop tolerance degEd deg0 []) as [[deg1 drop] o2 | | |]
    eqn:Eloop; try discriminate.
  cbn [bind] in H.
  destruct (Nat.eqb_spec (List.length deg1) (List.length (nodes network)))
    as [Hlen |]; [| discriminate].
  cbn [ret] in H. injection H as <- _. cbn [nodes has_degree].
  split; [reflexivity |].
  split; [apply assign_map_keep; [reflexivity | lia] |].
  split; [apply assign_map_keep; [reflexivity | lia] |].
  rewrite (assign_map_new set_degree degree); [| reflexivity | lia].
  eapply hanging_loop_le; exact Eloop.
Qed.

(** Where no node has degree 1, [drop_hanging_nodes] drops nothing: it
    returns the edges renumbered in row order and the nodes with the degree
    column it started from. *)
Lemma drop_hanging_nodes_nothing_hangs
    (network : Network) (tolerance : Q) (deg0 : list Z) (o : list Msg) :
  initial_degrees network = Ok deg0 o ->
  List.length deg0 = List.length (nodes network) ->
  (forall d, In d deg0 -> d <> 1) ->
  drop_hanging_nodes network tolerance
  = Ok (mkNetwork (assign set_degree (nodes network) deg0) true
          (assign set_edge_id (edges network)
                  (range (List.length (edges network)))))
       o.
Proof.
  intros Hdeg Hlen Hno.
  assert (Hc : hanging_candidates deg0 (edges network) = []).
  { unfold hanging_candidates.
    rewrite (np_where_none (Z.eqb 1) deg0).
    2:{ intros d Hd. apply Z.eqb_neq. intros E. apply (Hno d Hd). congruence. }
    rewrite !np_where_none; [reflexivity | |];
      intros x Hx; apply in_map_iff in Hx as [y [<- _]]; reflexivity. }
  unfold drop_hanging_nodes. fold (initial_degrees network).
  rewrite Hdeg. cbn [bind]. cbv zeta. rewrite Hc.
  cbn [bind ilocs map all_some of_option ret hanging_loop].
  rewrite Hlen, Nat.eqb_refl. cbn [ret app].
  rewrite app_nil_r, filter_all by reflexivity. reflexivity.
Qed.

End HangingDegrees.

(** ** merge_2: what the contraction keeps *)

Lemma Forall2_list_set {A B} (R : A -> B -> Prop) (l0 : list A) (l : list B)
    (k : nat) (row v : B) :
  Forall2 R l0 l -> nth_error l k = Some row ->
  (forall x, R x row -> R x v) ->
  Forall2 R l0 (list_set l k v).
Proof.
  intros H. revert k. induction H as [|x y l0 l Hxy H IH]; intros [|k] Hn Hv;
    cbn in *; try discriminate.
  - injection Hn as ->. constructor; [now apply Hv | exact H].
  - constructor; [exact Hxy | now apply IH].
Qed.

Lemma Forall2_in_r {A B} (R : A -> B -> Prop) (l0 : list A) (l : list B)
    (y : B) :
  Forall2 R l0 l -> In y l -> exists x, In x l0 /\ R x y.
Proof.
  intros H. induction H as [|x y0 l0 l Hxy H IH]; intros Hin; [destruct Hin |].
  destruct Hin as [<- | Hin].
  - exists x. split; [now left | exact Hxy].
  - destruct (IH Hin) as (x' & Hx' & HR). exists x'. split; [now right | exact HR].
Qed.

Lemma merged_from_refl (l : list Edge) : Forall2 merged_from l l.
Proof.
  induction l as [|e l IH]; constructor; [| exact IH].
  split; [reflexivity | now left].
Qed.

Section Merge2Keeps.
Context {G : GeometryLib} {S : SetOrder}.
Variable nodGeom : list Geometry.
Variable edg_sindex : Geometry -> list Z.
Variable original : list Edge.

Lemma finish_attempt_merged print_err m info a m' out :
  Forall2 merged_from original (edg m) ->
  finish_attempt print_err m info a = Ok m' out ->
  Forall2 merged_from original (edg m').
Proof.
  intros Hm H. unfold finish_attempt in H. peel H.
  destruct (Z.eqb_spec (get_type_id (line_merge v)) 1) as [Hty |].
  - peel H. apply ret_ok in H as [<- _]. cbn [edg].
    match goal with
    | Hw : write_merged _ _ _ _ _ = Ok _ _ |- _ =>
        unfold write_merged in Hw;
        destruct (at_label (edg m) info) as [row |] eqn:Erow;
          [| discriminate];
        apply ret_ok in Hw as [<- _]
    end.
    apply at_label_some in Erow as [_ Hn].
    eapply Forall2_list_set; [exact Hm | exact Hn |].
    intros e0 [Hattr _]. split; [exact Hattr | now right].
  - peel H. apply ret_ok in H as [<- _]. exact Hm.
Qed.

Lemma merge_2_body_merged print_err fuel m nodeID m' out :
  Forall2 merged_from original (edg m) ->
  merge_2_body nodGeom edg_sindex print_err fuel m nodeID = Ok m' out ->
  Forall2 merged_from original (edg m').
Proof.
  intros Hm H. unfold merge_2_body in H. peel H.
  destruct v as [[e1 e2] |]; [| now apply ret_ok in H as [<- _]].
  destruct (_ =? _); [now apply ret_ok in H as [<- _] |].
  peel H. eapply finish_attempt_merged; eauto.
Qed.

Lemma merge_2_loop_merged print_err fuel m m' out :
  Forall2 merged_from original (edg m) ->
  merge_2_loop nodGeom edg_sindex print_err fuel m = Ok m' out ->
  Forall2 merged_from original (edg m').
Proof.
  revert m m' out. induction fuel as [|fuel IH]; intros m m' out Hm H;
    cbn [merge_2_loop] in H; [discriminate |].
  destruct (n2 m) as [|nodeID rest].
  - now apply ret_ok in H as [<- _].
  - peel H. eapply IH; [| exact H].
    eapply merge_2_body_merged; [| exact Hcall]. exact Hm.
Qed.

End Merge2Keeps.

Section Merge2Result.
Context {G : GeometryLib} {S : SetOrder}.

(** On an edge table whose ids are the row positions, every write of
    [merge_2] finds its row and [merge_2] makes no row of its own.  Every
    node it returns is a node of the input with its id and geometry, and has
    a positive degree; every edge it returns is an edge of the input, either
    as it was or with a merged line string for its geometry, and carries the
    id, the [osm_id] and the [highway] it had. *)
Theorem merge_2_keeps_attributes
    (fuel : nat) (network : Network) (print_err : bool) :
  ids_are_positions (edges network) ->
  merge_2 fuel network print_err <> Unsupported /\
  forall out msgs,
    merge_2 fuel network print_err = Ok out msgs ->
    has_degree out = true /\
    (forall n', In n' (nodes out) ->
       0 < degree n' /\
       exists n, In n (nodes network) /\
         node_id n' = node_id n /\ node_geometry n' = node_geometry n) /\
    (forall e', In e' (edges out) ->
       exists e, In e (edges network) /\ merged_from e e').
Proof.
  intros Hids. split; [now apply merge_2_supported |].
  intros out msgs H. unfold merge_2 in H. peel H.
  destruct (has_degree network); [| discriminate].
  apply ret_ok in H as [<- _]. cbn [nodes edges has_degree].
  split; [reflexivity |]. split.
  - intros n' Hn'. apply filter_In in Hn' as [Hn' Hpos].
    apply Z.ltb_lt in Hpos. split; [exact Hpos |].
    apply assign_in in Hn' as (n & d & Hn & _ & ->).
    exists n. now repeat split.
  - intros e' He'. apply filter_In in He' as [He' _].
    eapply Forall2_in_r; [| exact He'].
    eapply merge_2_loop_merged; [| eassumption].
    apply merged_from_refl.
Qed.

(** Without a degree column on the node table [merge_2] returns no
    network: the degrees it counts for itself serve the contraction, but the
    final selection of the nodes reads the column. *)
Theorem merge_2_needs_degree_column
    (fuel : nat) (network : Network) (print_err : bool) :
  has_degree network = false ->
  forall out msgs, merge_2 fuel network print_err <> Ok out msgs.
Proof.
  intros Hcol out msgs H. unfold merge_2 in H. peel H.
  rewrite Hcol in H. discriminate.
Qed.

End Merge2Result.

(** ** Degrees: calculate_degree, node_connectivity_degree, add_degree *)

Lemma calculate_degree_inv (network : Network) (d : list Z) (out : list Msg) :
  valid_ends (List.length (nodes network)) (edges network) ->
  calculate_degree network = Ok d out ->
  d = map (degree_of (edges network)) (range (List.length (nodes network))).
Proof.
  intros Hv H. unfold calculate_degree in H.
  set (n := List.length (nodes network)) in *.
  set (es := edges network) in *.
  assert (Hf : forall v, In v (map from_id es) -> 0 <= v < Z.of_nat n).
  { intros v Hin. apply in_map_iff in Hin as [e [<- He]]. now apply Hv. }
  assert (Ht : forall v, In v (map to_id es) -> 0 <= v < Z.of_nat n).
  { intros v Hin. apply in_map_iff in Hin as [e [<- He]]. now apply Hv. }
  cbv zeta in H. peel H.
  rewrite (bincount_in_range _ _ Hf) in Hcall2.
  rewrite (bincount_in_range _ _ Ht) in Hcall3.
  apply ret_ok in Hcall2 as [<- _]. apply ret_ok in Hcall3 as [<- _].
  rewrite np_add_same_length in H by (now rewrite !length_map).
  apply ret_ok in H as [<- _].
  rewrite combine_map_same, map_map. reflexivity.
Qed.

Lemma at_label_map_range (f : Z -> Z) (n : nat) (i : Z) :
  0 <= i < Z.of_nat n -> at_label (map f (range n)) i = Some (f i).
Proof.
  intros Hi. apply at_label_some. rewrite length_map, range_length.
  split; [exact Hi |].
  rewrite nth_error_map, nth_error_range by lia.
  cbn. now rewrite Z2Nat.id by lia.
Qed.

Lemma degree_of_connectivity (es : list Edge) (i : Z) :
  degree_of es i
  = Z.of_nat (List.length
      (filter (fun e => (from_id e =? i) || (to_id e =? i)) es))
    + self_loops es i.
Proof.
  unfold degree_of, self_loops.
  induction es as [|e es IH]; [reflexivity |].
  cbn [map filter]. rewrite !count_cons.
  destruct (from_id e =? i), (to_id e =? i); cbn [orb andb List.length]; lia.
Qed.

(** Where every reference is a position of the node table, the degree
    [calculate_degree] gives a node is the number of edges that touch it,
    which is what [node_connectivity_degree] counts, plus one more for every
    edge that starts and ends at the node. *)
Theorem calculate_degree_counts_loops_twice
    (network : Network) (d : list Z) (out : list Msg) :
  valid_ends (List.length (nodes network)) (edges network) ->
  calculate_degree network = Ok d out ->
  forall i, 0 <= i < Z.of_nat (List.length (nodes network)) ->
    at_label d i
    = Some (node_connectivity_degree i network + self_loops (edges network) i).
Proof.
  intros Hv H i Hi.
  rewrite (calculate_degree_inv _ _ _ Hv H).
  rewrite at_label_map_range by exact Hi.
  unfold node_connectivity_degree. now rewrite degree_of_connectivity.
Qed.

Lemma total_app (a b : list Z) : total (a ++ b) = total a + total b.
Proof. unfold total. induction a as [|x a IH]; cbn; lia. Qed.

Lemma range_succ (n : nat) : range (Datatypes.S n) = range n ++ [Z.of_nat n].
Proof. unfold range. now rewrite seq_S, map_app. Qed.

Lemma total_indicator (v : Z) (n : nat) :
  total (map (fun i => if v =? i then 1 else 0) (range n))
  = if (0 <=? v) && (v <? Z.of_nat n) then 1 else 0.
Proof.
  induction n as [|n IH].
  { unfold range. cbn [seq map total fold_right].
    destruct (Z.leb_spec 0 v), (Z.ltb_spec v (Z.of_nat 0)); cbn [andb]; lia. }
  rewrite range_succ, map_app, total_app, IH. cbn [map total fold_right].
  destruct (Z.eqb_spec v (Z.of_nat n)), (Z.leb_spec 0 v),
    (Z.ltb_spec v (Z.of_nat n)), (Z.ltb_spec v (Z.of_nat (Datatypes.S n)));
    cbn [andb]; lia.
Qed.

Lemma total_map_add (f g : Z -> Z) (l : list Z) :
  total (map (fun i => f i + g i) l) = total (map f l) + total (map g l).
Proof. unfold total. induction l as [|i l IH]; cbn; lia. Qed.

Lemma total_counts (x : list Z) (n : nat) :
  (forall v, In v x -> 0 <= v < Z.of_nat n) ->
  total (map (count x) (range n)) = Z.of_nat (List.length x).
Proof.
  induction x as [|v x IH]; intros Hx.
  - unfold count, total. cbn [count_occ List.length]. generalize (range n).
    intros l. induction l; cbn; auto.
  - rewrite (map_ext _ (fun i => (if v =? i then 1 else 0) + count x i))
      by (intros i; apply count_cons).
    rewrite total_map_add, total_indicator, IH
      by (intros; apply Hx; now right).
    destruct (Hx v (or_introl eq_refl)) as [H0 H1].
    destruct (Z.leb_spec 0 v), (Z.ltb_spec v (Z.of_nat n)); try lia.
    cbn [andb List.length]. lia.
Qed.

(** Where every reference is a position of the node table, the degrees
    [calculate_degree] returns, one per node, add up to twice the number of
    edges. *)
Theorem calculate_degree_handshake
    (network : Network) (d : list Z) (out : list Msg) :
  valid_ends (List.length (nodes network)) (edges network) ->
  calculate_degree network = Ok d out ->
  List.length d = List.length (nodes network) /\
  total d = 2 * Z.of_nat (List.length (edges network)).
Proof.
  intros Hv H. rewrite (calculate_degree_inv _ _ _ Hv H).
  split; [now rewrite length_map, range_length |].
  set (n := List.length (nodes network)). set (es := edges network) in *.
  unfold degree_of. rewrite total_map_add, !total_counts, !length_map;
    [lia | |];
    intros v Hin; apply in_map_iff in Hin as [e [<- He]]; now apply Hv.
Qed.

(** One negative reference and [calculate_degree] raises [ValueError]:
    [np.bincount] refuses negative entries. *)
Theorem calculate_degree_negative_reference (network : Network) (e : Edge) :
  In e (edges network) ->
  from_id e < 0 \/ to_id e < 0 ->
  calculate_degree network = Raise ValueError.
Proof.
  intros He Hneg. unfold calculate_degree.
  set (n := Z.of_nat (List.length (nodes network))).
  set (froms := map from_id (edges network)).
  set (tos := map to_id (edges network)).
  assert (Hcount : (a <- bincount froms n ;; b <- bincount tos n ;; np_add a b)
                   = Raise ValueError).
  { destruct (forallb (Z.leb 0) froms) eqn:Ef.
    - assert (Et : forallb (Z.leb 0) tos = false).
      { destruct (forallb (Z.leb 0) tos) eqn:Et; [| reflexivity].
        rewrite forallb_forall in Ef, Et.
        specialize (Ef (from_id e) (in_map from_id _ _ He)).
        specialize (Et (to_id e) (in_map to_id _ _ He)).
        apply Z.leb_le in Ef, Et. lia. }
      unfold bincount. rewrite Ef, Et. reflexivity.
    - unfold bincount. rewrite Ef. reflexivity. }
  destruct (py_max froms) as [mf |] eqn:Emf.
  2:{ apply py_max_none in Emf. unfold froms in Emf.
      destruct (edges network); [destruct He | discriminate]. }
  destruct (py_max tos) as [mt |] eqn:Emt.
  2:{ apply py_max_none in Emt. unfold tos in Emt.
      destruct (edges network); [destruct He | discriminate]. }
  cbn [of_option ret bind].
  destruct (n - 1 >? mf); cbn [ret bind];
    [destruct (n - 1 >? mt); cbn [say ret bind] |];
    rewrite Hcount; reflexivity.
Qed.

Lemma py_max_in (l : list Z) (m : Z) : py_max l = Some m -> In m l.
Proof.
  revert m. induction l as [|x l IH]; cbn; intros m H; [discriminate |].
  destruct (py_max l) as [m' |].
  - injection H as <-. destruct (Z.max_spec x m') as [[_ ->] | [_ ->]];
      [right; now apply IH | now left].
  - injection H as <-. now left.
Qed.

Lemma bincount_nonempty (x : list Z) (n : Z) (a : list Z) (out : list Msg) :
  x <> [] -> bincount x n = Ok a out -> a <> [].
Proof.
  intros Hne. unfold bincount.
  destruct (forallb (Z.leb 0) x) eqn:Epos; [| discriminate].
  destruct (py_max x) as [m |] eqn:Em.
  2:{ apply py_max_none in Em. contradiction. }
  intros H. apply ret_ok in H as [<- _].
  rewrite forallb_forall in Epos.
  assert (Hm : 0 <= m) by (apply Z.leb_le, Epos, py_max_in, Em).
  intros E. apply (f_equal (@List.length Z)) in E.
  rewrite bins_length, repeat_length in E. cbn in E. lia.
Qed.

Lemma np_add_nonempty (a b d : list Z) (out : list Msg) :
  a <> [] -> b <> [] -> np_add a b = Ok d out -> d <> [].
Proof.
  intros Ha Hb. unfold np_add.
  destruct a as [|x a]; [congruence |]. destruct b as [|y b]; [congruence |].
  destruct (Nat.eqb _ _).
  - intros H. apply ret_ok in H as [<- _]. discriminate.
  - destruct a; [intros H; apply ret_ok in H as [<- _]; discriminate |].
    destruct b; [intros H; apply ret_ok in H as [<- _]; discriminate |].
    discriminate.
Qed.

Lemma calculate_degree_nonempty (network : Network) (d : list Z)
    (out : list Msg) :
  calculate_degree network = Ok d out -> edges network <> [] /\ d <> [].
Proof.
  unfold calculate_degree. intros H. cbv zeta in H. peel H.
  apply of_option_ok in Hcall as [Hmax _].
  assert (Hne : edges network <> []).
  { intros E. rewrite E in Hmax. discriminate. }
  split; [exact Hne |].
  eapply np_add_nonempty; [| | exact H];
    eapply bincount_nonempty; try eassumption;
    destruct (edges network); [congruence | discriminate | congruence | discriminate].
Qed.

Lemma calculate_degree_same_shape (a b : Network) :
  List.length (nodes a) = List.length (nodes b) -> edges a = edges b ->
  calculate_degree a = calculate_degree b.
Proof. intros Hn He. unfold calculate_degree. now rewrite Hn, He. Qed.

Lemma bincount_silent (x : list Z) (n : Z) (a : list Z) (out : list Msg) :
  bincount x n = Ok a out -> out = [].
Proof.
  unfold bincount. destruct (forallb _ _); [| discriminate].
  intros H. now apply ret_ok in H.
Qed.

Lemma np_add_silent (a b d : list Z) (out : list Msg) :
  np_add a b = Ok d out -> out = [].
Proof.
  unfold np_add. destruct (Nat.eqb _ _);
    [intros H; now apply ret_ok in H |].
  destruct a as [|x [|x' a]]; destruct b as [|y [|y' b]];
    try discriminate; intros H; now apply ret_ok in H.
Qed.

(** All [calculate_degree] ever prints is its one warning. *)
Lemma calculate_degree_output (network : Network) (d : list Z)
    (out : list Msg) :
  calculate_degree network = Ok d out ->
  forall m, In m out -> m = MsgDegreeUnhappy.
Proof.
  unfold calculate_degree. cbv zeta. intros H. peel H.
  apply np_add_silent in H.
  repeat match goal with
  | Hb : bincount _ _ = Ok _ _ |- _ => apply bincount_silent in Hb
  | Hm : of_option _ _ = Ok _ _ |- _ => apply of_option_ok in Hm as [_ Hm]
  end.
  match goal with
  | Hc : (if _ >? _ then _ else _) = Ok _ ?o |- _ =>
      assert (o = []);
      [ destruct (_ >? _) in Hc;
        [ peel Hc; apply ret_ok in Hc as [_ Hc];
          match goal with
          | Hm : of_option _ _ = Ok _ _ |- _ =>
              apply of_option_ok in Hm as [_ Hm]
          end; subst; reflexivity
        | now apply ret_ok in Hc ] |]
  end.
  match goal with
  | Hs : (if ?b then say _ else ret tt) = Ok _ _ |- _ =>
      destruct b; [injection Hs as _ Hs | apply ret_ok in Hs as [_ Hs]]
  end; subst; cbn [app]; intros m Hm; cbn in Hm; intuition.
Qed.

(** After [add_degree] the degree column is the array [calculate_degree]
    gives for the network, nothing else has changed, and [logicCheck] finds
    the column in agreement with the edges: it returns without either of its
    two complaints about degrees. *)
Theorem add_degree_consistent (network net' : Network) (out : list Msg) :
  add_degree network = Ok net' out ->
  calculate_degree net' = Ok (map degree (nodes net')) out /\
  has_degree net' = true /\
  map node_id (nodes net') = map node_id (nodes network) /\
  map node_geometry (nodes net') = map node_geometry (nodes network) /\
  edges net' = edges network /\
  exists msgs,
    logicCheck net' = Ok tt msgs /\
    ~ In MsgDegreeMismatch msgs /\ ~ In MsgDegreeNotCalculated msgs.
Proof.
  unfold add_degree. intros H.
  destruct (calculate_degree network) as [d o | | |] eqn:Ecalc;
    try discriminate.
  cbn [bind] in H.
  destruct (Nat.eqb_spec (List.length d) (List.length (nodes network)))
    as [Hlen | Hlen].
  2:{ destruct (nodes network); discriminate. }
  cbn [ret] in H. injection H as <- <-. rewrite app_nil_r.
  cbn [nodes edges has_degree].
  assert (Hdeg : map degree (assign set_degree (nodes network) d) = d)
    by (apply assign_map_new; [reflexivity | lia]).
  assert (Hcalc : calculate_degree
                    (mkNetwork (assign set_degree (nodes network) d) true
                               (edges network)) = Ok d o).
  { rewrite <- Ecalc. apply calculate_degree_same_shape; [| reflexivity].
    cbn [nodes]. rewrite assign_length. lia. }
  rewrite Hdeg.
  split; [exact Hcalc |]. split; [reflexivity |].
  split; [apply assign_map_keep; [reflexivity | lia] |].
  split; [apply assign_map_keep; [reflexivity | lia] |].
  split; [reflexivity |].
  destruct (calculate_degree_nonempty _ _ _ Ecalc) as [Hes Hd].
  unfold logicCheck. cbn [nodes edges has_degree]. rewrite Hcalc, Hdeg.
  destruct (py_max (map from_id (edges network))) as [mf |] eqn:Emf.
  2:{ apply py_max_none in Emf. destruct (edges network); [congruence | discriminate]. }
  destruct (py_max (map to_id (edges network))) as [mt |] eqn:Emt.
  2:{ apply py_max_none in Emt. destruct (edges network); [congruence | discriminate]. }
  destruct (py_max (map node_id (assign set_degree (nodes network) d)))
    as [mn |] eqn:Emn.
  2:{ apply py_max_none in Emn. apply (f_equal (@List.length Z)) in Emn.
      rewrite length_map, assign_length, <- Hlen, Nat.min_id in Emn.
      destruct d; [congruence | discriminate]. }
  cbn [of_option ret bind].
  destruct (list_eq_dec Z.eq_dec d d) as [_ | Hne]; [| congruence].
  pose proof (calculate_degree_output _ _ _ Ecalc) as Ho.
  assert (Htail : forall m, In m (o ++ [MsgGeopackage]) ->
            m <> MsgDegreeMismatch /\ m <> MsgDegreeNotCalculated).
  { intros m Hm. apply in_app_or in Hm as [Hm | [<- | []]].
    - rewrite (Ho m Hm). split; discriminate.
    - split; discriminate. }
  destruct ((mf >? mn) || (mt >? mn)); cbn [say ret bind app];
    eexists; (split; [reflexivity |]); split; intros Hin;
    try (destruct Hin as [Hin | Hin]; [discriminate |]);
    apply Htail in Hin; destruct Hin; congruence.
Qed.

(** ** snap_line *)

Lemma subsequence_refl {A} (l : list A) : subsequence l l.
Proof.
  induction l; [apply subsequence_nil | now apply subsequence_keep].
Qed.

Lemma subsequence_trans {A} (a b c : list A) :
  subsequence a b -> subsequence b c -> subsequence a c.
Proof.
  intros Hab Hbc. revert a Hab.
  induction Hbc as [| x b c Hbc IH | x b c Hbc IH]; intros a Hab.
  - exact Hab.
  - constructor. now apply IH.
  - inversion Hab; subst.
    + apply subsequence_skip. now apply IH.
    + apply subsequence_keep. now apply IH.
Qed.

Lemma subsequence_insert {A} (l : list A) (k : nat) (x : A) :
  subsequence l (firstn k l ++ x :: skipn k l).
Proof.
  revert k. induction l as [|y l IH]; intros [|k]; cbn.
  - apply subsequence_skip, subsequence_nil.
  - apply subsequence_skip, subsequence_nil.
  - apply subsequence_skip, subsequence_refl.
  - apply subsequence_keep, IH.
Qed.

Lemma in_insert {A} (l : list A) (k : nat) (x c : A) :
  In c (firstn k l ++ x :: skipn k l) -> c = x \/ In c l.
Proof.
  intros H.
  assert (Hl : In c (firstn k l) \/ In c (skipn k l) -> In c l).
  { intros Hc. rewrite <- (firstn_skipn k l). now apply in_or_app. }
  apply in_app_or in H as [H | [<- | H]]; auto.
Qed.

Section SnapProps.
Context {G : GeometryLib}.

(** What [add_vertex] returns on a line with a vertex: the line itself, or
    the line with the point inserted at one position. *)
Lemma add_vertex_shape (line : list Coord) (point : Coord) :
  line <> [] ->
  add_vertex line point = Ok line [] \/
  exists k, add_vertex line point
            = Ok (firstn k line ++ point :: skipn k line) [].
Proof.
  intros Hne.
  destruct (nearest_vertex_idx_on_line_ok point line Hne) as (v & at_v & Hv & Hn).
  assert (Hlt : (v < List.length line)%nat) by (apply nth_error_Some; congruence).
  unfold add_vertex. rewrite Hv. cbn [bind]. rewrite Hn.
  cbn [of_option ret bind].
  destruct (coord_eqb point at_v); [now left | right].
  destruct (Nat.eqb_spec v 0) as [-> | Hv0].
  - exists 1%nat. reflexivity.
  - destruct (Nat.eqb_spec v (List.length line - 1)) as [Hlast | Hmid].
    + exists v. reflexivity.
    + destruct (nth_error line (v - 1)) as [before |] eqn:Eb.
      2:{ apply nth_error_None in Eb. lia. }
      destruct (nth_error line (v + 1)) as [after |] eqn:Ea.
      2:{ apply nth_error_None in Ea. lia. }
      cbn [of_option ret bind app].
      destruct (Qltb _ _); cbn [ret bind app];
        [exists v | exists (v + 1)%nat]; reflexivity.
Qed.

Lemma add_vertices_spec (points line : list Coord) :
  line <> [] ->
  exists line',
    add_vertices line points = Ok line' [] /\
    subsequence line line' /\
    (forall c, In c line' -> In c line \/ In c points) /\
    (List.length line' <= List.length line + List.length points)%nat.
Proof.
  revert line. induction points as [|p points IH]; intros line Hne.
  - exists line. cbn. repeat split; [apply subsequence_refl | auto | lia].
  - cbn [add_vertices].
    destruct (add_vertex_shape line p Hne) as [Hsame | [k Hins]].
    + rewrite Hsame. cbn [bind].
      destruct (IH line Hne) as (line' & Hrun & Hsub & Hin & Hlen).
      exists line'. rewrite Hrun. repeat split; auto.
      * intros c Hc. destruct (Hin c Hc); [now left | right; now right].
      * cbn [List.length]. lia.
    + rewrite Hins. cbn [bind].
      set (line1 := firstn k line ++ p :: skipn k line) in *.
      assert (Hne1 : line1 <> []).
      { unfold line1. destruct (firstn k line); discriminate. }
      destruct (IH line1 Hne1) as (line' & Hrun & Hsub & Hin & Hlen).
      exists line'. rewrite Hrun. repeat split.
      * eapply subsequence_trans; [apply subsequence_insert | exact Hsub].
      * intros c Hc. destruct (Hin c Hc) as [H1 | H1];
          [| right; now right].
        apply in_insert in H1 as [-> | H1]; [right; now left | now left].
      * assert (List.length line1 <= Datatypes.S (List.length line))%nat.
        { unfold line1. rewrite length_app, length_firstn. cbn [List.length].
          rewrite length_skipn. lia. }
        cbn [List.length]. lia.
Qed.

(** On a line with a vertex, [snap_line] returns, prints nothing, and only
    adds vertices: the vertices of the line stay, in their order; what is
    new is among the points that lie within the tolerance of the line as it
    was given, and there is at most one new vertex for each of them. *)
Theorem snap_line_adds_vertices
    (line : list Coord) (points : Points) (tolerance : Q) :
  line <> [] ->
  exists line',
    snap_line line points tolerance = Ok line' [] /\
    subsequence line line' /\
    (forall c, In c line' ->
       In c line \/ In c (within_tolerance line points tolerance)) /\
    (List.length line'
     <= List.length line
        + List.length (within_tolerance line points tolerance))%nat.
Proof.
  intros Hne. unfold snap_line, within_tolerance.
  destruct points as [p | ps |].
  - destruct (Qltb _ _).
    + destruct (add_vertices_spec [p] line Hne) as (line' & Hrun & H).
      exists line'. split; [| exact H].
      cbn [add_vertices] in Hrun.
      destruct (add_vertex line p) as [l1 o1 | | |]; try discriminate.
      cbn [bind ret] in Hrun. injection Hrun as <- Ho.
      rewrite app_nil_r in Ho. now subst.
    + exists line. cbn. repeat split; [apply subsequence_refl | auto | lia].
  - apply add_vertices_spec. exact Hne.
  - exists line. cbn. repeat split; [apply subsequence_refl | auto | lia].
Qed.

End SnapProps.

(** ** split_edges_at_nodes_pyg *)

Lemma consecutive_in {A} (l : list A) (a b : A) :
  In (a, b) (consecutive l) -> In a l /\ In b l.
Proof.
  induction l as [|x l IH]; cbn [consecutive]; [intros [] |].
  destruct l as [|y l]; [intros [] |].
  intros [H | H].
  - injection H as <- <-. split; [now left | right; now left].
  - destruct (IH H). split; now right.
Qed.

Lemma filtered_positions_increase {A} (f : nat * A -> bool) (cs : list A)
    (s n : nat) :
  let l := map fst (filter f (combine (seq s n) cs)) in
  (forall i, In i l -> (s <= i)%nat) /\
  (forall a b, In (a, b) (consecutive l) -> (a < b)%nat).
Proof.
  revert s n. induction cs as [|c cs IH]; intros s [|n]; cbn [seq combine filter map];
    try (split; [intros i [] | intros a b []]).
  destruct (IH (Datatypes.S s) n) as [Hge Hinc].
  destruct (f (s, c)); cbn [map fst].
  - split.
    + intros i [<- | Hi]; [lia |]. apply Hge in Hi. lia.
    + intros a b Hab. cbn [consecutive] in Hab.
      destruct (map fst (filter f (combine (seq (Datatypes.S s) n) cs)))
        as [|y l] eqn:El; [destruct Hab |].
      destruct Hab as [Hab | Hab].
      * injection Hab as <- <-.
        specialize (Hge y (or_introl eq_refl)). lia.
      * now apply Hinc.
  - split; [| exact Hinc]. intros i Hi. apply Hge in Hi. lia.
Qed.

Lemma split_locs_bound (cs pts : list Coord) (i : nat) :
  In i (split_locs cs pts) -> (i < List.length cs)%nat.
Proof.
  unfold split_locs. intros H. apply in_map_iff in H as [[j c] [<- Hin]].
  apply filter_In in Hin as [Hin _].
  apply in_combine_seq in Hin as [_ Hn]. cbn [fst].
  rewrite Nat.sub_0_r in Hn.
  destruct (Nat.lt_ge_cases j (List.length cs)) as [Hlt | Hge]; [exact Hlt |].
  apply (nth_error_None cs j) in Hge. unfold Coord in *.
  rewrite Hge in Hn. discriminate.
Qed.

Lemma split_locs_pairs (cs pts : list Coord) (a b : nat) :
  In (a, b) (consecutive (split_locs cs pts)) ->
  In a (split_locs cs pts) /\ In b (split_locs cs pts) /\
  (a < b < List.length cs)%nat.
Proof.
  intros H. destruct (consecutive_in _ _ _ H) as [Ha Hb].
  split; [exact Ha |]. split; [exact Hb |]. split.
  - unfold split_locs in H.
    eapply (proj2 (filtered_positions_increase _ cs 0 (List.length cs))).
    exact H.
  - eapply split_locs_bound; eauto.
Qed.

(** The scalar-wise membership test of the split: a vertex counts as a
    split location as soon as its first coordinate is a coordinate of one
    split point and its second a coordinate of another. *)
Theorem split_locs_mixes_points
    (cs pts : list Coord) (i : nat) (x y a b : Q) :
  nth_error cs i = Some (x, y) ->
  In (x, a) pts -> In (b, y) pts ->
  In i (split_locs cs pts).
Proof.
  intros Hi Hx Hy. unfold split_locs.
  apply in_map_iff. exists (i, (x, y)). split; [reflexivity |].
  apply filter_In. split.
  - assert (Hn : nth_error (combine (seq 0 (List.length cs)) cs) i
                 = Some (i, (x, y))).
    { rewrite nth_error_combine_seq, Hi. reflexivity. }
    eapply nth_error_In; eauto.
  - cbn [fst snd]. apply andb_true_iff. split; unfold scalar_in;
      apply existsb_exists.
    + exists (x, a). split; [exact Hx |]. cbn [fst].
      apply orb_true_iff. left. apply Qeq_bool_iff, Qeq_refl.
    + exists (b, y). split; [exact Hy |]. cbn [snd].
      apply orb_true_iff. right. apply Qeq_bool_iff, Qeq_refl.
Qed.

Section SplitProps.
Context {G : GeometryLib}.

Lemma split_pieces_run (edge : Feature) (cs : list Coord)
    (pairs : list (nat * nat)) :
  (forall a b, In (a, b) pairs -> (a < b < List.length cs)%nat) ->
  split_pieces edge (map (fun ab => slice cs (fst ab) (snd ab)) pairs)
  = Ok (map (fun ab => mkFeature (feat_osm_id edge) (feat_highway edge)
                         (LineString (slice cs (fst ab) (snd ab)))) pairs) [].
Proof.
  induction pairs as [|[a b] pairs IH]; intros Hp; [reflexivity |].
  cbn [map split_pieces fst snd].
  assert (Hlen : (List.length (slice cs a b) <? 2)%nat = false).
  { apply Nat.ltb_ge. unfold slice.
    rewrite length_firstn, length_skipn.
    specialize (Hp a b (or_introl eq_refl)). lia. }
  unfold linestrings. rewrite Hlen. cbn [ret bind].
  rewrite IH by (intros; apply Hp; now right). reflexivity.
Qed.

Lemma split_loop_run (all : list Geometry) (rows : list Feature) :
  split_loop all rows
  = Ok (flat_map (fun e => map (fun ab => piece e (fst ab) (snd ab))
                               (consecutive (cut_positions all e))) rows) [].
Proof.
  induction rows as [|e rows IH]; [reflexivity |].
  cbn [split_loop flat_map].
  rewrite split_pieces_run.
  - cbn [bind]. rewrite IH. reflexivity.
  - intros a b Hab. now apply split_locs_pairs in Hab.
Qed.

(** [split_edges_at_nodes_pyg] always returns, prints nothing and leaves
    the node table alone.  Every edge of the result is a piece of an edge of
    the input: it has its [osm_id] and [highway], and for geometry the
    vertices of the edge from one cut position to a later one. *)
Theorem split_edges_at_nodes_pyg_pieces (network : RawNetwork) :
  exists es,
    split_edges_at_nodes_pyg network = Ok (mkRaw (raw_nodes network) es) [] /\
    forall f, In f es ->
      exists e a b,
        In e (raw_edges network) /\
        In a (cut_positions (map feat_geometry (raw_edges network)) e) /\
        In b (cut_positions (map feat_geometry (raw_edges network)) e) /\
        (a < b < List.length (get_coordinates (feat_geometry e)))%nat /\
        f = piece e a b.
Proof.
  unfold split_edges_at_nodes_pyg. rewrite split_loop_run. cbn [bind ret app].
  eexists. split; [reflexivity |].
  intros f Hf. apply in_flat_map in Hf as (e & He & Hf).
  apply in_map_iff in Hf as ([a b] & <- & Hab).
  apply split_locs_pairs in Hab as (Ha & Hb & Hlt).
  exists e, a, b. repeat split; try assumption; lia.
Qed.

(** An edge table in which every edge has fewer than two cut positions
    comes back without rows: an edge none of whose vertices is a split point
    is not kept. *)
Theorem split_edges_at_nodes_pyg_uncut (network : RawNetwork) :
  (forall e, In e (raw_edges network) ->
     (List.length (cut_positions (map feat_geometry (raw_edges network)) e)
      < 2)%nat) ->
  split_edges_at_nodes_pyg network = Ok (mkRaw (raw_nodes network) []) [].
Proof.
  intros Hfew. unfold split_edges_at_nodes_pyg. rewrite split_loop_run.
  cbn [bind ret app]. do 2 f_equal.
  revert Hfew. generalize (map feat_geometry (raw_edges network)).
  intros all Hall. induction (raw_edges network) as [|e rows IH];
    [reflexivity |].
  cbn [flat_map]. rewrite IH by (intros; apply Hall; now right).
  specialize (Hall e (or_introl eq_refl)).
  destruct (cut_positions all e) as [|a [|b l]]; cbn in *; [reflexivity.. | lia].
Qed.

End SplitProps.

(** * The passes on the example networks *)

(** C9 (as the code has it). On a node table with one row and an edge table
    without rows, [calculate_degree] raises: the builtin [max] of its
    diagnostic guard meets an empty column before any bin is counted. *)
Theorem calculate_degree_no_edges :
  calculate_degree Examples.lonely = Raise ValueError.
Proof. reflexivity. Qed.

(** On the three-node path the degrees are 1, 2, 1. *)
Example calculate_degree_path3 :
  calculate_degree Examples.path3 = Ok [1; 2; 1] [].
Proof. reflexivity. Qed.

(** C4 (as the code has it). An edge neither of whose endpoints resolves
    enters [bugs] twice, once per endpoint: [add_topology] drops the one
    edge and reports a count of 2. *)
Theorem add_topology_counts_endpoints :
  add_topology (G := Planar.kernel) Examples.unresolved
  = Ok (mkNetwork (nodes Examples.unresolved) false []) [MsgNotConnected 2].
Proof. reflexivity. Qed.

(** C3 (as the code has it). An isolated short segment has both endpoints
    hanging, so it is listed twice among the candidates; the length rule
    fires at both visits and leaves both endpoints at degree -1. *)
Theorem drop_hanging_nodes_decrements_twice :
  hanging_candidates [1; 1] (edges Examples.isolated_stub) = [0; 0] /\
  drop_hanging_nodes (G := Planar.kernel) Examples.isolated_stub (1 # 200)
  = Ok (mkNetwork
          [mkNode 0 (Point (0, 0)%Q) (-1);
           mkNode 1 (Point (1 # 1000, 0)%Q) (-1)]
          true [])
       [].
Proof. split; reflexivity. Qed.

(** ** merge_2 on the examples *)

(** A set of one or two integers iterates in one of the few orders there
    are. *)
Lemma set_of_single (S : SetOrder) (x : Z) : set_of [x] = [x].
Proof.
  pose proof (set_of_nodup [x]) as Hnd.
  pose proof (set_of_members [x]) as Hm.
  destruct (set_of [x]) as [|y r].
  - exfalso. apply (Hm x). now left.
  - assert (y = x) as -> by (destruct (proj1 (Hm y) (or_introl eq_refl)) as [E | []]; auto).
    destruct r as [|z r]; [reflexivity |]. exfalso.
    assert (z = x) as -> by (destruct (proj1 (Hm z) (or_intror (or_introl eq_refl))) as [E | []]; auto).
    inversion Hnd as [|? ? Hnot _]. apply Hnot. now left.
Qed.

Lemma set_of_pair (S : SetOrder) (a b : Z) :
  a <> b -> set_of [a; b] = [a; b] \/ set_of [a; b] = [b; a].
Proof.
  intros Hab.
  pose proof (set_of_nodup [a; b]) as Hnd.
  pose proof (set_of_members [a; b]) as Hm.
  assert (Hin : forall z, In z (set_of [a; b]) -> z = a \/ z = b).
  { intros z Hz. apply Hm in Hz. simpl in Hz. intuition. }
  assert (Ha : In a (set_of [a; b])) by (apply Hm; now left).
  assert (Hb : In b (set_of [a; b])) by (apply Hm; right; now left).
  destruct (set_of [a; b]) as [|x [|y [|z r]]].
  - destruct Ha.
  - exfalso. destruct Ha as [<- | []], Hb as [E | []]. congruence.
  - inversion Hnd as [|? ? Hnot _]; subst.
    destruct (Hin x (or_introl eq_refl)) as [-> | ->],
             (Hin y (or_intror (or_introl eq_refl))) as [-> | ->]; auto;
      exfalso; apply Hnot; now left.
  - exfalso.
    inversion Hnd as [|? ? Hx Hnd1]; subst.
    inversion Hnd1 as [|? ? Hy Hnd2]; subst.
    destruct (Hin x (or_introl eq_refl)) as [-> | ->],
             (Hin y (or_intror (or_introl eq_refl))) as [-> | ->],
             (Hin z (or_intror (or_intror (or_introl eq_refl)))) as [-> | ->];
      simpl in Hx, Hy; intuition.
Qed.

Section OffNode.
Variable S : SetOrder.

Let e0 := mkEdge 0 0 1 7 "primary" (LineString [Planar.pt 0 0; Planar.pt 1 0]).
Let e1 := mkEdge 1 0 2 8 "primary" (LineString [Planar.pt 0 0; Planar.pt 0 1]).

(** What the index returns at nodes 0 and 1. *)
Lemma off_node_index :
  Examples.off_node_sindex (Point (Planar.pt 0 0)) = [0; 1] /\
  Examples.off_node_sindex (Point (Planar.pt 1 0)) = [0].
Proof. split; vm_compute; reflexivity. Qed.

(** At node 1 the index finds one edge: the attempt is skipped. *)
Lemma off_node_skip (m : Merge) :
  choose_paths (G := Planar.kernel) (S := S)
    Examples.off_node_nodGeom Examples.off_node_sindex m 1
  = Ok None [].
Proof.
  unfold choose_paths.
  change (at_label Examples.off_node_nodGeom 1) with (Some (Point (Planar.pt 1 0))).
  cbn [of_option ret bind].
  rewrite (proj2 off_node_index), set_of_single. reflexivity.
Qed.

(** At node 0 it finds edges 0 and 1, in one order or the other. *)
Lemma off_node_paths (rest : list Z) (first second : Edge) (i1 i2 : Z) :
  set_of [0; 1] = [i1; i2] ->
  iloc (edges Examples.off_node) i1 = Some first ->
  iloc (edges Examples.off_node) i2 = Some second ->
  choose_paths (G := Planar.kernel) (S := S)
    Examples.off_node_nodGeom Examples.off_node_sindex
    (mkMerge [2; 2; 1; 1] (edges Examples.off_node) rest []) 0
  = Ok (Some (first, second)) [].
Proof.
  intros Hs H1 H2. unfold choose_paths.
  change (at_label Examples.off_node_nodGeom 0) with (Some (Point (Planar.pt 0 0))).
  cbn [of_option ret bind].
  rewrite (proj1 off_node_index), Hs. cbn [List.length Z.of_nat Z.ltb Z.compare
    Pos.of_succ_nat Pos.succ Pos.compare Pos.compare_cont edg].
  rewrite H1, H2. reflexivity.
Qed.

(** At frontier node 1 the index returns edge 0 alone, the edge the walk
    came by: the [try] block raises and [continue] restarts the turn on the
    same state. *)
Lemma off_node_step1 (rest : list Z) :
  let m := mkMerge [2; 2; 1; 1] (edges Examples.off_node) rest [] in
  let a0 := start_attempt m 0 e0 e1 in
  walk1_step (G := Planar.kernel) (S := S)
    Examples.off_node_nodGeom Examples.off_node_sindex m a0
  = Ok (Some a0) [].
Proof.
  intros m a0. unfold walk1_step.
  change (np_get (deg m) (nextNode1 a0)) with (Some 2).
  cbn [of_option ret bind Z.eqb Pos.eqb negb].
  change (mem (nextNode1 a0) (pos_0_deg a0)) with false. cbv iota.
  change (at_label Examples.off_node_nodGeom (nextNode1 a0))
    with (Some (Point (Planar.pt 1 0))).
  cbn [of_option ret bind].
  rewrite (proj2 off_node_index), set_of_single.
  reflexivity.
Qed.

Lemma off_node_step2 (rest : list Z) :
  let m := mkMerge [2; 2; 1; 1] (edges Examples.off_node) rest [] in
  let a0 := start_attempt m 0 e1 e0 in
  walk1_step (G := Planar.kernel) (S := S)
    Examples.off_node_nodGeom Examples.off_node_sindex m a0
  = Ok None [] /\
  walk2_step (G := Planar.kernel) (S := S)
    Examples.off_node_nodGeom Examples.off_node_sindex m a0
  = Ok (Some a0) [].
Proof.
  intros m a0. split; [reflexivity |]. unfold walk2_step.
  change (np_get (deg m) (nextNode2 a0)) with (Some 2).
  cbn [of_option ret bind Z.eqb Pos.eqb negb].
  change (mem (nextNode2 a0) (pos_0_deg a0)) with false. cbv iota.
  change (at_label Examples.off_node_nodGeom (nextNode2 a0))
    with (Some (Point (Planar.pt 1 0))).
  cbn [of_option ret bind].
  rewrite (proj2 off_node_index), set_of_single.
  reflexivity.
Qed.

(** The attempt at node 0 never returns, in whichever order the two edges
    come. *)
Lemma off_node_body (fuel : nat) (rest : list Z) :
  merge_2_body (G := Planar.kernel) (S := S)
    Examples.off_node_nodGeom Examples.off_node_sindex false fuel
    (mkMerge [2; 2; 1; 1] (edges Examples.off_node) rest []) 0
  = OutOfFuel.
Proof.
  unfold merge_2_body.
  destruct (set_of_pair S 0 1 ltac:(discriminate)) as [Hs | Hs].
  - rewrite (off_node_paths rest e0 e1 0 1 Hs eq_refl eq_refl). cbn [bind].
    set (a0 := start_attempt _ _ _ _).
    replace (nextNode1 a0 =? nextNode2 a0) with false by reflexivity.
    rewrite (walk_stuck _ a0 (off_node_step1 rest)). reflexivity.
  - rewrite (off_node_paths rest e1 e0 1 0 Hs eq_refl eq_refl). cbn [bind].
    set (a0 := start_attempt _ _ _ _).
    replace (nextNode1 a0 =? nextNode2 a0) with false by reflexivity.
    destruct (off_node_step2 rest) as [Hw1 Hw2]. fold a0 in Hw1, Hw2.
    destruct fuel as [|fuel]; [reflexivity |].
    rewrite (walk_exit _ a0 Hw1). cbn [bind].
    rewrite (walk_stuck _ a0 Hw2). reflexivity.
Qed.

(** The loop is cut off whichever node is popped first. *)
Lemma off_node_loop (fuel : nat) :
  merge_2_loop (G := Planar.kernel) (S := S)
    Examples.off_node_nodGeom Examples.off_node_sindex false fuel
    (mkMerge [2; 2; 1; 1] (edges Examples.off_node) (set_of [0; 1]) [])
  = OutOfFuel.
Proof.
  destruct fuel as [|fuel]; [reflexivity |].
  destruct (set_of_pair S 0 1 ltac:(discriminate)) as [Hs | Hs]; rewrite Hs;
    cbn [merge_2_loop n2 deg edg eIDtoRemove].
  - rewrite off_node_body. reflexivity.
  - unfold merge_2_body at 1. rewrite off_node_skip. cbn [bind ret].
    destruct fuel as [|fuel]; [reflexivity |].
    cbn [merge_2_loop n2 deg edg eIDtoRemove].
    rewrite off_node_body. reflexivity.
Qed.

End OffNode.

(** C2 (as the code has it). On [off_node] a walk never leaves node 1:
    whatever the fuel and whatever the order in which the sets iterate,
    [merge_2] is cut off. *)
Theorem merge_2_walk_spins (S : SetOrder) (fuel : nat) :
  merge_2 (G := Planar.kernel) (S := S) fuel Examples.off_node false
  = OutOfFuel.
Proof.
  rewrite (merge_2_with_degree fuel _ _ [0; 1]) by reflexivity.
  change (merge_2_loop (map node_geometry (nodes Examples.off_node))
            (tree_query_intersects (map geometry (edges Examples.off_node)))
            false fuel
            (mkMerge (map degree (nodes Examples.off_node))
                     (edges Examples.off_node) (set_of [0; 1]) []))
    with (merge_2_loop (G := Planar.kernel) (S := S)
            Examples.off_node_nodGeom Examples.off_node_sindex false fuel
            (mkMerge [2; 2; 1; 1] (edges Examples.off_node) (set_of [0; 1]) [])).
  rewrite off_node_loop. reflexivity.
Qed.



(** C7, the claim as stated fails. [star_and_stray] has a degree column and
    no node of degree 2; [merge_2] returns it without its node of degree
    0. *)
Lemma merge_2_removes_isolated_node :
  has_degree Examples.star_and_stray = true /\
  (forall n, In n (nodes Examples.star_and_stray) -> degree n <> 2) /\
  merge_2 (G := Planar.kernel) (S := Planar.sets) 1 Examples.star_and_stray false
  = Ok Examples.star [] /\
  nodes Examples.star <> nodes Examples.star_and_stray.
Proof.
  split; [reflexivity |]. split.
  - intros n Hn. simpl in Hn.
    repeat (destruct Hn as [<- | Hn]; [simpl; lia |]). destruct Hn.
  - split; [reflexivity | discriminate].
Qed.

(** C7, amended: the theorem at [star]. *)
Lemma merge_2_contracted_witness :
  has_degree Examples.star = true /\
  (forall n, In n (nodes Examples.star) -> degree n <> 2 /\ 0 < degree n) /\
  merge_2 (G := Planar.kernel) (S := Planar.sets) 1 Examples.star false
  = Ok Examples.star [].
Proof.
  assert (Hc : has_degree Examples.star = true) by reflexivity.
  assert (Hd : forall n, In n (nodes Examples.star) ->
                 degree n <> 2 /\ 0 < degree n).
  { intros n Hn. simpl in Hn.
    repeat (destruct Hn as [<- | Hn]; [simpl; lia |]). destruct Hn. }
  split; [exact Hc |]. split; [exact Hd |].
  exact (merge_2_contracted (G := Planar.kernel) (S := Planar.sets)
           0 Examples.star false Hc Hd).
Defined.

(** C8: the theorem at [path3_sparse], whose node ids 10, 30, 20 become
    0, 1, 2. *)
Lemma reset_ids_renumbers_witness :
  references_resolve (nodes Examples.path3_sparse) (edges Examples.path3_sparse) /\
  map node_id (nodes (reset_ids Examples.path3_sparse)) = range 3 /\
  map from_id (edges (reset_ids Examples.path3_sparse)) = [0; 1] /\
  map to_id (edges (reset_ids Examples.path3_sparse)) = [1; 2].
Proof.
  assert (H : references_resolve (nodes Examples.path3_sparse)
                                 (edges Examples.path3_sparse)).
  { intros e He. simpl in He.
    repeat (destruct He as [<- | He]; [simpl; tauto |]). destruct He. }
  split; [exact H |].
  split; [exact (proj1 (reset_ids_renumbers Examples.path3_sparse H)) |].
  split; reflexivity.
Defined.

(** C1: the theorem at [lens_features], on which the pipeline returns
    [lens]. *)
Lemma simplify_references_resolve_witness :
  simplify_network_from_gdf (G := Planar.kernel) (S := Planar.sets)
    10 Examples.lens_features
  = Ok Examples.lens [MsgNotConnected 0; MsgGeopackage] /\
  forall e, In e (edges Examples.lens) ->
    In (from_id e) (map node_id (nodes Examples.lens)) /\
    In (to_id e) (map node_id (nodes Examples.lens)).
Proof.
  assert (H : simplify_network_from_gdf (G := Planar.kernel) (S := Planar.sets)
                10 Examples.lens_features
              = Ok Examples.lens [MsgNotConnected 0; MsgGeopackage])
    by (vm_compute; reflexivity).
  split; [exact H |].
  exact (simplify_references_resolve (G := Planar.kernel) (S := Planar.sets)
           10 Examples.lens_features Examples.lens _ H).
Defined.

(** ** clean_roundabouts on the examples *)

(** The planar kernel satisfies the three laws of the statement. *)
Lemma planar_ring_is_closed : ring_is_closed (G := Planar.kernel).
Proof.
  intros g H. destruct g as [| c | cs | ps]; try discriminate.
  destruct cs as [|c cs]; [discriminate |].
  cbn in H. apply andb_true_iff in H as [_ H]. exact H.
Qed.

Lemma squares_nonneg (x y : Q) : (0 <= x * x + y * y)%Q.
Proof. nra. Qed.

Lemma squares_zero (x y : Q) : (x * x + y * y <= 0)%Q -> (x == 0 /\ y == 0)%Q.
Proof.
  intros H. assert (x * x == 0)%Q by nra. assert (y * y == 0)%Q by nra.
  split; nra.
Qed.

Lemma sq_dist_same (a b : Coord) :
  coord_eqb a b = true -> (Planar.sq_dist a b == 0)%Q.
Proof.
  intros H. apply coord_eqb_iff in H as [H1 H2].
  unfold Planar.sq_dist. cbv zeta. rewrite H1, H2. ring.
Qed.

Lemma planar_nothing_nearer : nothing_nearer (G := Planar.kernel).
Proof.
  intros a b p H. cbn. unfold Qltb. apply negb_false_iff, Qle_bool_iff.
  rewrite (sq_dist_same _ _ H). apply squares_nonneg.
Qed.

Lemma planar_only_self_nearest : only_self_nearest (G := Planar.kernel).
Proof.
  intros a b c H Hl. cbn in Hl. unfold Qltb in Hl.
  apply negb_false_iff, Qle_bool_iff in Hl.
  rewrite (sq_dist_same _ _ H) in Hl.
  apply squares_zero in Hl as [Hx Hy].
  apply coord_eqb_iff. split; lra.
Qed.

(** C6, the claim as stated fails. With the two touching roads carrying one
    [osm_id], the second is taken for the first touched again: the result
    holds a single rerouted edge, the first road with the centroid spliced on
    twice, and the geometry of the second road is gone. *)
Lemma clean_roundabouts_same_osm_id :
  find_roundabouts (G := Planar.kernel) Examples.same_way_rows
  = [(0, Examples.square)] /\
  touching (G := Planar.kernel) Examples.same_way_rows 0 Examples.square = [1; 2] /\
  clean_roundabouts (G := Planar.kernel) Examples.same_way_rows
  = Ok [mkFeature 2 "secondary"
          (LineString [Planar.pt 1 1; Planar.pt 1 1; Planar.pt 2 1; Planar.pt 4 1])]
       [].
Proof. repeat split; vm_compute; reflexivity. Qed.

(** C6, amended: the theorem at [roundabout_rows]. *)
Lemma clean_roundabouts_one_ring_witness :
  (find_roundabouts (G := Planar.kernel) Examples.roundabout_rows
   = [(0, Examples.square)] /\
   touching (G := Planar.kernel) Examples.roundabout_rows 0 Examples.square
   = [1; 2] /\
   feat_osm_id Examples.east <> feat_osm_id Examples.west) /\
  clean_roundabouts (G := Planar.kernel) Examples.roundabout_rows
  = Ok [mkFeature 2 "primary"
          (LineString [Planar.pt 1 1; Planar.pt 2 1; Planar.pt 4 1]);
        mkFeature 3 "secondary"
          (LineString [Planar.pt (-2) 1; Planar.pt 0 1; Planar.pt 1 1])]
       [].
Proof.
  assert (Hf : find_roundabouts (G := Planar.kernel) Examples.roundabout_rows
               = [(0, Examples.square)]) by (vm_compute; reflexivity).
  assert (Ht : touching (G := Planar.kernel) Examples.roundabout_rows 0
                 Examples.square = [1; 2]) by (vm_compute; reflexivity).
  assert (Ho : feat_osm_id Examples.east <> feat_osm_id Examples.west)
    by discriminate.
  split; [repeat split; assumption |].
  assert (Hs : In 0 (tree_query_intersects (GeometryLib := Planar.kernel)
                       (map feat_geometry Examples.roundabout_rows)
                       (buffer_or_self (GeometryLib := Planar.kernel)
                          (feat_geometry Examples.square))))
    by (vm_compute; tauto).
  pose proof (clean_roundabouts_one_ring (G := Planar.kernel)
                Examples.roundabout_rows 0 1 2
                Examples.square Examples.east Examples.west
                [Planar.pt 2 1; Planar.pt 4 1] [Planar.pt (-2) 1; Planar.pt 0 1]
                planar_ring_is_closed planar_nothing_nearer
                planar_only_self_nearest
                Hf Hs Ht eq_refl eq_refl eq_refl eq_refl
                ltac:(discriminate) ltac:(discriminate)
                eq_refl eq_refl Ho) as [Hrun _].
  rewrite Hrun. vm_compute. reflexivity.
Defined.

(** C10: the theorem on the segment from (0, 0) to (4, 0).  The point
    (1, 0) goes in after the first vertex, which is its nearest; the point
    (4, 0) has the coordinates of its nearest vertex, the last one, and the
    line comes back as it is. *)
Lemma add_vertex_inserts_once_witness :
  [Planar.pt 0 0; Planar.pt 4 0] <> [] /\
  add_vertex (G := Planar.kernel) [Planar.pt 0 0; Planar.pt 4 0] (Planar.pt 1 0)
  = Ok [Planar.pt 0 0; Planar.pt 1 0; Planar.pt 4 0] [] /\
  add_vertex (G := Planar.kernel) [Planar.pt 0 0; Planar.pt 4 0] (Planar.pt 4 0)
  = Ok [Planar.pt 0 0; Planar.pt 4 0] [] /\
  nearest_vertex_idx_on_line (G := Planar.kernel) (Planar.pt 4 0)
    [Planar.pt 0 0; Planar.pt 4 0] = Ok 1%nat [] /\
  exists v_idx at_v,
    nearest_vertex_idx_on_line (G := Planar.kernel) (Planar.pt 1 0)
      [Planar.pt 0 0; Planar.pt 4 0] = Ok v_idx [] /\
    nth_error [Planar.pt 0 0; Planar.pt 4 0] v_idx = Some at_v /\
    forall j c, nth_error [Planar.pt 0 0; Planar.pt 4 0] j = Some c ->
      (distance (GeometryLib := Planar.kernel)
         (Point (Planar.pt 1 0)) (Point at_v)
       <= distance (GeometryLib := Planar.kernel)
            (Point (Planar.pt 1 0)) (Point c))%Q.
Proof.
  assert (Hne : [Planar.pt 0 0; Planar.pt 4 0] <> []) by discriminate.
  split; [exact Hne |]. split; [reflexivity |].
  split; [reflexivity |]. split; [reflexivity |].
  destruct (add_vertex_inserts_once (G := Planar.kernel)
              [Planar.pt 0 0; Planar.pt 4 0] (Planar.pt 1 0) Hne)
    as (v & at_v & Hv & Hn & Hleast & _).
  exists v, at_v. repeat split; assumption.
Defined.

(** ** Further runs on the examples *)

(** [calculate_degree_spec] at [path3]. *)
Lemma calculate_degree_spec_witness :
  edges Examples.path3 <> [] /\
  valid_ends (List.length (nodes Examples.path3)) (edges Examples.path3) /\
  exists out,
    calculate_degree Examples.path3
    = Ok (map (degree_of (edges Examples.path3)) (range 3)) out.
Proof.
  assert (Hne : edges Examples.path3 <> []) by discriminate.
  assert (Hv : valid_ends (List.length (nodes Examples.path3))
                          (edges Examples.path3)).
  { intros e He. simpl in He.
    repeat (destruct He as [<- | He]; [simpl; lia |]). destruct He. }
  split; [exact Hne |]. split; [exact Hv |].
  exact (calculate_degree_spec Examples.path3 Hne Hv).
Defined.

(** [add_topology_drops_defective] at [path3]: both edges resolve. *)
Lemma add_topology_drops_defective_witness :
  NoDup (map edge_id (edges Examples.path3)) /\
  add_topology (G := Planar.kernel) Examples.path3
  = Ok Examples.path3 [MsgNotConnected 0].
Proof.
  assert (Hnd : NoDup (map edge_id (edges Examples.path3))).
  { simpl. repeat constructor; simpl; intuition discriminate. }
  split; [exact Hnd |].
  destruct (add_topology_drops_defective (G := Planar.kernel)
              Examples.path3 Hnd) as [Hrun _].
  rewrite Hrun. vm_compute. reflexivity.
Defined.

(** The chain of five nodes contracts to one edge from node 0 to node 4
    whose geometry is the concatenation of the four segments; the three inner
    nodes are removed. *)
Example merge_2_chain5 :
  merge_2 (G := Planar.kernel) (S := Planar.sets) 10 Examples.chain5 false
  = Ok (mkNetwork
          [mkNode 0 (Point (Planar.pt 0 0)) 1; mkNode 4 (Point (Planar.pt 4 0)) 1]
          true
          [mkEdge 0 0 4 7 "primary"
             (LineString [Planar.pt 0 0; Planar.pt 1 0; Planar.pt 2 0;
                          Planar.pt 3 0; Planar.pt 4 0])])
       [].
Proof. vm_compute. reflexivity. Qed.

(** [merge_2_body_pending] at [chain5]: the attempt at node 1 walks over
    nodes 2 and 3 and empties the pending set. *)
Lemma merge_2_body_pending_witness :
  exists m' out,
    merge_2_body (G := Planar.kernel) (S := Planar.sets)
      (map node_geometry (nodes Examples.chain5))
      (Planar.planar_query_intersects (map geometry (edges Examples.chain5)))
      false 5 Examples.chain5_popped 1
    = Ok m' out /\
    n2 m' = [] /\
    incl (n2 m') (n2 Examples.chain5_popped).
Proof.
  destruct (merge_2_body (G := Planar.kernel) (S := Planar.sets)
              (map node_geometry (nodes Examples.chain5))
              (Planar.planar_query_intersects (map geometry (edges Examples.chain5)))
              false 5 Examples.chain5_popped 1) as [m' out | e | |] eqn:E;
    try (vm_compute in E; discriminate).
  exists m', out. split; [reflexivity |]. split.
  - vm_compute in E. injection E as <- _. reflexivity.
  - exact (merge_2_body_pending (G := Planar.kernel) (S := Planar.sets)
             _ _ _ _ _ _ _ _ E).
Defined.

(** [simplify_dense_ids] at [lens_features]. *)
Lemma simplify_dense_ids_witness :
  simplify_network_from_gdf (G := Planar.kernel) (S := Planar.sets)
    10 Examples.lens_features
  = Ok Examples.lens [MsgNotConnected 0; MsgGeopackage] /\
  map node_id (nodes Examples.lens) = range 2 /\
  map edge_id (edges Examples.lens) = range 2.
Proof.
  assert (H : simplify_network_from_gdf (G := Planar.kernel) (S := Planar.sets)
                10 Examples.lens_features
              = Ok Examples.lens [MsgNotConnected 0; MsgGeopackage])
    by (vm_compute; reflexivity).
  split; [exact H |].
  exact (simplify_dense_ids (G := Planar.kernel) (S := Planar.sets)
           10 Examples.lens_features Examples.lens _ H).
Defined.

(** * The further properties on the examples *)

(** [reset_ids_keeps_dangling] at [dangling]: the reference 1 names no
    node among 10, 30, 20 and is still 1 afterwards, when node 30 has become
    node 1. *)
Lemma reset_ids_keeps_dangling_witness :
  nth_error (edges Cases.dangling) 0 = Some Cases.dangling_edge /\
  ~ In (to_id Cases.dangling_edge) (map node_id (nodes Cases.dangling)) /\
  map node_id (nodes (reset_ids Cases.dangling)) = [0; 1; 2] /\
  exists e', nth_error (edges (reset_ids Cases.dangling)) 0 = Some e' /\
             to_id e' = 1.
Proof.
  assert (He : nth_error (edges Cases.dangling) 0 = Some Cases.dangling_edge)
    by reflexivity.
  assert (Hno : ~ In (to_id Cases.dangling_edge)
                     (map node_id (nodes Cases.dangling))).
  { cbn. intros H. repeat (destruct H as [H | H]; [discriminate |]). exact H. }
  split; [exact He |]. split; [exact Hno |]. split; [reflexivity |].
  destruct (reset_ids_keeps_dangling Cases.dangling 0 Cases.dangling_edge He)
    as (e' & He' & _ & Hto).
  exists e'. split; [exact He' | exact (Hto Hno)].
Defined.

(** [quickFix_keeps_sound] at [unsound]: of the three edges the one with a
    reference to node 7 and the one with two geometries go. *)
Lemma quickFix_keeps_sound_witness :
  py_max (map node_id (nodes Cases.unsound)) = Some 2 /\
  NoDup (map edge_id (edges Cases.unsound)) /\
  quickFix Cases.unsound
  = Ok (mkNetwork (nodes Cases.unsound) true
          [mkEdge 0 0 1 7 "primary"
             (LineString [Planar.pt 0 0; Planar.pt 1 0])])
       [MsgMultipleGeometries 2].
Proof.
  assert (Hmax : py_max (map node_id (nodes Cases.unsound)) = Some 2)
    by reflexivity.
  assert (Hnd : NoDup (map edge_id (edges Cases.unsound))).
  { cbn. repeat constructor; cbn; intuition discriminate. }
  split; [exact Hmax |]. split; [exact Hnd |].
  rewrite (quickFix_keeps_sound Cases.unsound 2 Hmax Hnd). reflexivity.
Defined.

(** [add_travel_time_unlisted_class] at [service_road]: the class
    [service] has no speed. *)
Lemma add_travel_time_unlisted_class_witness :
  In Cases.service_edge (edges Cases.service_road) /\
  speed_get (highway Cases.service_edge) = None /\
  add_travel_time (G := Planar.kernel) Cases.service_road = Raise TypeError.
Proof.
  assert (He : In Cases.service_edge (edges Cases.service_road))
    by (now left).
  assert (Hs : speed_get (highway Cases.service_edge) = None) by reflexivity.
  split; [exact He |]. split; [exact Hs |].
  exact (proj2 (add_travel_time_unlisted_class (G := Planar.kernel)
                  Cases.service_road Cases.service_edge He Hs)
               Cases.service_road [] eq_refl).
Defined.

(** [simplify_listed_classes] at [lens_features]. *)
Lemma simplify_listed_classes_witness :
  simplify_network_from_gdf (G := Planar.kernel) (S := Planar.sets)
    10 Examples.lens_features
  = Ok Examples.lens [MsgNotConnected 0; MsgGeopackage] /\
  forall e, In e (edges Examples.lens) ->
    exists v, speed_get (highway e) = Some v.
Proof.
  assert (H : simplify_network_from_gdf (G := Planar.kernel) (S := Planar.sets)
                10 Examples.lens_features
              = Ok Examples.lens [MsgNotConnected 0; MsgGeopackage])
    by (vm_compute; reflexivity).
  split; [exact H |].
  exact (simplify_listed_classes (G := Planar.kernel) (S := Planar.sets)
           10 Examples.lens_features Examples.lens _ H).
Defined.

(** [clean_roundabouts_no_rings] at [lens_features], two open lines. *)
Lemma clean_roundabouts_no_rings_witness :
  (forall f, In f Examples.lens_features ->
     is_ring (GeometryLib := Planar.kernel) (feat_geometry f) = false) /\
  clean_roundabouts (G := Planar.kernel) Examples.lens_features
  = Ok Examples.lens_features [].
Proof.
  assert (Hno : forall f, In f Examples.lens_features ->
            is_ring (GeometryLib := Planar.kernel) (feat_geometry f) = false).
  { intros f Hf. cbn in Hf.
    repeat (destruct Hf as [<- | Hf]; [reflexivity |]). destruct Hf. }
  split; [exact Hno |].
  exact (clean_roundabouts_no_rings (G := Planar.kernel)
           Examples.lens_features Hno).
Defined.

(** [nearest_is_nearest] on the nodes of [path3]: of the two candidates the
    index returns for the point (1, 0), the node at that point is taken. *)
Lemma nearest_is_nearest_witness :
  nearest (G := Planar.kernel) (Point (Planar.pt 1 0)) (nodes Examples.path3)
          (fun _ => [0; 1])
  = Ok (mkNode 1 (Point (Planar.pt 1 0)) 0) [] /\
  (exists p, In p [0; 1] /\
     iloc (nodes Examples.path3) p = Some (mkNode 1 (Point (Planar.pt 1 0)) 0)) /\
  nearest (G := Planar.kernel) (Point (Planar.pt 1 0)) (nodes Examples.path3)
          (fun _ => [])
  = Raise ValueError.
Proof.
  assert (H : nearest (G := Planar.kernel) (Point (Planar.pt 1 0))
                (nodes Examples.path3) (fun _ => [0; 1])
              = Ok (mkNode 1 (Point (Planar.pt 1 0)) 0) [])
    by (vm_compute; reflexivity).
  split; [exact H |]. split.
  - exact (proj1 (proj2 (proj2 (nearest_is_nearest (G := Planar.kernel)
                    (Point (Planar.pt 1 0)) (nodes Examples.path3)
                    (fun _ => [0; 1])) _ _ H))).
  - exact (proj1 (nearest_is_nearest (G := Planar.kernel)
                    (Point (Planar.pt 1 0)) (nodes Examples.path3)
                    (fun _ => [])) eq_refl).
Defined.

(** [nearest_vertex_idx_on_line_first_nearest] on [segment]: the point
    (2, 0) is as far from either vertex, and the first is returned. *)
Lemma nearest_vertex_idx_on_line_first_nearest_witness :
  Cases.segment <> [] /\
  nearest_vertex_idx_on_line (G := Planar.kernel) (Planar.pt 2 0) Cases.segment
  = Ok 0%nat [] /\
  exists i c,
    nearest_vertex_idx_on_line (G := Planar.kernel) (Planar.pt 2 0) Cases.segment
    = Ok i [] /\
    nth_error Cases.segment i = Some c.
Proof.
  assert (Hne : Cases.segment <> []) by discriminate.
  split; [exact Hne |]. split; [reflexivity |].
  destruct (nearest_vertex_idx_on_line_first_nearest (G := Planar.kernel)
              (Planar.pt 2 0) Cases.segment Hne) as (i & c & Hi & Hc & _).
  exists i, c. split; assumption.
Defined.

(** [find_closest_2_edges_nearest_two] at the junction of [star]: all three
    edges touch the node, and the first two are returned. *)
Lemma find_closest_2_edges_nearest_two_witness :
  ids_are_positions (edges Examples.star) /\
  (forall p, In p [0; 1; 2] -> 0 <= p) /\
  exists e1 e2,
    find_closest_2_edges (G := Planar.kernel) [0; 1; 2] 0 (edges Examples.star)
      (Point (Planar.pt 0 0)) = Ok (e1, e2) [] /\
    edge_id e1 = 0 /\ edge_id e2 = 1 /\ edge_id e1 <> edge_id e2.
Proof.
  assert (Hids : ids_are_positions (edges Examples.star)) by reflexivity.
  assert (Hpos : forall p, In p [0; 1; 2] -> 0 <= p).
  { intros p Hp. cbn in Hp.
    repeat (destruct Hp as [<- | Hp]; [lia |]). destruct Hp. }
  split; [exact Hids |]. split; [exact Hpos |].
  destruct (find_closest_2_edges (G := Planar.kernel) [0; 1; 2] 0
              (edges Examples.star) (Point (Planar.pt 0 0)))
    as [[e1 e2] out | | |] eqn:E; try (vm_compute in E; discriminate).
  assert (Hout : out = []) by (vm_compute in E; now injection E).
  subst out. exists e1, e2. split; [reflexivity |].
  split; [vm_compute in E; injection E as <- _; reflexivity |].
  split; [vm_compute in E; injection E as _ <-; reflexivity |].
  exact (proj1 (proj2 (proj2
           (find_closest_2_edges_nearest_two (G := Planar.kernel)
              [0; 1; 2] 0 (edges Examples.star) (Point (Planar.pt 0 0))
              e1 e2 [] Hids Hpos E)))).
Defined.

(** [hanging_candidates_count] at [isolated_stub]: both ends of its edge
    hang and the edge is listed twice. *)
Lemma hanging_candidates_count_witness :
  nth_error (edges Examples.isolated_stub) 0
  = Some (mkEdge 0 0 1 7 "residential"
            (LineString [(0, 0)%Q; (1 # 1000, 0)%Q])) /\
  count_occ Z.eq_dec
    (hanging_candidates [1; 1] (edges Examples.isolated_stub)) 0 = 2%nat.
Proof.
  assert (He : nth_error (edges Examples.isolated_stub) 0
               = Some (mkEdge 0 0 1 7 "residential"
                         (LineString [(0, 0)%Q; (1 # 1000, 0)%Q])))
    by reflexivity.
  split; [exact He |].
  exact (hanging_candidates_count [1; 1] (edges Examples.isolated_stub)
           0 _ He).
Defined.

(** [drop_hanging_nodes_spares_inner_edges] at [chain5]: the edge between
    the nodes 1 and 2, both of degree 2, is kept. *)
Lemma drop_hanging_nodes_spares_inner_edges_witness :
  NoDup (map edge_id (edges Examples.chain5)) /\
  initial_degrees Examples.chain5 = Ok [1; 2; 2; 2; 1] [] /\
  drop_hanging_nodes (G := Planar.kernel) Examples.chain5 (1 # 200)
  = Ok Examples.chain5 [] /\
  In Cases.chain5_inner (edges Examples.chain5) /\
  hangs [1; 2; 2; 2; 1] (from_id Cases.chain5_inner) = false /\
  hangs [1; 2; 2; 2; 1] (to_id Cases.chain5_inner) = false /\
  exists k, In (set_edge_id Cases.chain5_inner k) (edges Examples.chain5).
Proof.
  assert (Hnd : NoDup (map edge_id (edges Examples.chain5))).
  { cbn. repeat constructor; cbn; intuition discriminate. }
  assert (Hdeg : initial_degrees Examples.chain5 = Ok [1; 2; 2; 2; 1] [])
    by reflexivity.
  assert (Hrun : drop_hanging_nodes (G := Planar.kernel) Examples.chain5 (1 # 200)
                 = Ok Examples.chain5 []) by (vm_compute; reflexivity).
  assert (Hin : In Cases.chain5_inner (edges Examples.chain5))
    by (right; now left).
  repeat (split; [first [assumption | reflexivity] |]).
  exact (drop_hanging_nodes_spares_inner_edges (G := Planar.kernel)
           Examples.chain5 (1 # 200) _ _ _ _ Hnd Hdeg Hrun
           Cases.chain5_inner Hin eq_refl eq_refl).
Defined.

(** [drop_hanging_nodes_degrees_fall] at [isolated_stub]: the degrees 1, 1
    the pass counts end at -1, -1. *)
Lemma drop_hanging_nodes_degrees_fall_witness :
  initial_degrees Examples.isolated_stub = Ok [1; 1] [] /\
  exists out,
    drop_hanging_nodes (G := Planar.kernel) Examples.isolated_stub (1 # 200)
    = Ok out [] /\
    map degree (nodes out) = [-1; -1] /\
    Forall2 Z.le (map degree (nodes out)) [1; 1].
Proof.
  assert (Hdeg : initial_degrees Examples.isolated_stub = Ok [1; 1] [])
    by reflexivity.
  split; [exact Hdeg |].
  destruct (drop_hanging_nodes (G := Planar.kernel)
              Examples.isolated_stub (1 # 200)) as [out msgs | | |] eqn:E;
    try (vm_compute in E; discriminate).
  assert (Hmsgs : msgs = []) by (vm_compute in E; now injection E).
  subst msgs. exists out. split; [reflexivity |]. split.
  - vm_compute in E. injection E as <-. reflexivity.
  - exact (proj2 (proj2 (proj2
             (drop_hanging_nodes_degrees_fall (G := Planar.kernel)
                Examples.isolated_stub (1 # 200) _ _ _ _ Hdeg E)))).
Defined.

(** [merge_2_keeps_attributes] at [chain5], whose edge ids are the row
    positions: the one edge returned is edge 0 of the input with the merged
    geometry. *)
Lemma merge_2_keeps_attributes_witness :
  ids_are_positions (edges Examples.chain5) /\
  exists out,
    merge_2 (G := Planar.kernel) (S := Planar.sets) 10 Examples.chain5 false
    = Ok out [] /\
    map attributes (edges out) = [(0, 7, "primary"%string)] /\
    forall e', In e' (edges out) ->
      exists e, In e (edges Examples.chain5) /\ merged_from e e'.
Proof.
  assert (Hids : ids_are_positions (edges Examples.chain5)) by reflexivity.
  split; [exact Hids |].
  destruct (merge_2 (G := Planar.kernel) (S := Planar.sets) 10
              Examples.chain5 false) as [out msgs | | |] eqn:E;
    try (vm_compute in E; discriminate).
  assert (Hmsgs : msgs = []) by (vm_compute in E; now injection E).
  subst msgs. exists out. split; [reflexivity |]. split.
  - vm_compute in E. injection E as <-. reflexivity.
  - pose proof (proj2 (merge_2_keeps_attributes (G := Planar.kernel)
                         (S := Planar.sets) 10 Examples.chain5 false Hids))
      as Hkeep.
    rewrite E in Hkeep.
    exact (proj2 (proj2 (Hkeep out [] eq_refl))).
Defined.

(** [merge_2_needs_degree_column] at [path3], whose node table has no
    degree column. *)
Lemma merge_2_needs_degree_column_witness :
  has_degree Examples.path3 = false /\
  merge_2 (G := Planar.kernel) (S := Planar.sets) 10 Examples.path3 false
  = Raise AttributeError /\
  forall out msgs,
    merge_2 (G := Planar.kernel) (S := Planar.sets) 10 Examples.path3 false
    <> Ok out msgs.
Proof.
  assert (Hcol : has_degree Examples.path3 = false) by reflexivity.
  split; [exact Hcol |]. split; [vm_compute; reflexivity |].
  exact (merge_2_needs_degree_column (G := Planar.kernel) (S := Planar.sets)
           10 Examples.path3 false Hcol).
Defined.

(** [calculate_degree_counts_loops_twice] at [looped]: two edges touch
    node 0, one of them a loop, and its degree is 3. *)
Lemma calculate_degree_counts_loops_twice_witness :
  valid_ends (List.length (nodes Cases.looped)) (edges Cases.looped) /\
  calculate_degree Cases.looped = Ok [3; 1] [] /\
  node_connectivity_degree 0 Cases.looped = 2 /\
  self_loops (edges Cases.looped) 0 = 1 /\
  at_label [3; 1] 0
  = Some (node_connectivity_degree 0 Cases.looped
          + self_loops (edges Cases.looped) 0).
Proof.
  assert (Hv : valid_ends (List.length (nodes Cases.looped)) (edges Cases.looped)).
  { intros e He. cbn in He.
    repeat (destruct He as [<- | He]; [cbn; lia |]). destruct He. }
  assert (Hrun : calculate_degree Cases.looped = Ok [3; 1] []) by reflexivity.
  split; [exact Hv |]. split; [exact Hrun |].
  split; [reflexivity |]. split; [reflexivity |].
  exact (calculate_degree_counts_loops_twice Cases.looped _ _ Hv Hrun 0
           ltac:(cbn; lia)).
Defined.

(** [calculate_degree_handshake] at [looped]: 3 + 1 is twice two edges. *)
Lemma calculate_degree_handshake_witness :
  valid_ends (List.length (nodes Cases.looped)) (edges Cases.looped) /\
  calculate_degree Cases.looped = Ok [3; 1] [] /\
  total [3; 1] = 2 * Z.of_nat (List.length (edges Cases.looped)).
Proof.
  assert (Hv : valid_ends (List.length (nodes Cases.looped)) (edges Cases.looped)).
  { intros e He. cbn in He.
    repeat (destruct He as [<- | He]; [cbn; lia |]). destruct He. }
  assert (Hrun : calculate_degree Cases.looped = Ok [3; 1] []) by reflexivity.
  split; [exact Hv |]. split; [exact Hrun |].
  exact (proj2 (calculate_degree_handshake Cases.looped _ _ Hv Hrun)).
Defined.

(** [calculate_degree_negative_reference] at [minus_one]. *)
Lemma calculate_degree_negative_reference_witness :
  In Cases.minus_one_edge (edges Cases.minus_one) /\
  to_id Cases.minus_one_edge < 0 /\
  calculate_degree Cases.minus_one = Raise ValueError.
Proof.
  assert (He : In Cases.minus_one_edge (edges Cases.minus_one)) by (now left).
  assert (Hneg : to_id Cases.minus_one_edge < 0) by (cbn; lia).
  split; [exact He |]. split; [exact Hneg |].
  exact (calculate_degree_negative_reference Cases.minus_one
           Cases.minus_one_edge He (or_intror Hneg)).
Defined.

(** [add_degree_consistent] at [path3]: the degrees 1, 2, 1 are written
    and [logicCheck] has no complaint about them. *)
Lemma add_degree_consistent_witness :
  exists net',
    add_degree Examples.path3 = Ok net' [] /\
    map degree (nodes net') = [1; 2; 1] /\
    exists msgs,
      logicCheck net' = Ok tt msgs /\
      ~ In MsgDegreeMismatch msgs /\ ~ In MsgDegreeNotCalculated msgs.
Proof.
  destruct (add_degree Examples.path3) as [net' out | | |] eqn:E;
    try (vm_compute in E; discriminate).
  assert (Hout : out = []) by (vm_compute in E; now injection E).
  subst out. exists net'. split; [reflexivity |]. split.
  - vm_compute in E. injection E as <-. reflexivity.
  - exact (proj2 (proj2 (proj2 (proj2 (proj2
             (add_degree_consistent Examples.path3 net' [] E)))))).
Defined.

(** [snap_line_adds_vertices] on [segment]: of the two points the one on
    the segment becomes a vertex, the one far from it does not. *)
Lemma snap_line_adds_vertices_witness :
  Cases.segment <> [] /\
  snap_line (G := Planar.kernel) Cases.segment Cases.on_and_off (1 # 1000)
  = Ok [Planar.pt 0 0; Planar.pt 1 0; Planar.pt 4 0] [] /\
  exists line',
    snap_line (G := Planar.kernel) Cases.segment Cases.on_and_off (1 # 1000)
    = Ok line' [] /\
    subsequence Cases.segment line'.
Proof.
  assert (Hne : Cases.segment <> []) by discriminate.
  split; [exact Hne |]. split; [vm_compute; reflexivity |].
  destruct (snap_line_adds_vertices (G := Planar.kernel)
              Cases.segment Cases.on_and_off (1 # 1000) Hne)
    as (line' & Hrun & Hsub & _).
  exists line'. split; assumption.
Defined.

(** [split_locs_mixes_points] at [bend]: its vertex (1, 2) is neither of the
    split points (1, 7) and (8, 2), and is a split location. *)
Lemma split_locs_mixes_points_witness :
  nth_error Cases.bend 1 = Some (inject_Z 1, inject_Z 2) /\
  In (inject_Z 1, inject_Z 7) Cases.elsewhere /\
  In (inject_Z 8, inject_Z 2) Cases.elsewhere /\
  ~ In (inject_Z 1, inject_Z 2) Cases.elsewhere /\
  In 1%nat (split_locs Cases.bend Cases.elsewhere).
Proof.
  assert (Hv : nth_error Cases.bend 1 = Some (inject_Z 1, inject_Z 2))
    by reflexivity.
  assert (Hx : In (inject_Z 1, inject_Z 7) Cases.elsewhere) by (now left).
  assert (Hy : In (inject_Z 8, inject_Z 2) Cases.elsewhere)
    by (right; now left).
  split; [exact Hv |]. split; [exact Hx |]. split; [exact Hy |]. split.
  - cbn. intros H. repeat (destruct H as [H | H]; [discriminate |]). exact H.
  - exact (split_locs_mixes_points Cases.bend Cases.elsewhere 1 _ _ _ _
             Hv Hx Hy).
Defined.

(** [split_edges_at_nodes_pyg_uncut] at [alone]: a road that meets no
    other has no cut position and is gone after the split. *)
Lemma split_edges_at_nodes_pyg_uncut_witness :
  (forall e, In e (raw_edges Cases.alone) ->
     (List.length
        (cut_positions (G := Planar.kernel)
           (map feat_geometry (raw_edges Cases.alone)) e) < 2)%nat) /\
  split_edges_at_nodes_pyg (G := Planar.kernel) Cases.alone
  = Ok (mkRaw [] []) [].
Proof.
  assert (Hfew : forall e, In e (raw_edges Cases.alone) ->
            (List.length
               (cut_positions (G := Planar.kernel)
                  (map feat_geometry (raw_edges Cases.alone)) e) < 2)%nat).
  { intros e He. cbn in He. destruct He as [<- | []]. vm_compute. lia. }
  split; [exact Hfew |].
  exact (split_edges_at_nodes_pyg_uncut (G := Planar.kernel) Cases.alone Hfew).
Defined.
